(** * map-this: the geocoding cache and resolution pipeline

    A shallow embedding of the location cache, the geocoding clients and the
    hierarchical approximation found in the scripts [map8], [map9_debugging],
    [map10], [map11] and [map13_final], with the properties the design
    document states about them.

    Conventions of the embedding:
    - A Python [float] that comes from outside (an answer of a geocoding
      service) is a number or NaN ([float]); a number, and a duration in
      seconds, is a rational [Q]. [None], SQL [NULL] and [pd.NA] are [None]
      of an [option]; in a pandas frame NaN is the missing value, so a cell
      of a frame is an [option Q].
    - The sqlite file, the network and the logger are fields of an explicit
      world record threaded through every function ([M]).
    - The remote geocoding service and the passing of time are the
      environment: section variables [remote] and [elapse].
    - The properties of the cache hold whatever the digest is: there it is
      the section variable [md5_hexdigest]; the examples run on MD5 itself,
      [Hashlib.md5_hexdigest]. *)

From Stdlib Require Import ZArith QArith Qabs Qround Lqa Lia Ascii String.
From stdpp Require Import base option list strings gmap.

Set Default Proof Using "Type".
Local Open Scope string_scope.
Local Open Scope list_scope.

(** ** A state monad for the scripts' side effects *)

Definition M (W A : Type) : Type := W -> A * W.

Definition ret {W A} (a : A) : M W A := fun w => (a, w).
Definition bind {W A B} (m : M W A) (k : A -> M W B) : M W B :=
  fun w => let (a, w') := m w in k a w'.
Definition get {W} : M W W := fun w => (w, w).
Definition modify {W} (f : W -> W) : M W unit := fun w => (tt, f w).
Definition exec {W A} (m : M W A) (w : W) : W := snd (m w).
Definition eval {W A} (m : M W A) (w : W) : A := fst (m w).

Notation "'let*' x ':=' m 'in' k" := (bind m (fun x => k))
  (at level 10, x pattern, m at level 200, k at level 200).
Notation "m '>>' k" := (bind m (fun _ => k))
  (at level 100, k at level 200, right associativity).

(** [for x in xs: body x] *)
Fixpoint for_each {W A} (xs : list A) (body : A -> M W unit) : M W unit :=
  match xs with
  | [] => ret tt
  | x :: xs' => body x >> for_each xs' body
  end.

(** ** What an HTTP round trip can produce

    [requests.get] either raises (no connection, timeout) or yields a status
    code and a body; [raise_for_status] raises [HTTPError] on 4xx and 5xx;
    [.json()] and the subscripts raise on a body of the wrong shape. *)

(** A Python [float] as [json] and [float(..)] hand it out: a number, or
    NaN, which is not [None] and compares equal to nothing. *)
Inductive float : Type :=
| Num (q : Q)
| NaN.

(** What [sqlite3] stores in a [REAL] column for a bound Python value:
    [None] and a float NaN both become [NULL]. *)
Definition bind_real (value : option float) : option Q :=
  match value with
  | Some (Num q) => Some q
  | Some NaN | None => None
  end.

(** A [REAL] cell read back: a number, or [None] for [NULL]. *)
Definition fetch_real (cell : option Q) : option float :=
  match cell with
  | Some q => Some (Num q)
  | None => None
  end.

(** The first result of an answer: [None] stands for [null] (and, where
    the code calls [float(..)] on the field, for anything [float] raises
    on). *)
Record position : Type := Position { p_lat : option float; p_lng : option float }.

Inductive body : Type :=
| Malformed
| Items (items : list position).

Inductive http_reply : Type :=
| ConnectionFailed
| Status (code : Z) (b : body).

Definition raises_for_status (code : Z) : bool :=
  ((400 <=? code) && (code <? 600))%Z.

(** The exceptions a request can end in, as the [except] clauses tell them
    apart. *)
Inductive exn : Type :=
| HTTPError (status_code : Z)
| OtherError.

(** [response = get(..); response.raise_for_status(); data = response.json()] *)
Definition fetch_json (r : http_reply) : exn + list position :=
  match r with
  | ConnectionFailed => inl OtherError
  | Status code b =>
      if raises_for_status code then inl (HTTPError code)
      else match b with
           | Malformed => inl OtherError
           | Items l => inr l
           end
  end.

Definition is_not_None {A} (o : option A) : bool :=
  match o with Some _ => true | None => false end.

(** ** [hashlib.md5(s.encode()).hexdigest()]

    MD5 as RFC 1321 gives it, on 32-bit words held in [Z]; a string is the
    bytes of its encoding. *)

Module Hashlib.

Local Open Scope Z_scope.

Definition mask32 (x : Z) : Z := x mod 2 ^ 32.
Definition add32 (x y : Z) : Z := mask32 (x + y).
Definition not32 (x : Z) : Z := 2 ^ 32 - 1 - x.
Definition leftrotate (x c : Z) : Z :=
  Z.lor (mask32 (Z.shiftl x c)) (Z.shiftr x (32 - c)).

Definition shifts : list Z :=
  [7; 12; 17; 22; 7; 12; 17; 22; 7; 12; 17; 22; 7; 12; 17; 22;
   5; 9; 14; 20; 5; 9; 14; 20; 5; 9; 14; 20; 5; 9; 14; 20;
   4; 11; 16; 23; 4; 11; 16; 23; 4; 11; 16; 23; 4; 11; 16; 23;
   6; 10; 15; 21; 6; 10; 15; 21; 6; 10; 15; 21; 6; 10; 15; 21]%Z.

(** [floor(2^32 * abs(sin(i + 1)))] *)
Definition sines : list Z :=
  [3614090360; 3905402710; 606105819; 3250441966; 4118548399; 1200080426;
   2821735955; 4249261313; 1770035416; 2336552879; 4294925233; 2304563134;
   1804603682; 4254626195; 2792965006; 1236535329; 4129170786; 3225465664;
   643717713; 3921069994; 3593408605; 38016083; 3634488961; 3889429448;
   568446438; 3275163606; 4107603335; 1163531501; 2850285829; 4243563512;
   1735328473; 2368359562; 4294588738; 2272392833; 1839030562; 4259657740;
   2763975236; 1272893353; 4139469664; 3200236656; 681279174; 3936430074;
   3572445317; 76029189; 3654602809; 3873151461; 530742520; 3299628645;
   4096336452; 1126891415; 2878612391; 4237533241; 1700485571; 2399980690;
   4293915773; 2240044497; 1873313359; 4264355552; 2734768916; 1309151649;
   4149444226; 3174756917; 718787259; 3951481745]%Z.

Definition bytes_of (s : string) : list Z :=
  map (fun c => Z.of_nat (nat_of_ascii c)) (list_ascii_of_string s).

(** [n] as [k] bytes, least significant first. *)
Fixpoint little_endian (k : nat) (n : Z) : list Z :=
  match k with
  | O => []
  | S k' => (n mod 256)%Z :: little_endian k' (n / 256)%Z
  end.

(** The message, a 1 bit, zeros up to 56 modulo 64, the length in bits. *)
Definition pad (message : list Z) : list Z :=
  let len := length message in
  let zeros := ((64 + 55 - len mod 64) mod 64)%nat in
  message ++ [128%Z] ++ replicate zeros 0%Z ++
  little_endian 8 (Z.of_nat len * 8 mod 2 ^ 64)%Z.

Fixpoint word_of (bytes : list Z) : Z :=
  match bytes with
  | [] => 0
  | b :: rest => (b + 256 * word_of rest)%Z
  end.

(** Cut into pieces of [k] elements, at most [fuel] of them. *)
Fixpoint chunks {A} (fuel k : nat) (l : list A) : list (list A) :=
  match fuel, l with
  | O, _ | _, [] => []
  | S fuel', _ => take k l :: chunks fuel' k (drop k l)
  end.

Definition words_of (block : list Z) : list Z :=
  map word_of (chunks 16 4 block).

Definition round (M : list Z) (st : Z * Z * Z * Z) (i : nat) : Z * Z * Z * Z :=
  let '(A, B, C, D) := st in
  let '(F, g) :=
    if (i <? 16)%nat then (Z.lor (Z.land B C) (Z.land (not32 B) D), i)
    else if (i <? 32)%nat then
      (Z.lor (Z.land D B) (Z.land (not32 D) C), ((5 * i + 1) mod 16)%nat)
    else if (i <? 48)%nat then (Z.lxor (Z.lxor B C) D, ((3 * i + 5) mod 16)%nat)
    else (Z.lxor C (Z.lor B (not32 D)), ((7 * i) mod 16)%nat) in
  let F := add32 (add32 (add32 F A) (nth i sines 0%Z)) (nth g M 0%Z) in
  (D, add32 B (leftrotate F (nth i shifts 0%Z)), B, C).

Definition process_block (h : Z * Z * Z * Z) (block : list Z) : Z * Z * Z * Z :=
  let '(a0, b0, c0, d0) := h in
  let '(A, B, C, D) := fold_left (round (words_of block)) (seq 0 64) h in
  (add32 a0 A, add32 b0 B, add32 c0 C, add32 d0 D).

Definition md5 (message : list Z) : list Z :=
  let padded := pad message in
  let '(a, b, c, d) :=
    fold_left process_block (chunks (length padded) 64 padded)
      (1732584193, 4023233417, 2562383102, 271733878)%Z in
  little_endian 4 a ++ little_endian 4 b ++ little_endian 4 c ++ little_endian 4 d.

Definition hex_digit (n : Z) : ascii :=
  nth (Z.to_nat n) (list_ascii_of_string "0123456789abcdef") "0"%char.

Fixpoint hex (bytes : list Z) : string :=
  match bytes with
  | [] => EmptyString
  | b :: rest => String (hex_digit (b / 16)) (String (hex_digit (b mod 16)) (hex rest))
  end.

Definition md5_hexdigest (s : string) : string := hex (md5 (bytes_of s)).

End Hashlib.


(** ** map9_debugging/preprocess_locations.py (and map8, same text) *)

Module Map9.

Record LocationRow : Type := {
  location_string : string;
  latitude : option Q;
  longitude : option Q;
  attempts : option Z;
  last_attempt : option Q;
  success : bool;
  timestamp : Q
}.

(** [HereGeocoder]: the object every worker shares. *)
Record HereGeocoder : Type := {
  last_request_time : Q;
  min_request_interval : Q
}.

Record World : Type := {
  locations : gmap string LocationRow;   (* table [locations], by location_hash *)
  requests : list string;                (* queries sent to the service, oldest first *)
  error_log : list string;               (* logging.error *)
  clock : Q;                             (* seconds *)
  reads : nat;                           (* clock readings so far *)
  geocoder : HereGeocoder
}.

Definition set_locations (f : gmap string LocationRow -> gmap string LocationRow)
    (w : World) : World :=
  {| locations := f (locations w); requests := requests w;
     error_log := error_log w; clock := clock w; reads := reads w;
     geocoder := geocoder w |}.

Definition HereGeocoder_init : HereGeocoder :=
  {| last_request_time := 0; min_request_interval := 1 # 10 |}.

Section Pipeline.

(** The environment: what the service answers to the [n]-th request of the
    run, how much time passes before the [n]-th reading of the clock, and
    the digest. *)
Variable remote : nat -> string -> http_reply.
Variable elapse : nat -> Q.
Variable md5_hexdigest : string -> string.

(** [time.time()] *)
Definition time_time : M World Q := fun w =>
  let t := (clock w + elapse (reads w))%Q in
  (t, {| locations := locations w; requests := requests w;
         error_log := error_log w; clock := t; reads := S (reads w);
         geocoder := geocoder w |}).

(** [time.sleep(d)] *)
Definition time_sleep (d : Q) : M World unit := fun w =>
  (tt, {| locations := locations w; requests := requests w;
          error_log := error_log w; clock := (clock w + d)%Q; reads := reads w;
          geocoder := geocoder w |}).

Definition set_last_request_time (t : Q) : M World unit := fun w =>
  (tt, {| locations := locations w; requests := requests w;
          error_log := error_log w; clock := clock w; reads := reads w;
          geocoder := {| last_request_time := t;
                         min_request_interval := min_request_interval (geocoder w) |} |}).

Definition Qltb (a b : Q) : bool := negb (Qle_bool b a).

(** [HereGeocoder._rate_limit]; the body runs with [rate_limit_lock] held,
    so no other worker's passage interleaves with it. *)
Definition _rate_limit : M World unit :=
  let* current_time := time_time in
  let* w := get in
  let time_since_last := (current_time - last_request_time (geocoder w))%Q in
  (if Qltb time_since_last (min_request_interval (geocoder w))
   then time_sleep (min_request_interval (geocoder w) - time_since_last)%Q
   else ret tt) >>
  let* t := time_time in
  set_last_request_time t.

(** [self.session.get(self.base_url, params=params)] *)
Definition session_get (q : string) : M World http_reply := fun w =>
  (remote (length (requests w)) q,
   {| locations := locations w; requests := requests w ++ [q];
      error_log := error_log w; clock := clock w; reads := reads w;
      geocoder := geocoder w |}).

Definition logging_error (msg : string) : M World unit := fun w =>
  (tt, {| locations := locations w; requests := requests w;
          error_log := error_log w ++ [msg]; clock := clock w; reads := reads w;
          geocoder := geocoder w |}).

(** [HereGeocoder.geocode] *)
Definition geocode (location_string : string)
    : M World (option float * option float) :=
  _rate_limit >>
  let* response := session_get location_string in
  match fetch_json response with
  | inr (p :: _) => ret (p_lat p, p_lng p)
  | inr [] => ret (None, None)
  | inl _ =>
      logging_error ("Error geocoding " +:+ location_string) >>
      ret (None, None)
  end.

Definition get_location_hash (location_string : string) : string :=
  md5_hexdigest location_string.

(** [SELECT latitude, longitude FROM locations
     WHERE location_hash = ? AND success = 1], then [fetchone()] *)
Definition select_successful (location_hash : string)
    (t : gmap string LocationRow) : option (option Q * option Q) :=
  match t !! location_hash with
  | Some r => if success r then Some (latitude r, longitude r) else None
  | None => None
  end.

(** [COALESCE((SELECT attempts + 1 FROM locations WHERE location_hash = ?), 1)];
    [NULL + 1] is [NULL]. The counter is a 64-bit integer in sqlite; it
    counts runs of this function and stays far from that bound, so it is a
    plain [Z] here. *)
Definition next_attempts (location_hash : string)
    (t : gmap string LocationRow) : Z :=
  match t !! location_hash with
  | Some r => match attempts r with Some n => (n + 1)%Z | None => 1%Z end
  | None => 1%Z
  end.

(** [INSERT OR REPLACE INTO locations (location_hash, location_string,
     latitude, longitude, attempts, last_attempt, success) VALUES (..)]:
    the row under the key is replaced whole; [timestamp] takes its default
    [CURRENT_TIMESTAMP]. The columns have no [NOT NULL]: a NaN is stored
    as [NULL]. *)
Definition insert_or_replace (location_hash location_string : string)
    (lat lon : option float) (success : bool) : M World unit :=
  let* now := time_time in
  modify (set_locations (fun t =>
    <[location_hash :=
        {| location_string := location_string;
           latitude := bind_real lat; longitude := bind_real lon;
           attempts := Some (next_attempts location_hash t);
           last_attempt := Some now;
           success := success;
           timestamp := now |}]> t)).

(** [process_location]; the result is the Python [bool] it returns. *)
Definition process_location (location_string : string) : M World bool :=
  let location_hash := get_location_hash location_string in
  let* w := get in
  match select_successful location_hash (locations w) with
  | Some _ => ret true
  | None =>
      let* (lat, lon) := geocode location_string in
      let success := is_not_None lat && is_not_None lon in
      insert_or_replace location_hash location_string lat lon success >>
      ret success
  end.

(** [process_batch], without the progress queue. *)
Definition process_batch (locations : list string) : M World unit :=
  for_each locations (fun location => process_location location >> ret tt).

(** What the workers of the thread pool do to the geocoder they share,
    one step at a time. In [geocode] a worker first passes the gate
    ([_rate_limit], with [rate_limit_lock] held from its first statement
    to its last, so that no other step comes in between), and then, the
    lock released, sends its request ([session.get]); other workers'
    steps may come between the two. *)
Inductive step : Type :=
| Pass (worker : nat)
| Send (worker : nat) (location_string : string).

(** A schedule of steps, run on the shared world: the log lists each step
    with the time on the clock when it was done: for a passage the
    [last_request_time] it wrote, for a request the time it left. *)
Fixpoint run_workers (schedule : list step) (w : World)
    : list (step * Q) * World :=
  match schedule with
  | [] => ([], w)
  | Pass worker :: rest =>
      let w1 := exec _rate_limit w in
      let (log, w2) := run_workers rest w1 in
      ((Pass worker, last_request_time (geocoder w1)) :: log, w2)
  | Send worker location_string :: rest =>
      let (t, w1) := time_time w in
      let (log, w2) := run_workers rest (exec (session_get location_string) w1) in
      ((Send worker location_string, t) :: log, w2)
  end.

(** *** The rendering side: map9_debugging/create_map.py

    The database file may lack the table [locations] (the preprocessing
    was never run): a [SELECT] then raises [sqlite3.OperationalError]. *)

Inductive sqlite3_Error : Type :=
| OperationalError (msg : string).

Definition cursor_execute (conn : option (gmap string LocationRow))
    : sqlite3_Error + gmap string LocationRow :=
  match conn with
  | Some t => inr t
  | None => inl (OperationalError "no such table: locations")
  end.

(** [get_coordinates]: the coordinates and what it passed to
    [logging.error]. *)
Definition get_coordinates (location_string : string)
    (cursor : option (gmap string LocationRow))
    : (option Q * option Q) * list string :=
  match cursor_execute cursor with
  | inr t =>
      match select_successful (get_location_hash location_string) t with
      | Some result => (result, [])
      | None => ((None, None), [])
      end
  | inl (OperationalError e) =>
      ((None, None), ["Database error while getting coordinates: " +:+ e])
  end.

(** *** The locations [preprocess_locations] extracts from the CSV *)

Record CsvRow : Type := {
  State_UT_Name : option string;
  District : option string;
  Police_Station : option string
}.

Definition state_query (r : CsvRow) : option string :=
  match State_UT_Name r with
  | Some state => Some (state +:+ ", India")
  | None => None
  end.

Definition district_query (r : CsvRow) : option string :=
  match District r, State_UT_Name r with
  | Some district, Some state => Some (district +:+ ", " +:+ state +:+ ", India")
  | _, _ => None
  end.

Definition station_query (r : CsvRow) : option string :=
  match Police_Station r, District r, State_UT_Name r with
  | Some ps, Some district, Some state =>
      Some (ps +:+ ", " +:+ district +:+ ", " +:+ state +:+ ", India")
  | _, _, _ => None
  end.

(** The set [locations] built from the three [dropna] passes. *)
Definition extract_locations (df : list CsvRow) : gset string :=
  list_to_set (omap state_query df) ∪
  list_to_set (omap district_query df) ∪
  list_to_set (omap station_query df).

End Pipeline.

(** *** The rest of [preprocess_locations]: batches and the final report *)

(** [range(start, stop, step)] for a positive [step]; it has at most
    [stop - start] elements, which is the fuel the caller gives. *)
Fixpoint range_up (fuel start stop step : nat) : list nat :=
  match fuel with
  | O => []
  | S fuel' =>
      if (start <? stop)%nat
      then start :: range_up fuel' (start + step) stop step
      else []
  end.

(** [[locations[i:i + batch_size]
      for i in range(0, len(locations), batch_size)]]; [range] raises
    [ValueError] on a step of zero ([None]) and is empty for a negative
    step. *)
Definition batches {A} (locations : list A) (batch_size : Z)
    : option (list (list A)) :=
  if (batch_size =? 0)%Z then None
  else if (batch_size <? 0)%Z then Some []
  else
    let b := Z.to_nat batch_size in
    Some (map (fun i => take b (drop i locations))
            (range_up (length locations) 0 (length locations) b)).

(** [SELECT COUNT( * ) FROM locations WHERE success = ?] *)
Definition count_success (value : bool) (t : gmap string LocationRow) : nat :=
  size (filter (fun kr => success kr.2 = value) t).

(** [successful/(successful+failed)*100]; the division raises
    [ZeroDivisionError] ([None]) when both counts are zero. *)
Definition success_rate (successful failed : nat) : option Q :=
  if (successful + failed =? 0)%nat then None
  else Some (inject_Z (Z.of_nat successful)
             / inject_Z (Z.of_nat (successful + failed)) * 100)%Q.

(** The statistics printed at the end of [preprocess_locations]. *)
Definition statistics (t : gmap string LocationRow) : nat * nat * option Q :=
  let successful := count_success true t in
  let failed := count_success false t in
  (successful, failed, success_rate successful failed).

(** [get_color] of create_map.py: the colour of a marker, by amount. *)
Definition get_color (amount : Q) : string :=
  if Qltb 1000000 amount then "red"
  else if Qltb 100000 amount then "orange"
  else if Qltb 10000 amount then "yellow"
  else "green".

End Map9.

(** ** map8 *)

Module Map8.

(** *** map8/crime_data_with_cache.py *)

Section Render.

Variable md5_hexdigest : string -> string.

(** [get_cached_coordinates]: no [try]; an exception of [c.execute]
    reaches the caller ([inl]). *)
Definition get_cached_coordinates (location_string : string)
    (conn : option (gmap string Map9.LocationRow))
    : Map9.sqlite3_Error + (option Q * option Q) :=
  let location_hash := md5_hexdigest location_string in
  match Map9.cursor_execute conn with
  | inl e => inl e
  | inr t =>
      match t !! location_hash with
      | Some r => inr (Map9.latitude r, Map9.longitude r)
      | None => inr (None, None)
      end
  end.

End Render.

(** *** map8/preprocess_locations.py: [GeocodingService]

    [self.nominatim] is geopy's [RateLimiter] around [Nominatim.geocode].
    One call of [Nominatim.geocode] ends in a location, in [None], in one
    of geopy's own errors ([GeocoderServiceError]: timed out, unavailable,
    an HTTP error, an answer it cannot parse) or in any other exception. *)

Inductive outcome : Type :=
| Located (latitude longitude : float)
| NoLocation
| ServiceError (e : string)
| OtherException (e : string).

Record World : Type := {
  calls : list string;       (* calls of [Nominatim.geocode], oldest first *)
  error_log : list string;   (* logging.error *)
  error_waits : list Q       (* the limiter's sleeps after an error *)
}.

Definition max_retries : nat := 3.
Definition error_wait_seconds : Q := 2.

Section Service.

Variable nominatim : nat -> string -> outcome.

Definition call_nominatim (q : string) : M World outcome := fun w =>
  (nominatim (length (calls w)) q,
   {| calls := calls w ++ [q]; error_log := error_log w;
      error_waits := error_waits w |}).

Definition logging_error (msg : string) : M World unit := fun w =>
  (tt, {| calls := calls w; error_log := error_log w ++ [msg];
          error_waits := error_waits w |}).

Definition error_wait : M World unit := fun w =>
  (tt, {| calls := calls w; error_log := error_log w;
          error_waits := error_waits w ++ [error_wait_seconds] |}).

(** [RateLimiter.__call__] with [swallow_exceptions] at its default: the
    call is made again while it ends in a [GeocoderServiceError] and
    retries remain, [error_wait_seconds] later; after the last try the
    error is swallowed and [None] returned. Any other exception passes
    through ([inl]). The pacing of the calls ([min_delay_seconds]) is not
    part of this model. *)
Fixpoint rate_limiter (retries_left : nat) (q : string)
    : M World (string + option (float * float)) :=
  let* location := call_nominatim q in
  match location with
  | Located latitude longitude => ret (inr (Some (latitude, longitude)))
  | NoLocation => ret (inr None)
  | ServiceError e =>
      match retries_left with
      | S n => error_wait >> rate_limiter n q
      | O => ret (inr None)
      end
  | OtherException e => ret (inl e)
  end.

(** The body of [geocode], under the decorator: it may return or raise. *)
Definition geocode_body (location_string : string)
    : M World (string + (option float * option float)) :=
  let* location := rate_limiter max_retries location_string in
  match location with
  | inr (Some (latitude, longitude)) => ret (inr (Some latitude, Some longitude))
  | inr None => ret (inr (None, None))
  | inl e =>
      logging_error ("Error geocoding " +:+ location_string +:+ ": " +:+ e) >>
      ret (inr (None, None))
  end.

(** [@backoff.on_exception(backoff.expo, .., max_tries=5)]: call again
    while the target raises and tries remain; the last exception is raised
    again. The waits between the tries are left out. *)
Fixpoint on_exception {A} (tries_left : nat)
    (target : M World (string + A)) : M World (string + A) :=
  let* r := target in
  match r, tries_left with
  | inl e, S (S n as tries_left') => on_exception tries_left' target
  | _, _ => ret r
  end.

Definition max_tries : nat := 5.

(** [GeocodingService.geocode] *)
Definition geocode (location_string : string)
    : M World (string + (option float * option float)) :=
  on_exception max_tries (geocode_body location_string).

End Service.

(** [get_color], nested in [create_crime_map] of crime_data_with_cache.py *)
Definition get_color (amount : Q) : string :=
  if Qeq_bool amount 0 then "gray"
  else if Map9.Qltb amount 10000 then "green"
  else if Map9.Qltb amount 100000 then "yellow"
  else if Map9.Qltb amount 1000000 then "orange"
  else "red".

End Map8.

(** ** map10/preprocessing.py *)

Module Map10.

Record World : Type := {
  geocoded_locations : gmap string (Q * Q);  (* by location_query; both columns NOT NULL *)
  statements : nat;                          (* SQL statements executed *)
  requests : list string;                    (* queries sent to the service *)
  output : list string;                      (* print / logging *)
  sleeps : list Q                            (* time.sleep arguments, oldest first *)
}.

Definition RATE_LIMIT : Q := 3 # 2.

(** [get_cached_lat_long] *)
Definition get_cached_lat_long (location_query : string)
    : M World (option float * option float) := fun w =>
  (match geocoded_locations w !! location_query with
   | Some (latitude, longitude) => (Some (Num latitude), Some (Num longitude))
   | None => (None, None)
   end,
   {| geocoded_locations := geocoded_locations w;
      statements := S (statements w); requests := requests w;
      output := output w; sleeps := sleeps w |}).

(** [cache_lat_long]: [INSERT OR IGNORE] skips the row when the query is
    already there (UNIQUE) or a coordinate is stored as [NULL] (NOT NULL):
    [None] or NaN. *)
Definition cache_lat_long (location_query : string)
    (latitude longitude : option float) : M World unit := fun w =>
  (tt,
   {| geocoded_locations :=
        match geocoded_locations w !! location_query,
              bind_real latitude, bind_real longitude with
        | None, Some la, Some lo =>
            <[location_query := (la, lo)]> (geocoded_locations w)
        | _, _, _ => geocoded_locations w
        end;
      statements := S (statements w); requests := requests w;
      output := output w; sleeps := sleeps w |}).

Definition say (msg : string) : M World unit := fun w =>
  (tt, {| geocoded_locations := geocoded_locations w;
          statements := statements w; requests := requests w;
          output := output w ++ [msg]; sleeps := sleeps w |}).

Definition time_sleep (d : Q) : M World unit := fun w =>
  (tt, {| geocoded_locations := geocoded_locations w;
          statements := statements w; requests := requests w;
          output := output w; sleeps := sleeps w ++ [d] |}).

(** *** The location query of a CSV row

    [data['Police Station'].fillna('') + ", " + data['District'].fillna('')
     + ", " + data['State/UT Name'].fillna('') + ", India"] *)

Definition fillna (cell : option string) : string :=
  match cell with Some s => s | None => "" end.

Definition location_query (r : Map9.CsvRow) : string :=
  fillna (Map9.Police_Station r) +:+ ", " +:+
  fillna (Map9.District r) +:+ ", " +:+
  fillna (Map9.State_UT_Name r) +:+ ", India".

Section Pipeline.

Variable remote : nat -> string -> http_reply.

(** [requests.get(url)] *)
Definition requests_get (q : string) : M World http_reply := fun w =>
  (remote (length (requests w)) q,
   {| geocoded_locations := geocoded_locations w;
      statements := statements w; requests := requests w ++ [q];
      output := output w; sleeps := sleeps w |}).

(** [geocode_location] of preprocessing.py *)
Definition geocode_location (location_query : string)
    : M World (option float * option float) :=
  let* (lat, lng) := get_cached_lat_long location_query in
  if is_not_None lat && is_not_None lng then ret (lat, lng)
  else
    let* response := requests_get location_query in
    match fetch_json response with
    | inr (p :: _) =>
        cache_lat_long location_query (p_lat p) (p_lng p) >>
        ret (p_lat p, p_lng p)
    | inr [] => ret (None, None)
    | inl _ =>
        say ("Error geocoding '" +:+ location_query +:+ "'") >>
        ret (None, None)
    end.

(** The loop of [preprocess_data] in preprocessing.py: the pairs it
    appends to [latitudes] and [longitudes]. *)
Fixpoint geocode_all (queries : list string)
    : M World (list (option float * option float)) :=
  match queries with
  | [] => ret []
  | query :: rest =>
      say ("Processing " +:+ query) >>
      let* r := geocode_location query in
      time_sleep RATE_LIMIT >>
      let* rs := geocode_all rest in
      ret (r :: rs)
  end.

Definition preprocess_data (data : list Map9.CsvRow)
    : M World (list (option float * option float)) :=
  geocode_all (map location_query data).

End Pipeline.

End Map10.

(** ** map11/preprocessing.py *)

Module Map11.

Definition RATE_LIMIT : Q := 3 # 2.
Definition MAX_PARALLEL_REQUESTS : nat := 5.
Definition RETRY_LIMIT : nat := 5.

(** The cache functions are those of map10, letter for letter. *)
Abbreviation World := Map10.World.
Definition get_cached_lat_long := Map10.get_cached_lat_long.
Definition cache_lat_long := Map10.cache_lat_long.

(** [RATE_LIMIT * (2 ** attempt)] *)
Definition wait_time (attempt : nat) : Q :=
  (RATE_LIMIT * inject_Z (2 ^ Z.of_nat attempt))%Q.

Section Retry.

Variable remote : nat -> string -> http_reply.

(** The body of [for attempt in range(retries)], over the attempts still
    to run. Within one call the [with semaphore:] block only brackets the
    request; what it does between workers is [Semaphore] below. *)
Fixpoint retry_loop (attempts : list nat) (location_query : string)
    : M World (option float * option float) :=
  match attempts with
  | [] => ret (None, None)
  | attempt :: rest =>
      let* (lat, lng) := get_cached_lat_long location_query in
      if is_not_None lat && is_not_None lng then ret (lat, lng)
      else
        let* response := Map10.requests_get remote location_query in
        match fetch_json response with
        | inr (p :: _) =>
            match p_lat p, p_lng p with
            | Some lat, Some lng =>
                cache_lat_long location_query (Some lat) (Some lng) >>
                ret (Some lat, Some lng)
            | _, _ =>
                (* [float(..)] raised; [float('nan')] does not *)
                Map10.say ("Unexpected error for '" +:+ location_query +:+ "'") >>
                retry_loop rest location_query
            end
        | inr [] => retry_loop rest location_query
        | inl (HTTPError status_code) =>
            if (status_code =? 429)%Z then
              Map10.say "Rate limit exceeded. Retrying..." >>
              Map10.time_sleep (wait_time attempt) >>
              retry_loop rest location_query
            else
              Map10.say ("Error geocoding '" +:+ location_query +:+ "'") >>
              retry_loop rest location_query
        | inl OtherError =>
            Map10.say ("Unexpected error for '" +:+ location_query +:+ "'") >>
            retry_loop rest location_query
        end
  end.

(** [geocode_location_with_retry] *)
Definition geocode_location_with_retry (location_query : string)
    (retries : nat) : M World (option float * option float) :=
  retry_loop (seq 0 retries) location_query.

End Retry.

(** *** [semaphore = threading.Semaphore(MAX_PARALLEL_REQUESTS)]

    What the workers of the thread pool do to the semaphore, as a log of
    events with their times: a worker enters the [with semaphore:] block
    and sends its request, or leaves the block. *)

Inductive event : Type :=
| Enter (worker : nat) (t : Q)
| Leave (worker : nat) (t : Q).

Definition event_time (e : event) : Q :=
  match e with Enter _ t | Leave _ t => t end.

Record Semaphore : Type := {
  inside : list nat;        (* workers inside the block *)
  now : Q;                  (* time of the last event *)
  sent : list (nat * Q)     (* requests sent: worker and time, oldest first *)
}.


(** One event; [None] when it cannot happen: time does not run backwards,
    [acquire] blocks while [MAX_PARALLEL_REQUESTS] workers are inside, and a
    worker is in one place at a time. *)
Definition step (s : Semaphore) (e : event) : option Semaphore :=
  if negb (Qle_bool (now s) (event_time e)) then None
  else match e with
       | Enter worker t =>
           if bool_decide (worker ∈ inside s) then None
           else if (MAX_PARALLEL_REQUESTS <=? length (inside s))%nat then None
           else Some {| inside := worker :: inside s; now := t;
                        sent := sent s ++ [(worker, t)] |}
       | Leave worker t =>
           if bool_decide (worker ∈ inside s)
           then Some {| inside := filter (fun x => x ≠ worker) (inside s);
                        now := t; sent := sent s |}
           else None
       end.


End Map11.

(** Consecutive times in a log are at least [interval] apart. *)
Fixpoint separated (interval : Q) (times : list Q) : Prop :=
  match times with
  | t1 :: ((t2 :: _) as rest) => (t1 + interval <= t2)%Q /\ separated interval rest
  | _ => True
  end.

(** The stamps the passages of the gate left in a log, and the requests
    with the times they left. *)
Definition stamps (log : list (Map9.step * Q)) : list Q :=
  omap (fun entry => match entry.1 with
                     | Map9.Pass _ => Some entry.2
                     | Map9.Send _ _ => None
                     end) log.

Definition sent (log : list (Map9.step * Q)) : list (string * Q) :=
  omap (fun entry => match entry.1 with
                     | Map9.Pass _ => None
                     | Map9.Send _ location_string => Some (location_string, entry.2)
                     end) log.

(** ** Binary64 arithmetic

    Python's [float]: the numbers are the rationals a binary64 holds, an
    operation returns the exact result rounded to the nearest of them,
    ties to even. Only the normal range is covered (no overflow, no
    subnormal numbers): coordinates and their sums stay far from both. *)

Module Float64.

(** [x] rounded to 53 significant bits. *)
Definition round (x : Q) : Q :=
  if Qeq_bool x 0 then 0%Q
  else
    let a := Qabs x in
    let e0 := (Z.log2 (Qnum a) - Z.log2 (Zpos (Qden a)))%Z in
    (* 2 ^ e <= a < 2 ^ (e + 1) *)
    let e := if Qle_bool (2 ^ e0) a then e0 else (e0 - 1)%Z in
    let ulp := (2 ^ (e - 52))%Q in
    let m := (a / ulp)%Q in
    let f := Qfloor m in
    let r := (m - inject_Z f)%Q in
    let n := if Qle_bool r (1 # 2)
             then if Qeq_bool r (1 # 2)
                  then if Z.even f then f else (f + 1)%Z
                  else f
             else (f + 1)%Z in
    let y := (inject_Z n * ulp)%Q in
    Qred (if Qle_bool 0 x then y else - y).

Definition add (x y : Q) : Q := round (x + y).
Definition div (x y : Q) : Q := round (x / y).

(** The float a decimal literal stands for. *)
Definition literal (x : Q) : Q := round x.

(** [Series.mean()] on a column of floats: the sum from left to right,
    divided by the count. (On an empty column pandas gives NaN; the loop
    never asks for that.) *)
Definition mean (l : list Q) : Q :=
  div (fold_left add l 0%Q) (inject_Z (Z.of_nat (length l))).

End Float64.

(** ** map13_final/code/feature_update_5.py *)

Module Map13.

(** A row of [crime_data]; a missing cell ([NaN], [pd.NA]) is [None]. *)
Record CrimeRow : Type := {
  State_UT_Name : option string;
  District : option string;
  Police_Station : option string;
  Latitude : option Q;
  Longitude : option Q
}.

(** [str(cell)]; a missing cell prints as [nan]. *)
Definition str (cell : option string) : string :=
  match cell with Some s => s | None => "nan" end.

(** A feature of the police-stations GeoJSON. A property that is missing
    is [None] (the subscript raises [KeyError]); [coordinates] is [None]
    when [geometry] or [coordinates] is missing or not a list; an element
    of the list is [None] when [float(..)] raises on it. *)
Record Feature : Type := {
  properties : option (option string * option string * option string);
      (* state, district, ps *)
  coordinates : option (list (option Q))
}.

Definition in_range (lo x hi : Q) : bool := Qle_bool lo x && Qle_bool x hi.

(** One pass of the first loop of [match_coordinates]: the entry the
    feature contributes, if it is not skipped. *)
Definition feature_entry (feature : Feature)
    : option ((string * string * string) * (Q * Q)) :=
  match properties feature, coordinates feature with
  | Some (state, district, ps), Some coordinates =>
      if (2 <=? length coordinates)%nat then
        match coordinates !! 1%nat, coordinates !! 0%nat with
        | Some (Some lat), Some (Some lon) =>
            if in_range (-90) lat 90 && in_range (-180) lon 180 then
              match state, district, ps with
              | Some state, Some district, Some ps =>
                  Some ((state, district, ps), (lat, lon))
              | _, _, _ => None
              end
            else None
        | _, _ => None
        end
      else None
  | _, _ => None
  end.

(** [police_station_coords] after the first loop. *)
Definition police_station_coords (features : list Feature)
    : gmap (string * string * string) (Q * Q) :=
  fold_left
    (fun d feature =>
       match feature_entry feature with
       | Some (key, value) => <[key := value]> d
       | None => d
       end)
    features ∅.

(** The second loop of [match_coordinates]: the columns start as [pd.NA]
    and are filled where the key is known. *)
Definition match_row (d : gmap (string * string * string) (Q * Q))
    (row : CrimeRow) : CrimeRow :=
  let key := (str (State_UT_Name row), str (District row),
              str (Police_Station row)) in
  match d !! key with
  | Some (lat, lon) =>
      {| State_UT_Name := State_UT_Name row; District := District row;
         Police_Station := Police_Station row;
         Latitude := Some lat; Longitude := Some lon |}
  | None =>
      {| State_UT_Name := State_UT_Name row; District := District row;
         Police_Station := Police_Station row;
         Latitude := None; Longitude := None |}
  end.

Definition match_coordinates (crime_data : list CrimeRow)
    (features : list Feature) : list CrimeRow :=
  map (match_row (police_station_coords features)) crime_data.

(** The list [unmatched_entries] the second loop builds: one line for
    each record whose key is not in [police_station_coords]. *)
Definition unmatched_entries (crime_data : list CrimeRow)
    (features : list Feature) : list string :=
  omap (fun row =>
          let state := str (State_UT_Name row) in
          let district := str (District row) in
          let police_station := str (Police_Station row) in
          match police_station_coords features
                  !! (state, district, police_station) with
          | Some _ => None
          | None =>
              Some ("Unmatched: " +:+ state +:+ " - " +:+ district +:+
                    " - " +:+ police_station)
          end) crime_data.

(** *** [approximate_missing_locations] *)

Definition isna {A} (cell : option A) : bool :=
  match cell with Some _ => false | None => true end.

(** [crime_data['col'] == s], row by row: a missing cell equals nothing. *)
Definition cell_eq (cell : option string) (s : string) : bool :=
  match cell with Some c => bool_decide (c = s) | None => false end.

(** [data[['Latitude', 'Longitude']].dropna()] *)
Definition dropna (data : list CrimeRow) : list (Q * Q) :=
  omap (fun r => match Latitude r, Longitude r with
                 | Some lat, Some lon => Some (lat, lon)
                 | _, _ => None
                 end) data.

(** [crime_data.at[index, 'Latitude'] = lat] and the same for
    [Longitude]. *)
Definition set_coordinates (crime_data : list CrimeRow) (index : nat)
    (lat lon : Q) : list CrimeRow :=
  match crime_data !! index with
  | Some r =>
      <[index := {| State_UT_Name := State_UT_Name r; District := District r;
                    Police_Station := Police_Station r;
                    Latitude := Some lat; Longitude := Some lon |}]> crime_data
  | None => crime_data
  end.

Definition district_coords (crime_data : list CrimeRow)
    (state district : string) : list (Q * Q) :=
  dropna (filter (fun r => cell_eq (State_UT_Name r) state &&
                           cell_eq (District r) district) crime_data).

Definition state_coords (crime_data : list CrimeRow) (state : string)
    : list (Q * Q) :=
  dropna (filter (fun r => cell_eq (State_UT_Name r) state) crime_data).

Section Approximation.

(** [Series.mean()] is pandas' business: it adds the values up and
    divides by their number, in floating point. What it returns for a
    list of numbers is the environment here; [Float64.mean] is what it
    returns on a column of Python floats, and the mean of the design
    document is [arithmetic_mean]. *)
Variable mean : list Q -> Q.

(** The body of the loop, for the row [row] that [iterrows] handed out at
    [index], on the frame as it is by then. *)
Definition approximate_row (crime_data : list CrimeRow) (index : nat)
    (row : CrimeRow) : list CrimeRow :=
  if isna (Latitude row) || isna (Longitude row) then
    let state := str (State_UT_Name row) in
    let district := str (District row) in
    let district_coords := district_coords crime_data state district in
    match district_coords with
    | _ :: _ =>
        set_coordinates crime_data index
          (mean (map fst district_coords)) (mean (map snd district_coords))
    | [] =>
        let state_coords := state_coords crime_data state in
        match state_coords with
        | _ :: _ =>
            set_coordinates crime_data index
              (mean (map fst state_coords)) (mean (map snd state_coords))
        | [] => crime_data
        end
    end
  else crime_data.

(** The loop over [crime_data.iterrows()]: the rows handed out are those
    of the frame as it was when the loop began; the frame itself is
    written in place. *)
Fixpoint approximate_from (index : nat) (rows : list CrimeRow)
    (crime_data : list CrimeRow) : list CrimeRow :=
  match rows with
  | [] => crime_data
  | row :: rest =>
      approximate_from (S index) rest (approximate_row crime_data index row)
  end.

(** [approximate_missing_locations]: all it touches is the frame it is
    given; whatever else the process holds ([W]) it hands back as it
    was. *)
Definition approximate_missing_locations {W} (crime_data : list CrimeRow)
    : M W (list CrimeRow) :=
  ret (approximate_from 0 crime_data crime_data).

End Approximation.

End Map13.

(** ** The canonical query of the design document

    Following the document's words: the non-empty fields, joined with
    [", "], and the country suffix. *)

Definition non_empty_fields (fields : list (option string)) : list string :=
  filter (fun s => s ≠ "") (omap id fields).

Definition canonical_query (fields : list (option string)) : string :=
  String.concat ", " (non_empty_fields fields ++ ["India"]).

(** ** The arithmetic mean of the design document *)

Definition Qsum (l : list Q) : Q := fold_right Qplus 0%Q l.

Definition arithmetic_mean (l : list Q) : Q :=
  (Qsum l / inject_Z (Z.of_nat (length l)))%Q.

(** ** Records of the frame, before and after the approximation *)

(** A record the exact matching left without coordinates. *)
Definition unresolved (row : Map13.CrimeRow) : Prop :=
  Map13.isna (Map13.Latitude row) || Map13.isna (Map13.Longitude row) = true.

(** Two records that differ at most in their coordinates. *)
Definition same_fields (r r' : Map13.CrimeRow) : Prop :=
  Map13.State_UT_Name r = Map13.State_UT_Name r' /\
  Map13.District r = Map13.District r' /\
  Map13.Police_Station r = Map13.Police_Station r'.

(** The frame as it is when the loop reaches the record at [i]: the
    records before it have been dealt with. *)
Definition frame_at (mean : list Q -> Q) (crime_data : list Map13.CrimeRow)
    (i : nat) : list Map13.CrimeRow :=
  Map13.approximate_from mean 0 (take i crime_data) crime_data.

(** No record before [i] of this state and district was without
    coordinates. *)
Definition first_unresolved (crime_data : list Map13.CrimeRow) (i : nat)
    (state district : string) : Prop :=
  forall j r,
    j < i -> crime_data !! j = Some r -> unresolved r ->
    Map13.str (Map13.State_UT_Name r) = state ->
    Map13.str (Map13.District r) = district -> False.

(** What the loop of the approximation keeps true, between the frame it
    began with and the frame as it is: a district that had coordinates has
    coordinates, with the same means. *)
Definition means_kept (crime_data current : list Map13.CrimeRow) : Prop :=
  forall state district,
    Map13.district_coords crime_data state district ≠ [] ->
    Map13.district_coords current state district ≠ [] /\
    (arithmetic_mean (map fst (Map13.district_coords current state district)) ==
     arithmetic_mean (map fst (Map13.district_coords crime_data state district)))%Q /\
    (arithmetic_mean (map snd (Map13.district_coords current state district)) ==
     arithmetic_mean (map snd (Map13.district_coords crime_data state district)))%Q.

(** ** How a request can fail *)

(** The rate-limit signal: HTTP 429. *)
Definition rate_limited (r : http_reply) : Prop :=
  fetch_json r = inl (HTTPError 429).

(** Any other transport error: no connection or timeout, an HTTP error
    that is not 429, a body that cannot be read. *)
Definition transport_error (r : http_reply) : Prop :=
  match fetch_json r with
  | inl (HTTPError status_code) => status_code ≠ 429%Z
  | inl OtherError => True
  | inr _ => False
  end.

(** ** The world of map11 after failed attempts *)

(** The world after a request that was not answered with coordinates:
    one [SELECT], one request, one message, and the wait if there was
    one. *)
Definition after_failure (q msg : string) (wait : list Q) (w : Map10.World)
    : Map10.World :=
  {| Map10.geocoded_locations := Map10.geocoded_locations w;
     Map10.statements := S (Map10.statements w);
     Map10.requests := Map10.requests w ++ [q];
     Map10.output := Map10.output w ++ [msg];
     Map10.sleeps := Map10.sleeps w ++ wait |}.

(** The world after [k] attempts in a row, from attempt [first] on, were
    answered with 429. *)
Definition after_rate_limits (q : string) (first k : nat) (w : Map10.World)
    : Map10.World :=
  {| Map10.geocoded_locations := Map10.geocoded_locations w;
     Map10.statements := Map10.statements w + k;
     Map10.requests := Map10.requests w ++ replicate k q;
     Map10.output :=
       Map10.output w ++ replicate k "Rate limit exceeded. Retrying...";
     Map10.sleeps := Map10.sleeps w ++ map Map11.wait_time (seq first k) |}.

(** ** What the design document asks of a cache entry *)

Definition in_valid_range (latitude longitude : Q) : Prop :=
  (-90 <= latitude /\ latitude <= 90)%Q /\ (-180 <= longitude /\ longitude <= 180)%Q.

(** [success] implies that both coordinates are there. *)
Definition coordinates_present (r : Map9.LocationRow) : Prop :=
  Map9.success r = true ->
  is_Some (Map9.latitude r) /\ is_Some (Map9.longitude r).

(** [success] implies that both coordinates are there and in range. *)
Definition coordinate_validity (r : Map9.LocationRow) : Prop :=
  Map9.success r = true ->
  exists latitude longitude,
    Map9.latitude r = Some latitude /\ Map9.longitude r = Some longitude /\
    in_valid_range latitude longitude.

(** The service never answers a pair with a NaN in it. *)
Definition answers_numbers (remote : nat -> string -> http_reply) : Prop :=
  forall n q code p rest latitude longitude,
    remote n q = Status code (Items (p :: rest)) ->
    p_lat p = Some latitude -> p_lng p = Some longitude ->
    latitude ≠ NaN /\ longitude ≠ NaN.

(** The service only ever answers with numbers in range. *)
Definition answers_in_range (remote : nat -> string -> http_reply) : Prop :=
  forall n q code p rest latitude longitude,
    remote n q = Status code (Items (p :: rest)) ->
    p_lat p = Some latitude -> p_lng p = Some longitude ->
    exists la lo,
      latitude = Num la /\ longitude = Num lo /\ in_valid_range la lo.

(** ** More about the frame *)

(** The mean of at most [n] numbers between [lo] and [hi] is between
    [lo] and [hi]. *)
Definition stays_within (mean : list Q -> Q) (lo hi : Q) (n : nat) : Prop :=
  forall l,
    l ≠ [] -> length l <= n ->
    Forall (fun x => lo <= x /\ x <= hi)%Q l ->
    (lo <= mean l /\ mean l <= hi)%Q.

(** Every record that has both coordinates has them in range. *)
Definition frame_in_range (crime_data : list Map13.CrimeRow) : Prop :=
  forall row latitude longitude,
    row ∈ crime_data ->
    Map13.Latitude row = Some latitude ->
    Map13.Longitude row = Some longitude ->
    in_valid_range latitude longitude.

(** What the loop of the approximation keeps true of the states: a state
    has coordinates in the frame as it is exactly when it had some in the
    frame the loop began with. *)
Definition states_kept (crime_data current : list Map13.CrimeRow) : Prop :=
  forall state,
    Map13.state_coords current state = [] <->
    Map13.state_coords crime_data state = [].

(** ** The cache and the request log *)

(** The requests of the log that were made for the hash [h]. *)
Definition requests_for (md5_hexdigest : string -> string) (h : string)
    (requests : list string) : nat :=
  length (filter (fun q => md5_hexdigest q = h) requests).

(** [attempts] counts the requests: a row holds the number of requests
    made for its hash, and a hash without a row has had none. *)
Definition attempts_counted (md5_hexdigest : string -> string)
    (w : Map9.World) : Prop :=
  forall h,
    match Map9.locations w !! h with
    | Some r =>
        Map9.attempts r =
          Some (Z.of_nat (requests_for md5_hexdigest h (Map9.requests w)))
    | None => requests_for md5_hexdigest h (Map9.requests w) = 0
    end.

(** ** A sequence of writes to the cache of map10 *)

(** [cache_lat_long] called for each write in turn. *)
Definition cache_all (writes : list (string * option float * option float))
    : M Map10.World unit :=
  for_each writes (fun write =>
    let '(query, latitude, longitude) := write in
    Map10.cache_lat_long query latitude longitude).

(** The pair of a write for [q] whose coordinates are both numbers. *)
Definition written_numbers (q : string)
    (write : string * option float * option float) : option (Q * Q) :=
  if bool_decide (write.1.1 = q) then
    match write.1.2, write.2 with
    | Some (Num la), Some (Num lo) => Some (la, lo)
    | _, _ => None
    end
  else None.

(** The first such pair in a sequence of writes. *)
Definition first_numbers (q : string)
    (writes : list (string * option float * option float)) : option (Q * Q) :=
  head (omap (written_numbers q) writes).

(** ** How a call of [geocode_location_with_retry] can end *)

Definition nothing_found (w w' : Map10.World) (q : string)
    (res : option float * option float) (tried : Prop) : Prop :=
  res = (None, None) /\
  Map10.geocoded_locations w' = Map10.geocoded_locations w /\
  (tried -> Map10.geocoded_locations w !! q = None).

Definition numbers_cached (w' : Map10.World) (q : string)
    (res : option float * option float) : Prop :=
  exists la lo,
    res = (Some (Num la), Some (Num lo)) /\
    Map10.geocoded_locations w' !! q = Some (la, lo).

Definition nan_returned (w w' : Map10.World) (q : string)
    (res : option float * option float) : Prop :=
  exists latitude longitude,
    res = (Some latitude, Some longitude) /\
    (latitude = NaN \/ longitude = NaN) /\
    Map10.geocoded_locations w' = Map10.geocoded_locations w /\
    Map10.geocoded_locations w !! q = None.

(** ** Seconds slept *)

Definition total_sleep (waits : list Q) : Q := fold_right Qplus 0%Q waits.

(** ** Sample data for the examples *)

Module Sample.

Definition offline : nat -> string -> http_reply := fun _ _ => ConnectionFailed.
Definition steady : nat -> Q := fun _ => 1 # 100.

Definition goa : string := "Goa, India".

Definition goa_row : Map9.LocationRow :=
  {| Map9.location_string := goa;
     Map9.latitude := Some (153 # 10); Map9.longitude := Some (741 # 10);
     Map9.attempts := Some 1%Z; Map9.last_attempt := Some 0%Q;
     Map9.success := true; Map9.timestamp := 0 |}.

Definition world9 (t : gmap string Map9.LocationRow) : Map9.World :=
  {| Map9.locations := t; Map9.requests := []; Map9.error_log := [];
     Map9.clock := 0; Map9.reads := 0;
     Map9.geocoder := Map9.HereGeocoder_init |}.

Definition world10 (t : gmap string (Q * Q)) : Map10.World :=
  {| Map10.geocoded_locations := t; Map10.statements := 0;
     Map10.requests := []; Map10.output := []; Map10.sleeps := [] |}.

Definition nowhere : string := "Nowhere, India".

(** A service that puts every place north of the pole. *)
Definition beyond_the_pole : nat -> string -> http_reply :=
  fun _ _ => Status 200 (Items [Position (Some (Num 91)) (Some (Num 0))]).

(** A service whose latitude is not a number: [json] reads the literal
    [NaN], [float] the string ['nan']. *)
Definition not_a_number : nat -> string -> http_reply :=
  fun _ _ => Status 200 (Items [Position (Some NaN) (Some (Num (741 # 10)))]).

(** A service that finds nothing. *)
Definition no_results : nat -> string -> http_reply :=
  fun _ _ => Status 200 (Items []).

(** A record whose police station is missing. *)
Definition pune_row : Map9.CsvRow :=
  {| Map9.State_UT_Name := Some "Maharashtra"; Map9.District := Some "Pune";
     Map9.Police_Station := None |}.

(** A record all of whose cells are empty. *)
Definition empty_row : Map9.CsvRow :=
  {| Map9.State_UT_Name := None; Map9.District := None;
     Map9.Police_Station := None |}.

(** The scenario of the design document: Colaba and Camp are matched,
    the unknown station of Mumbai is not. *)
Definition scenario : list Map13.CrimeRow :=
  [ {| Map13.State_UT_Name := Some "MH"; Map13.District := Some "Mumbai";
       Map13.Police_Station := Some "Colaba";
       Map13.Latitude := Some (189 # 10); Map13.Longitude := Some (728 # 10) |};
    {| Map13.State_UT_Name := Some "MH"; Map13.District := Some "Mumbai";
       Map13.Police_Station := Some "Unknown-Station";
       Map13.Latitude := None; Map13.Longitude := None |};
    {| Map13.State_UT_Name := Some "MH"; Map13.District := Some "Pune";
       Map13.Police_Station := Some "Camp";
       Map13.Latitude := Some (185 # 10); Map13.Longitude := Some (739 # 10) |} ].

(** A district with two stations that were matched, at the latitudes
    given, and two that were not. *)
Definition mumbai (latitude1 latitude2 : Q) : list Map13.CrimeRow :=
  [ {| Map13.State_UT_Name := Some "MH"; Map13.District := Some "Mumbai";
       Map13.Police_Station := Some "Colaba";
       Map13.Latitude := Some latitude1; Map13.Longitude := Some 72%Q |};
    {| Map13.State_UT_Name := Some "MH"; Map13.District := Some "Mumbai";
       Map13.Police_Station := Some "Bandra";
       Map13.Latitude := Some latitude2; Map13.Longitude := Some 73%Q |};
    {| Map13.State_UT_Name := Some "MH"; Map13.District := Some "Mumbai";
       Map13.Police_Station := Some "Unknown-1";
       Map13.Latitude := None; Map13.Longitude := None |};
    {| Map13.State_UT_Name := Some "MH"; Map13.District := Some "Mumbai";
       Map13.Police_Station := Some "Unknown-2";
       Map13.Latitude := None; Map13.Longitude := None |} ].

(** A row of the cache for a place that could not be geocoded. *)
Definition failed_row : Map9.LocationRow :=
  {| Map9.location_string := nowhere;
     Map9.latitude := None; Map9.longitude := None;
     Map9.attempts := Some 2%Z; Map9.last_attempt := Some 0%Q;
     Map9.success := false; Map9.timestamp := 0 |}.

(** Three features of the police-stations file for the same station: an
    old position, the position, and an entry whose latitude is off the
    globe. GeoJSON puts the longitude first. *)
Definition colaba_key : string * string * string := ("MH", "Mumbai", "Colaba").

Definition colaba_feature (longitude latitude : Q) : Map13.Feature :=
  {| Map13.properties := Some (Some "MH", Some "Mumbai", Some "Colaba");
     Map13.coordinates := Some [Some longitude; Some latitude] |}.

(** A service that is down for good. *)
Definition always_500 : nat -> string -> http_reply :=
  fun _ _ => Status 500 Malformed.

(** A service that always asks to slow down. *)
Definition always_429 : nat -> string -> http_reply :=
  fun _ _ => Status 429 Malformed.

(** A geocoder of map8 that times out every time. *)
Definition timing_out : nat -> string -> Map8.outcome :=
  fun _ _ => Map8.ServiceError "timed out".

Definition world8 : Map8.World :=
  {| Map8.calls := []; Map8.error_log := []; Map8.error_waits := [] |}.

(** Two workers of the pool: both pass the gate, then both send. *)
Definition two_workers : list Map9.step :=
  [Map9.Pass 0; Map9.Pass 1; Map9.Send 0 goa; Map9.Send 1 nowhere].

Definition warm9 : Map9.World :=
  world9 {[ Hashlib.md5_hexdigest goa := goa_row ]}.

Definition warm10 : Map10.World := world10 {[ goa := (153 # 10, 741 # 10) ]}.

End Sample.

(** * Properties *)

(** ** The digest, on known values *)

Example md5_empty : Hashlib.md5_hexdigest "" = "d41d8cd98f00b204e9800998ecf8427e".
Proof. vm_compute. reflexivity. Qed.
Example md5_abc : Hashlib.md5_hexdigest "abc" = "900150983cd24fb0d6963f7d28e17f72".
Proof. vm_compute. reflexivity. Qed.
Example md5_goa : Hashlib.md5_hexdigest "Goa, India" = "2f8f53c629bad576c44d5a0ef8a57dba".
Proof. vm_compute. reflexivity. Qed.
Example md5_two_blocks :
  Hashlib.md5_hexdigest
    "aaaaaaaaaaaaaaaaaaaaaaaaaaaaaaaaaaaaaaaaaaaaaaaaaaaaaaaaaaaaaaaaaaaaaa" =
  "0f5c6c4e740bfcc08c3c26ccb2673d46".
Proof. vm_compute. reflexivity. Qed.

(** ** The state monad *)

Lemma for_each_fixed {W A} (xs : list A) (body : A -> M W unit) (w : W) :
  (forall x, x ∈ xs -> body x w = (tt, w)) ->
  for_each xs body w = (tt, w).
Proof.
  induction xs as [|x xs IH]; intros H; cbn; [reflexivity|].
  unfold bind. rewrite (H x) by left.
  apply IH. intros y Hy. apply H. by right.
Qed.

(** ** map9: the cache and the pipeline *)

Section Map9_facts.

Variable remote : nat -> string -> http_reply.
Variable elapse : nat -> Q.
Variable md5_hexdigest : string -> string.

Local Abbreviation geocode := (Map9.geocode remote elapse).
Local Abbreviation process_location := (Map9.process_location remote elapse md5_hexdigest).
Local Abbreviation process_batch := (Map9.process_batch remote elapse md5_hexdigest).
Local Abbreviation get_location_hash := (Map9.get_location_hash md5_hexdigest).
Local Abbreviation get_coordinates := (Map9.get_coordinates md5_hexdigest).

Lemma geocode_locations q w :
  Map9.locations (exec (geocode q) w) = Map9.locations w.
Proof.
  unfold exec, Map9.geocode, Map9._rate_limit, bind; cbn.
  destruct (Map9.Qltb _ _); cbn; destruct (fetch_json _) as [e|[|p l]]; reflexivity.
Qed.

Lemma geocode_requests q w :
  Map9.requests (exec (geocode q) w) = Map9.requests w ++ [q].
Proof.
  unfold exec, Map9.geocode, Map9._rate_limit, bind; cbn.
  destruct (Map9.Qltb _ _); cbn; destruct (fetch_json _) as [e|[|p l]]; reflexivity.
Qed.

Lemma select_successful_Some h t r :
  t !! h = Some r -> Map9.success r = true ->
  Map9.select_successful h t = Some (Map9.latitude r, Map9.longitude r).
Proof. intros H1 H2. unfold Map9.select_successful. by rewrite H1, H2. Qed.

Lemma process_location_hit q w c :
  Map9.select_successful (get_location_hash q) (Map9.locations w) = Some c ->
  process_location q w = (true, w).
Proof.
  intros H. unfold Map9.process_location, bind, get. rewrite H. reflexivity.
Qed.

Lemma process_batch_cons q qs w :
  exec (process_batch (q :: qs)) w =
  exec (process_batch qs) (exec (process_location q) w).
Proof.
  unfold exec, Map9.process_batch; simpl for_each. unfold bind, ret.
  destruct (process_location q w) as [b w1]; reflexivity.
Qed.

End Map9_facts.

(** ** map10: the cache and the pipeline *)

Section Map10_facts.

Variable remote : nat -> string -> http_reply.

Local Abbreviation geocode_location := (Map10.geocode_location remote).
Local Abbreviation geocode_all := (Map10.geocode_all remote).

(** A hit costs one [SELECT] and nothing else. *)
Lemma geocode_location_hit q w la lo :
  Map10.geocoded_locations w !! q = Some (la, lo) ->
  geocode_location q w =
    ((Some (Num la), Some (Num lo)),
     {| Map10.geocoded_locations := Map10.geocoded_locations w;
        Map10.statements := S (Map10.statements w);
        Map10.requests := Map10.requests w;
        Map10.output := Map10.output w;
        Map10.sleeps := Map10.sleeps w |}).
Proof.
  intros H. unfold Map10.geocode_location, bind, Map10.get_cached_lat_long.
  rewrite H. reflexivity.
Qed.

Lemma geocode_all_cons_hit q qs w la lo :
  Map10.geocoded_locations w !! q = Some (la, lo) ->
  geocode_all (q :: qs) w =
    let (rs, w2) :=
      geocode_all qs
        {| Map10.geocoded_locations := Map10.geocoded_locations w;
           Map10.statements := S (Map10.statements w);
           Map10.requests := Map10.requests w;
           Map10.output := Map10.output w ++ ["Processing " +:+ q];
           Map10.sleeps := Map10.sleeps w ++ [Map10.RATE_LIMIT] |} in
    ((Some (Num la), Some (Num lo)) :: rs, w2).
Proof.
  intros H. simpl Map10.geocode_all.
  unfold bind, Map10.say, Map10.time_sleep, ret.
  erewrite geocode_location_hit by exact H. reflexivity.
Qed.

Lemma geocode_all_warm (cached : string -> Q * Q) qs : forall w,
  (forall q, q ∈ qs -> Map10.geocoded_locations w !! q = Some (cached q)) ->
  eval (geocode_all qs) w = map (fun q => (Some (Num (cached q).1), Some (Num (cached q).2))) qs /\
  Map10.requests (exec (geocode_all qs) w) = Map10.requests w /\
  Map10.geocoded_locations (exec (geocode_all qs) w) = Map10.geocoded_locations w.
Proof.
  induction qs as [|q qs IH]; intros w H; [done|].
  assert (Hq : Map10.geocoded_locations w !! q = Some (cached q)) by (apply H; left).
  rewrite (surjective_pairing (cached q)) in Hq.
  unfold eval, exec in *. rewrite (geocode_all_cons_hit _ _ _ _ _ Hq).
  match goal with |- context [geocode_all qs ?w1] =>
    destruct (IH w1) as (IH1 & IH2 & IH3); [intros q' Hq'; cbn; apply H; by right|];
    destruct (geocode_all qs w1) as [rs w2] end.
  cbn in *. by subst.
Qed.

End Map10_facts.

(** ** The warm cache *)

Section Warm_cache.

Variable remote : nat -> string -> http_reply.
Variable elapse : nat -> Q.
Variable md5_hexdigest : string -> string.

Local Abbreviation process_location := (Map9.process_location remote elapse md5_hexdigest).
Local Abbreviation process_batch := (Map9.process_batch remote elapse md5_hexdigest).
Local Abbreviation get_location_hash := (Map9.get_location_hash md5_hexdigest).
Local Abbreviation get_coordinates := (Map9.get_coordinates md5_hexdigest).

(** C1. When every query of the dataset has a successful entry in the
    cache, a run of the pipeline sends nothing to the geocoding service
    and the coordinates it yields are the cached ones. In map9
    [process_location] answers [True] and leaves the whole world (table,
    request log, clock) as it was, for one query and for a batch, and the
    entry is what [get_coordinates] reads back; in map10
    [geocode_location] returns the cached pair, and neither it nor the
    loop over the dataset adds to the request log or changes the table. *)
Theorem warm_cache_sends_no_request
    (qs : list string) (w9 : Map9.World) (w10 : Map10.World)
    (row : string -> Map9.LocationRow) (cached : string -> Q * Q) :
  (forall q, q ∈ qs ->
     Map9.locations w9 !! get_location_hash q = Some (row q) /\
     Map9.success (row q) = true) ->
  (forall q, q ∈ qs -> Map10.geocoded_locations w10 !! q = Some (cached q)) ->
  (forall q, q ∈ qs ->
     process_location q w9 = (true, w9) /\
     get_coordinates q (Some (Map9.locations w9)) =
       ((Map9.latitude (row q), Map9.longitude (row q)), [])) /\
  process_batch qs w9 = (tt, w9) /\
  (forall q, q ∈ qs ->
     eval (Map10.geocode_location remote q) w10 =
       (Some (Num (cached q).1), Some (Num (cached q).2)) /\
     Map10.requests (exec (Map10.geocode_location remote q) w10) =
       Map10.requests w10 /\
     Map10.geocoded_locations (exec (Map10.geocode_location remote q) w10) =
       Map10.geocoded_locations w10) /\
  eval (Map10.geocode_all remote qs) w10 =
    map (fun q => (Some (Num (cached q).1), Some (Num (cached q).2))) qs /\
  Map10.requests (exec (Map10.geocode_all remote qs) w10) = Map10.requests w10 /\
  Map10.geocoded_locations (exec (Map10.geocode_all remote qs) w10) =
    Map10.geocoded_locations w10.
Proof.
  intros H9 H10.
  assert (Hhit : forall q, q ∈ qs -> process_location q w9 = (true, w9)).
  { intros q Hq. destruct (H9 q Hq) as [Hr Hs].
    eapply process_location_hit, select_successful_Some; eauto. }
  split; [|split; [|split]].
  - intros q Hq. split; [by apply Hhit|].
    destruct (H9 q Hq) as [Hr Hs].
    unfold Map9.get_coordinates; cbn.
    by erewrite select_successful_Some by eauto.
  - unfold Map9.process_batch. apply for_each_fixed.
    intros q Hq. unfold bind. by rewrite Hhit.
  - intros q Hq. specialize (H10 q Hq).
    destruct (cached q) as [la lo].
    unfold eval, exec. by erewrite geocode_location_hit by eauto.
  - by apply geocode_all_warm.
Qed.

End Warm_cache.

Lemma warm_cache_sends_no_request_witness :
  Map9.process_batch Sample.offline Sample.steady Hashlib.md5_hexdigest
    [Sample.goa] Sample.warm9 = (tt, Sample.warm9) /\
  eval (Map10.geocode_all Sample.offline [Sample.goa]) Sample.warm10 =
    [(Some (Num (153 # 10)), Some (Num (741 # 10)))].
Proof.
  destruct (warm_cache_sends_no_request Sample.offline Sample.steady
              Hashlib.md5_hexdigest [Sample.goa] Sample.warm9 Sample.warm10
              (fun _ => Sample.goa_row) (fun _ => (153 # 10, 741 # 10)))
    as (_ & H9 & _ & H10 & _).
  - intros q Hq. apply list_elem_of_singleton in Hq. subst q.
    split; [vm_compute; reflexivity | reflexivity].
  - intros q Hq. apply list_elem_of_singleton in Hq. subst q.
    vm_compute; reflexivity.
  - split; [exact H9 | exact H10].
Defined.

(** ** What a cache entry holds *)

Section Cache_entries.

Variable remote : nat -> string -> http_reply.
Variable elapse : nat -> Q.
Variable md5_hexdigest : string -> string.

Local Abbreviation geocode := (Map9.geocode remote elapse).
Local Abbreviation process_location := (Map9.process_location remote elapse md5_hexdigest).
Local Abbreviation process_batch := (Map9.process_batch remote elapse md5_hexdigest).
Local Abbreviation get_location_hash := (Map9.get_location_hash md5_hexdigest).

(** What [geocode] returns, read off the answer to its one request. *)
Lemma geocode_result q w :
  eval (geocode q) w =
  match fetch_json (remote (length (Map9.requests w)) q) with
  | inr (p :: _) => (p_lat p, p_lng p)
  | _ => (None, None)
  end.
Proof.
  unfold eval, Map9.geocode, Map9._rate_limit, bind; cbn.
  destruct (Map9.Qltb _ _); cbn; destruct (fetch_json _) as [e|[|p l]]; reflexivity.
Qed.

(** The row a miss writes: what [geocode] returned, as sqlite stores
    it. *)
Lemma process_location_row q w :
  Map9.select_successful (get_location_hash q) (Map9.locations w) = None ->
  exists r,
    Map9.locations (exec (process_location q) w) =
      <[get_location_hash q := r]> (Map9.locations w) /\
    Map9.location_string r = q /\
    Map9.latitude r = bind_real (eval (geocode q) w).1 /\
    Map9.longitude r = bind_real (eval (geocode q) w).2 /\
    Map9.success r =
      is_not_None (eval (geocode q) w).1 && is_not_None (eval (geocode q) w).2 /\
    Map9.attempts r =
      Some (Map9.next_attempts (get_location_hash q) (Map9.locations w)) /\
    Map9.last_attempt r = Some (Map9.clock (exec (process_location q) w)) /\
    eval (process_location q) w = Map9.success r.
Proof.
  intros H.
  unfold eval, exec, Map9.process_location, bind, get. rewrite H.
  pose proof (geocode_locations remote elapse q w) as Hl. unfold exec in Hl.
  destruct (geocode q w) as [[lat lon] w1]; cbn in *.
  rewrite Hl. eexists. split; [reflexivity|]. cbn. auto 10.
Qed.

(** A property of rows that every written row has holds of the table
    after [process_location] if it held before. *)
Lemma process_location_preserves (P : Map9.LocationRow -> Prop) q w :
  (forall r,
     Map9.latitude r = bind_real (eval (geocode q) w).1 ->
     Map9.longitude r = bind_real (eval (geocode q) w).2 ->
     Map9.success r =
       is_not_None (eval (geocode q) w).1 && is_not_None (eval (geocode q) w).2 ->
     P r) ->
  map_Forall (fun _ => P) (Map9.locations w) ->
  map_Forall (fun _ => P) (Map9.locations (exec (process_location q) w)).
Proof.
  intros Hnew Hold.
  destruct (Map9.select_successful (get_location_hash q) (Map9.locations w))
    as [c|] eqn:Hsel.
  - unfold exec. by erewrite process_location_hit by eauto.
  - destruct (process_location_row q w Hsel) as (r & -> & _ & Hla & Hlo & Hs & _).
    apply map_Forall_insert_2; auto.
Qed.

(** The pair [geocode] returns is a pair the service answered. *)
Lemma geocode_answer q w latitude longitude :
  eval (geocode q) w = (Some latitude, Some longitude) ->
  exists code p rest,
    remote (length (Map9.requests w)) q = Status code (Items (p :: rest)) /\
    p_lat p = Some latitude /\ p_lng p = Some longitude.
Proof.
  rewrite geocode_result.
  destruct (remote (length (Map9.requests w)) q) as [|code [|[|p rest]]] eqn:Hr;
    cbn; try destruct (raises_for_status code); try discriminate.
  intros [= Hla Hlo]. eauto 6.
Qed.

Lemma written_row_present q w r :
  answers_numbers remote ->
  Map9.latitude r = bind_real (eval (geocode q) w).1 ->
  Map9.longitude r = bind_real (eval (geocode q) w).2 ->
  Map9.success r =
    is_not_None (eval (geocode q) w).1 && is_not_None (eval (geocode q) w).2 ->
  coordinates_present r.
Proof.
  intros Hrem Hla Hlo Hs Ht. rewrite Ht in Hs.
  destruct (eval (geocode q) w) as [[la|] [lo|]] eqn:He; try discriminate.
  destruct (geocode_answer q w la lo He) as (code & p & rest & Hr & Hp1 & Hp2).
  destruct (Hrem _ _ _ _ _ _ _ Hr Hp1 Hp2) as [Hn1 Hn2].
  cbn in Hla, Hlo. rewrite Hla, Hlo.
  destruct la, lo; first [done | split; eexists; reflexivity].
Qed.

Lemma written_row_valid q w r :
  answers_in_range remote ->
  Map9.latitude r = bind_real (eval (geocode q) w).1 ->
  Map9.longitude r = bind_real (eval (geocode q) w).2 ->
  Map9.success r =
    is_not_None (eval (geocode q) w).1 && is_not_None (eval (geocode q) w).2 ->
  coordinate_validity r.
Proof.
  intros Hrem Hla Hlo Hs Ht. rewrite Ht in Hs.
  destruct (eval (geocode q) w) as [[la|] [lo|]] eqn:He; try discriminate.
  destruct (geocode_answer q w la lo He) as (code & p & rest & Hr & Hp1 & Hp2).
  destruct (Hrem _ _ _ _ _ _ _ Hr Hp1 Hp2) as (a & b & -> & -> & Hv).
  exists a, b. cbn in Hla, Hlo. done.
Qed.

Lemma process_batch_preserves (P : Map9.LocationRow -> Prop) qs :
  (forall q w r,
     Map9.latitude r = bind_real (eval (geocode q) w).1 ->
     Map9.longitude r = bind_real (eval (geocode q) w).2 ->
     Map9.success r =
       is_not_None (eval (geocode q) w).1 && is_not_None (eval (geocode q) w).2 ->
     P r) ->
  forall w,
  map_Forall (fun _ => P) (Map9.locations w) ->
  map_Forall (fun _ => P) (Map9.locations (exec (process_batch qs) w)).
Proof.
  intros Hnew. induction qs as [|q qs IH]; intros w H; [exact H|].
  rewrite process_batch_cons. apply IH.
  apply process_location_preserves; eauto.
Qed.

End Cache_entries.

(** ** map13: the range check of [match_coordinates] *)

Lemma in_range_spec lo x hi :
  Map13.in_range lo x hi = true -> (lo <= x /\ x <= hi)%Q.
Proof.
  unfold Map13.in_range. intros H. apply andb_prop in H. destruct H as [H1 H2].
  by rewrite <- !Qle_bool_iff.
Qed.

Lemma feature_entry_in_range feature key latitude longitude :
  Map13.feature_entry feature = Some (key, (latitude, longitude)) ->
  in_valid_range latitude longitude.
Proof.
  unfold Map13.feature_entry. intros H.
  destruct (Map13.properties feature) as [[[state district] ps]|]; [|done].
  destruct (Map13.coordinates feature) as [cs|]; [|done].
  destruct (2 <=? length cs)%nat; [|done].
  destruct (cs !! 1%nat) as [[lat|]|]; try done.
  destruct (cs !! 0%nat) as [[lon|]|]; try done.
  destruct (Map13.in_range (-90) lat 90 && Map13.in_range (-180) lon 180)
    eqn:Hr; [|done].
  destruct state, district, ps; try done.
  injection H as _ <- <-.
  apply andb_prop in Hr. destruct Hr as [H1 H2].
  split; by apply in_range_spec.
Qed.

Lemma police_station_coords_in_range features key latitude longitude :
  Map13.police_station_coords features !! key = Some (latitude, longitude) ->
  in_valid_range latitude longitude.
Proof.
  unfold Map13.police_station_coords.
  assert (Hgen : forall d : gmap (string * string * string) (Q * Q),
    map_Forall (fun _ v => in_valid_range v.1 v.2) d ->
    map_Forall (fun _ v => in_valid_range v.1 v.2)
      (fold_left
         (fun d feature =>
            match Map13.feature_entry feature with
            | Some (key, value) => <[key := value]> d
            | None => d
            end) features d)).
  { induction features as [|f fs IH]; intros d Hd; [exact Hd|].
    cbn. apply IH.
    destruct (Map13.feature_entry f) as [[k [la lo]]|] eqn:Hf; [|exact Hd].
    apply map_Forall_insert_2; [|exact Hd].
    eapply feature_entry_in_range; eauto. }
  intros H. exact (Hgen ∅ (map_Forall_empty _) key _ H).
Qed.

(** The coordinates [match_coordinates] attaches to a record are in range. *)
Lemma match_coordinates_in_range crime_data features row latitude longitude :
  row ∈ Map13.match_coordinates crime_data features ->
  Map13.Latitude row = Some latitude -> Map13.Longitude row = Some longitude ->
  in_valid_range latitude longitude.
Proof.
  unfold Map13.match_coordinates. intros Hin Hla Hlo.
  apply list_elem_of_fmap in Hin. destruct Hin as (r0 & -> & _).
  unfold Map13.match_row in *.
  destruct (Map13.police_station_coords features !! _) as [[la lo]|] eqn:Hd;
    cbn in *; [|discriminate].
  injection Hla as <-. injection Hlo as <-.
  eapply police_station_coords_in_range; eauto.
Qed.

Section Coordinate_validity.

Variable remote : nat -> string -> http_reply.
Variable elapse : nat -> Q.
Variable md5_hexdigest : string -> string.

Local Abbreviation geocode := (Map9.geocode remote elapse).
Local Abbreviation process_location := (Map9.process_location remote elapse md5_hexdigest).
Local Abbreviation process_batch := (Map9.process_batch remote elapse md5_hexdigest).
Local Abbreviation get_location_hash := (Map9.get_location_hash md5_hexdigest).

(** C3, as the code has it. [process_location] writes [success = 1]
    exactly when the latitude and the longitude that [geocode] returned
    are both not [None], and the row holds what was returned, a NaN as
    [NULL]; it applies no check of its own. So, over any run, [success]
    implies that both coordinates are present as long as the service
    never answers NaN, and that they are within [-90, 90] x [-180, 180] as
    long as its answers are. The range check of the repository is the one
    in [match_coordinates]: every pair it attaches to a crime record is in
    range. *)
Theorem success_implies_coordinates (qs : list string) (w : Map9.World) :
  (forall q,
     Map9.select_successful (get_location_hash q) (Map9.locations w) = None ->
     exists r,
       Map9.locations (exec (process_location q) w) !! get_location_hash q
         = Some r /\
       (Map9.success r = true <->
        exists latitude longitude,
          eval (geocode q) w = (Some latitude, Some longitude)) /\
       Map9.latitude r = bind_real (eval (geocode q) w).1 /\
       Map9.longitude r = bind_real (eval (geocode q) w).2) /\
  (answers_numbers remote ->
   map_Forall (fun _ => coordinates_present) (Map9.locations w) ->
   map_Forall (fun _ => coordinates_present)
     (Map9.locations (exec (process_batch qs) w))) /\
  (answers_in_range remote ->
   map_Forall (fun _ => coordinate_validity) (Map9.locations w) ->
   map_Forall (fun _ => coordinate_validity)
     (Map9.locations (exec (process_batch qs) w))) /\
  (forall crime_data features row latitude longitude,
     row ∈ Map13.match_coordinates crime_data features ->
     Map13.Latitude row = Some latitude ->
     Map13.Longitude row = Some longitude ->
     in_valid_range latitude longitude).
Proof.
  split; [|split; [|split]].
  - intros q Hsel.
    destruct (process_location_row remote elapse md5_hexdigest q w Hsel)
      as (r & Hl & _ & Hla & Hlo & Hs & _).
    exists r. rewrite Hl, lookup_insert_eq. split; [done|].
    split; [|done]. rewrite Hs.
    destruct (eval (geocode q) w) as [[la|] [lo|]]; cbn; split;
      try discriminate; eauto.
    all: intros (a & b & [=]).
  - intros Hrem Hp. apply process_batch_preserves; [|exact Hp].
    intros q w' r Hla Hlo Hs. eapply written_row_present; eauto.
  - intros Hrem Hv. apply process_batch_preserves; [|exact Hv].
    intros q w' r Hla Hlo Hs. eapply written_row_valid; eauto.
  - apply match_coordinates_in_range.
Qed.

End Coordinate_validity.

(** C3, as stated, fails on the cache: an answer of the service with
    latitude 91 is stored under [success = 1]. *)
Lemma out_of_range_answer_is_cached :
  ~ map_Forall (fun _ => coordinate_validity)
      (Map9.locations
         (exec (Map9.process_location Sample.beyond_the_pole Sample.steady
                  Hashlib.md5_hexdigest Sample.nowhere)
               (Sample.world9 ∅))).
Proof.
  intros H.
  assert (Hl : exists r,
    Map9.locations
      (exec (Map9.process_location Sample.beyond_the_pole Sample.steady
               Hashlib.md5_hexdigest Sample.nowhere) (Sample.world9 ∅))
      !! Hashlib.md5_hexdigest Sample.nowhere = Some r /\
    Map9.success r = true /\ Map9.latitude r = Some 91%Q).
  { eexists. split; [vm_compute; reflexivity|]. split; reflexivity. }
  destruct Hl as (r & Hl & Hs & Hla).
  destruct (H _ _ Hl Hs) as (la & lo & Hla' & _ & [[_ Hle] _]).
  rewrite Hla in Hla'. injection Hla' as <-.
  vm_compute in Hle. by apply Hle.
Qed.

(** And the coordinates need not even be there: a latitude that is NaN
    is not [None], so the row is written with [success = 1] and a [NULL]
    latitude. *)
Example nan_answer_is_stored_as_null :
  exists r,
    Map9.locations
      (exec (Map9.process_location Sample.not_a_number Sample.steady
               Hashlib.md5_hexdigest Sample.nowhere) (Sample.world9 ∅))
      !! Hashlib.md5_hexdigest Sample.nowhere = Some r /\
    Map9.success r = true /\
    Map9.latitude r = None /\ Map9.longitude r = Some (741 # 10) /\
    ~ coordinates_present r.
Proof.
  eexists. split; [vm_compute; reflexivity|].
  split; [reflexivity|]. split; [reflexivity|]. split; [reflexivity|].
  intros H. destruct (H eq_refl) as [[x Hx] _]. discriminate Hx.
Qed.

(** On answers that are numbers in range the invariant of the design
    document holds through a run. *)
Example in_range_answers_stay_valid :
  map_Forall (fun _ => coordinate_validity)
    (Map9.locations
       (exec (Map9.process_batch Sample.no_results Sample.steady
                Hashlib.md5_hexdigest [Sample.goa; Sample.nowhere])
             Sample.warm9)).
Proof.
  destruct (success_implies_coordinates Sample.no_results Sample.steady
              Hashlib.md5_hexdigest [Sample.goa; Sample.nowhere] Sample.warm9)
    as (_ & _ & H & _).
  apply H.
  - intros n q code p rest la lo Hr. unfold Sample.no_results in Hr.
    discriminate Hr.
  - unfold Sample.warm9, Sample.world9; simpl.
    apply map_Forall_singleton. intros _. simpl.
    exists (153 # 10)%Q, (741 # 10)%Q. split; [done|]. split; [done|].
    unfold in_valid_range. split; split; vm_compute; discriminate.
Qed.

(** ** Writing to the cache *)

Section Upsert.

Variable remote : nat -> string -> http_reply.
Variable elapse : nat -> Q.
Variable md5_hexdigest : string -> string.

Local Abbreviation geocode := (Map9.geocode remote elapse).
Local Abbreviation process_location := (Map9.process_location remote elapse md5_hexdigest).
Local Abbreviation get_location_hash := (Map9.get_location_hash md5_hexdigest).
Local Abbreviation geocode_location := (Map10.geocode_location remote).

(** What [geocode_location] of map10 does to its table: a result whose
    coordinates are both numbers is inserted under a query that has no
    row, and nothing else ever changes. *)
Lemma geocode_location_table q w :
  Map10.geocoded_locations (exec (geocode_location q) w) =
  match Map10.geocoded_locations w !! q, eval (geocode_location q) w with
  | None, (Some (Num la), Some (Num lo)) =>
      <[q := (la, lo)]> (Map10.geocoded_locations w)
  | _, _ => Map10.geocoded_locations w
  end.
Proof.
  unfold exec, eval, Map10.geocode_location, bind, Map10.get_cached_lat_long.
  destruct (Map10.geocoded_locations w !! q) as [[la lo]|] eqn:Hq; cbn; [done|].
  unfold Map10.requests_get, Map10.cache_lat_long, Map10.say, ret; cbn.
  destruct (fetch_json _) as [e|[|p l]]; cbn; try done.
  rewrite Hq. by destruct (p_lat p) as [[?|]|], (p_lng p) as [[?|]|].
Qed.

(** C7, as the code has it. In map9, [process_location] on a query
    without a successful entry writes the row under the query's hash: with
    [attempts = 1] when there was none, with the old [attempts] plus one
    otherwise, and with [last_attempt], the coordinates (a NaN as [NULL])
    and [success] of this attempt, [success] being 1 exactly when both
    returned values are not [None], so that a failed attempt leaves a row
    with [success = 0]; no other row changes. In map10 the cache has no
    [attempts] and no [success]: [cache_lat_long] inserts a row only when
    both coordinates are numbers and the query has no row, and changes
    nothing otherwise; [geocode_location] on a query without a row reaches
    it only with an answer of the service, so a failed attempt leaves the
    table as it was. *)
Theorem attempt_is_upserted (q : string) (w9 : Map9.World) (w10 : Map10.World) :
  Map9.select_successful (get_location_hash q) (Map9.locations w9) = None ->
  Map10.geocoded_locations w10 !! q = None ->
  (exists r,
     Map9.locations (exec (process_location q) w9) !! get_location_hash q = Some r /\
     Map9.location_string r = q /\
     Map9.latitude r = bind_real (eval (geocode q) w9).1 /\
     Map9.longitude r = bind_real (eval (geocode q) w9).2 /\
     Map9.success r =
       is_not_None (eval (geocode q) w9).1 && is_not_None (eval (geocode q) w9).2 /\
     eval (process_location q) w9 = Map9.success r /\
     Map9.last_attempt r = Some (Map9.clock (exec (process_location q) w9)) /\
     (Map9.locations w9 !! get_location_hash q = None ->
      Map9.attempts r = Some 1%Z) /\
     (forall old n,
        Map9.locations w9 !! get_location_hash q = Some old ->
        Map9.attempts old = Some n -> Map9.attempts r = Some (n + 1)%Z)) /\
  (forall h, h ≠ get_location_hash q ->
     Map9.locations (exec (process_location q) w9) !! h = Map9.locations w9 !! h) /\
  (forall w query latitude longitude,
     Map10.geocoded_locations (exec (Map10.cache_lat_long query latitude longitude) w) =
       match Map10.geocoded_locations w !! query, latitude, longitude with
       | None, Some (Num la), Some (Num lo) =>
           <[query := (la, lo)]> (Map10.geocoded_locations w)
       | _, _, _ => Map10.geocoded_locations w
       end) /\
  Map10.geocoded_locations (exec (geocode_location q) w10) =
    match eval (geocode_location q) w10 with
    | (Some (Num la), Some (Num lo)) =>
        <[q := (la, lo)]> (Map10.geocoded_locations w10)
    | _ => Map10.geocoded_locations w10
    end.
Proof.
  intros H9 H10.
  destruct (process_location_row remote elapse md5_hexdigest q w9 H9)
    as (r & Hl & Hq & Hla & Hlo & Hs & Ha & Ht & He).
  split; [|split; [|split]].
  - exists r. rewrite Hl, lookup_insert_eq.
    repeat split; auto.
    + intros Hn. rewrite Ha. unfold Map9.next_attempts. by rewrite Hn.
    + intros old n Ho Hn. rewrite Ha. unfold Map9.next_attempts.
      by rewrite Ho, Hn.
  - intros h Hh. rewrite Hl. by apply lookup_insert_ne.
  - intros w query latitude longitude.
    unfold exec, Map10.cache_lat_long; cbn.
    by destruct (Map10.geocoded_locations w !! query),
      latitude as [[?|]|], longitude as [[?|]|].
  - rewrite geocode_location_table, H10. reflexivity.
Qed.

End Upsert.

Lemma attempt_is_upserted_witness :
  exists r,
    Map9.locations
      (exec (Map9.process_location Sample.no_results Sample.steady
               Hashlib.md5_hexdigest Sample.nowhere) Sample.warm9)
      !! Map9.get_location_hash Hashlib.md5_hexdigest Sample.nowhere = Some r /\
    Map9.success r = false /\ Map9.attempts r = Some 1%Z.
Proof.
  destruct (attempt_is_upserted Sample.no_results Sample.steady
              Hashlib.md5_hexdigest Sample.nowhere Sample.warm9 Sample.warm10)
    as [(r & Hl & _ & _ & _ & Hs & _ & _ & Ha & _) _].
  - vm_compute. reflexivity.
  - vm_compute. reflexivity.
  - exists r. split; [exact Hl|]. split.
    + rewrite Hs. rewrite geocode_result. reflexivity.
    + apply Ha. vm_compute. reflexivity.
Defined.

(** C7, as stated, fails on map10: a failed attempt leaves no entry. *)
Lemma failed_attempt_left_absent :
  eval (Map10.geocode_location Sample.no_results Sample.nowhere)
    (Sample.world10 ∅) = (None, None) /\
  Map10.geocoded_locations
    (exec (Map10.geocode_location Sample.no_results Sample.nowhere)
       (Sample.world10 ∅)) !! Sample.nowhere = None.
Proof. split; vm_compute; reflexivity. Qed.

(** ** map11: retrying *)

Section Retry_facts.

Variable remote : nat -> string -> http_reply.

Local Abbreviation retry_loop := (Map11.retry_loop remote).
Local Abbreviation geocode_location_with_retry :=
  (Map11.geocode_location_with_retry remote).

(** An attempt answered with 429: wait [wait_time attempt], go on. *)
Lemma retry_loop_rate_limited attempt rest q w :
  Map10.geocoded_locations w !! q = None ->
  rate_limited (remote (length (Map10.requests w)) q) ->
  retry_loop (attempt :: rest) q w =
  retry_loop rest q
    (after_failure q "Rate limit exceeded. Retrying..."
       [Map11.wait_time attempt] w).
Proof.
  intros Hq Hr. unfold rate_limited in Hr.
  simpl Map11.retry_loop.
  unfold bind, Map11.get_cached_lat_long, Map10.get_cached_lat_long,
    Map10.requests_get.
  rewrite Hq; cbn. rewrite Hr; cbn. reflexivity.
Qed.

(** An attempt that ends in another error: go on at once. *)
Lemma retry_loop_transport_error attempt rest q w :
  Map10.geocoded_locations w !! q = None ->
  transport_error (remote (length (Map10.requests w)) q) ->
  exists msg,
    retry_loop (attempt :: rest) q w =
    retry_loop rest q (after_failure q msg [] w).
Proof.
  intros Hq Hr. unfold transport_error in Hr.
  simpl Map11.retry_loop.
  unfold bind, Map11.get_cached_lat_long, Map10.get_cached_lat_long,
    Map10.requests_get.
  rewrite Hq; cbn.
  destruct (fetch_json _) as [[c|]|l]; [| |done].
  - apply Z.eqb_neq in Hr. rewrite Hr. cbn.
    unfold after_failure. rewrite app_nil_r. eauto.
  - cbn. unfold after_failure. rewrite app_nil_r. eauto.
Qed.

(** An attempt answered with coordinates: cache them, return them. *)
Lemma retry_loop_found attempt rest q w code la lo others :
  Map10.geocoded_locations w !! q = None ->
  remote (length (Map10.requests w)) q =
    Status code (Items (Position (Some (Num la)) (Some (Num lo)) :: others)) ->
  raises_for_status code = false ->
  retry_loop (attempt :: rest) q w =
  ((Some (Num la), Some (Num lo)),
   {| Map10.geocoded_locations := <[q := (la, lo)]> (Map10.geocoded_locations w);
      Map10.statements := S (S (Map10.statements w));
      Map10.requests := Map10.requests w ++ [q];
      Map10.output := Map10.output w;
      Map10.sleeps := Map10.sleeps w |}).
Proof.
  intros Hq Hr Hc.
  simpl Map11.retry_loop.
  unfold bind, Map11.get_cached_lat_long, Map10.get_cached_lat_long,
    Map10.requests_get.
  rewrite Hq; cbn. rewrite Hr; cbn. rewrite Hc; cbn.
  unfold Map11.cache_lat_long, Map10.cache_lat_long; cbn. rewrite Hq.
  reflexivity.
Qed.

Lemma retry_loop_rate_limited_prefix q k : forall first rest w,
  Map10.geocoded_locations w !! q = None ->
  (forall i, i < k ->
     rate_limited (remote (length (Map10.requests w) + i) q)) ->
  retry_loop (seq first k ++ rest) q w =
  retry_loop rest q (after_rate_limits q first k w).
Proof.
  induction k as [|k IH]; intros first rest w Hq H.
  - cbn. f_equal. unfold after_rate_limits; destruct w; cbn.
    by rewrite Nat.add_0_r, !app_nil_r.
  - simpl seq. simpl app.
    rewrite retry_loop_rate_limited;
      [|exact Hq|rewrite <- (Nat.add_0_r (length _)); apply H; lia].
    rewrite IH; [|exact Hq|].
    + f_equal. unfold after_rate_limits, after_failure; cbn.
      f_equal; [lia| | |]; by rewrite <- app_assoc.
    + intros i Hi. cbn. rewrite length_app; cbn.
      replace (length (Map10.requests w) + 1 + i)
        with (length (Map10.requests w) + S i) by lia.
      apply H. lia.
Qed.

(** The world after [k] attempts in a row ended in other errors. *)
Lemma retry_loop_transport_errors q attempts : forall w,
  Map10.geocoded_locations w !! q = None ->
  (forall i, i < length attempts ->
     transport_error (remote (length (Map10.requests w) + i) q)) ->
  exists w',
    retry_loop attempts q w = ((None, None), w') /\
    Map10.requests w' = Map10.requests w ++ replicate (length attempts) q /\
    Map10.sleeps w' = Map10.sleeps w /\
    Map10.geocoded_locations w' = Map10.geocoded_locations w /\
    length (Map10.output w') = length (Map10.output w) + length attempts.
Proof.
  induction attempts as [|a rest IH]; intros w Hq H.
  - exists w. cbn. rewrite app_nil_r. repeat split; auto.
  - destruct (retry_loop_transport_error a rest q w Hq) as [msg Hstep].
    { rewrite <- (Nat.add_0_r (length _)). apply H. cbn; lia. }
    destruct (IH (after_failure q msg [] w)) as (w' & Hrun & Hr & Hs & Ht & Ho).
    { exact Hq. }
    { intros i Hi. cbn. rewrite length_app; cbn.
      replace (length (Map10.requests w) + 1 + i)
        with (length (Map10.requests w) + S i) by lia.
      apply H. cbn; lia. }
    exists w'. rewrite Hstep, Hrun. cbn in *.
    rewrite Hr, Hs, Ht, Ho, app_nil_r, length_app. cbn.
    repeat split; auto; [by rewrite <- app_assoc | lia].
Qed.

(** A call only ever adds to the request log, and with attempts to run
    and nothing cached the first thing it adds is the query. *)
Lemma retry_loop_sends q attempts : forall w,
  exists extra,
    Map10.requests (exec (retry_loop attempts q) w) = Map10.requests w ++ extra /\
    (Map10.geocoded_locations w !! q = None -> attempts ≠ [] ->
     exists extra', extra = q :: extra').
Proof.
  induction attempts as [|a rest IH]; intros w.
  - exists []. cbn. rewrite app_nil_r. split; [done|]. by intros _ [].
  - unfold exec. simpl Map11.retry_loop.
    unfold bind, Map11.get_cached_lat_long, Map10.get_cached_lat_long.
    destruct (Map10.geocoded_locations w !! q) as [[la lo]|] eqn:Hq; cbn.
    { exists []. rewrite app_nil_r. split; [done|]. intros; discriminate. }
    assert (Hgo : forall w1,
      Map10.requests w1 = Map10.requests w ++ [q] ->
      exists extra,
        Map10.requests (retry_loop rest q w1).2 = Map10.requests w ++ extra /\
        (@None (Q * Q) = None -> a :: rest ≠ [] ->
         exists extra', extra = q :: extra')).
    { intros w1 H1. destruct (IH w1) as (extra & He & _).
      exists (q :: extra). unfold exec in He. rewrite He, H1, <- app_assoc.
      eauto. }
    destruct (fetch_json _) as [[c|]|[|p l]]; cbn.
    + destruct (c =? 429)%Z; cbn; by apply Hgo.
    + by apply Hgo.
    + by apply Hgo.
    + destruct (p_lat p), (p_lng p); cbn; try by apply Hgo.
      exists [q]. eauto.
Qed.

End Retry_facts.

(** The limiter calls the geocoder at least once and at most
    [retries_left + 1] times. *)
Lemma rate_limiter_calls nominatim q retries_left : forall w,
  exists k,
    1 <= k <= S retries_left /\
    Map8.calls (Map8.rate_limiter nominatim retries_left q w).2 =
      Map8.calls w ++ replicate k q.
Proof.
  induction retries_left as [|n IH]; intros w; simpl Map8.rate_limiter;
    unfold bind at 1, Map8.call_nominatim; cbn [fst snd].
  - exists 1. split; [lia|]. by destruct (nominatim _ _).
  - destruct (nominatim _ _) eqn:Hn; try (exists 1; split; [lia|done]).
    unfold bind, Map8.error_wait; cbn [fst snd].
    match goal with |- context [Map8.rate_limiter nominatim n q ?w1] =>
      destruct (IH w1) as (k & Hk & Hc) end.
    exists (S k). split; [lia|]. rewrite Hc. cbn. by rewrite <- app_assoc.
Qed.

(** [geocode] of map8 catches what the limiter lets through. *)
Lemma geocode_body_returns nominatim q w :
  exists result w',
    Map8.geocode_body nominatim q w = (inr result, w') /\
    Map8.calls w' =
      Map8.calls (Map8.rate_limiter nominatim Map8.max_retries q w).2.
Proof.
  unfold Map8.geocode_body, bind.
  destruct (Map8.rate_limiter nominatim Map8.max_retries q w)
    as [[e|[[la lo]|]] w1]; eexists _, _; split; reflexivity.
Qed.

Lemma on_exception_inr {A} n (target : M Map8.World (string + A))
    w (a : A) w' :
  target w = (inr a, w') ->
  Map8.on_exception n target w = (inr a, w').
Proof.
  intros H. destruct n; simpl; unfold bind; rewrite H; reflexivity.
Qed.

Section Retry_claims.

Variable remote : nat -> string -> http_reply.

Local Abbreviation retry_loop := (Map11.retry_loop remote).
Local Abbreviation geocode_location_with_retry :=
  (Map11.geocode_location_with_retry remote).

(** C5. Whenever an attempt of a call is answered with HTTP 429, the call
    waits [RATE_LIMIT * 2 ** attempt], [attempt] being the number of that
    attempt counted from 0, and goes on with the attempts that remain. So
    for a call whose first [k] attempts are answered with 429: with
    [k = retries] the ceiling is
    reached (5 attempts by default, waits 1.5, 3, 6, 12 and 24 seconds):
    the call returns [(None, None)], the cache is as it was, so the query
    has no successful entry and a later call sends it again. With
    [k < retries] and coordinates in the answer to attempt [k], the call
    returns them after exactly those [k] waits. *)
Theorem rate_limit_backoff (q : string) (retries k : nat) (w : Map10.World) :
  Map10.geocoded_locations w !! q = None ->
  k <= retries ->
  (forall i, i < k ->
     rate_limited (remote (length (Map10.requests w) + i) q)) ->
  (k = retries ->
     let w' := exec (geocode_location_with_retry q retries) w in
     eval (geocode_location_with_retry q retries) w = (None, None) /\
     Map10.requests w' = Map10.requests w ++ replicate retries q /\
     Map10.sleeps w' =
       Map10.sleeps w ++ map Map11.wait_time (seq 0 retries) /\
     Map10.geocoded_locations w' = Map10.geocoded_locations w /\
     (forall remote' retries', 0 < retries' ->
        exists extra,
          Map10.requests
            (exec (Map11.geocode_location_with_retry remote' q retries') w') =
          Map10.requests w' ++ q :: extra)) /\
  (forall code la lo others,
     k < retries ->
     remote (length (Map10.requests w) + k) q =
       Status code (Items (Position (Some (Num la)) (Some (Num lo)) :: others)) ->
     raises_for_status code = false ->
     let w' := exec (geocode_location_with_retry q retries) w in
     eval (geocode_location_with_retry q retries) w =
       (Some (Num la), Some (Num lo)) /\
     Map10.requests w' = Map10.requests w ++ replicate (S k) q /\
     Map10.sleeps w' = Map10.sleeps w ++ map Map11.wait_time (seq 0 k) /\
     Map10.geocoded_locations w' =
       <[q := (la, lo)]> (Map10.geocoded_locations w)) /\
  (forall attempt rest w',
     Map10.geocoded_locations w' !! q = None ->
     rate_limited (remote (length (Map10.requests w')) q) ->
     retry_loop (attempt :: rest) q w' =
     retry_loop rest q
       (after_failure q "Rate limit exceeded. Retrying..."
          [Map11.wait_time attempt] w')) /\
  Map11.RETRY_LIMIT = 5 /\
  Forall2 Qeq (map Map11.wait_time (seq 0 Map11.RETRY_LIMIT))
    [3 # 2; 3; 6; 12; 24]%Q.
Proof.
  intros Hq Hk H429.
  split; [|split; [|split; [|split]]];
    [| |intros attempt rest w'; apply retry_loop_rate_limited| |].
  - intros ->. unfold Map11.geocode_location_with_retry, eval, exec.
    pose proof (retry_loop_rate_limited_prefix remote q retries 0 [] w Hq H429)
      as Hrun.
    rewrite app_nil_r in Hrun. rewrite Hrun.
    cbn. do 4 (split; [done|]).
    intros remote' retries' Hpos.
    destruct (retry_loop_sends remote' q (seq 0 retries')
                (after_rate_limits q 0 retries w)) as (extra & He & Hx).
    destruct Hx as [extra' ->]; [exact Hq|destruct retries'; [lia|done]|].
    exists extra'. exact He.
  - intros code la lo others Hlt Hans Hcode.
    unfold Map11.geocode_location_with_retry, eval, exec.
    replace retries with (k + (retries - k)) by lia.
    rewrite seq_app.
    rewrite retry_loop_rate_limited_prefix by auto.
    destruct (retries - k) as [|m] eqn:Hm; [lia|]. simpl seq.
    erewrite retry_loop_found; [| exact Hq | | exact Hcode].
    + cbn. split; [done|]. split; [|done].
      rewrite <- app_assoc. f_equal.
      change (q :: replicate k q) with (replicate (S k) q).
      by rewrite replicate_S_end.
    + cbn. rewrite length_app, length_replicate. exact Hans.
  - reflexivity.
  - repeat constructor.
Qed.

(** C6, as the code has it. In map11 an error that is not a 429 is
    printed and the loop goes on to the next attempt at once, without a
    wait, whatever the number of the attempt: when every attempt ends so,
    all [retries] requests are sent and
    the call returns [(None, None)] with the cache untouched; it returns,
    it does not raise. In map9 [HereGeocoder.geocode] sends one request,
    logs the error and returns [(None, None)]. In map8 the geocoder is
    called through geopy's [RateLimiter]: an error of geopy's own (timed
    out, unavailable, HTTP error, unreadable answer) is tried again up to
    [max_retries = 3] times, 2 seconds apart, and then swallowed, so that
    [GeocodingService.geocode] returns [(None, None)] after four calls
    and nothing reaches [logging.error]; any other exception ends the
    call after one call of the geocoder, logged, with [(None, None)].
    [geocode] catches every exception itself, so the [backoff] decorator
    never sees one and the call always returns. *)
Theorem other_errors_are_retried (q : string) (retries : nat) (w : Map10.World) :
  Map10.geocoded_locations w !! q = None ->
  (forall i, i < retries ->
     transport_error (remote (length (Map10.requests w) + i) q)) ->
  (let w' := exec (geocode_location_with_retry q retries) w in
   eval (geocode_location_with_retry q retries) w = (None, None) /\
   Map10.requests w' = Map10.requests w ++ replicate retries q /\
   Map10.sleeps w' = Map10.sleeps w /\
   Map10.geocoded_locations w' = Map10.geocoded_locations w /\
   length (Map10.output w') = length (Map10.output w) + retries) /\
  (forall attempt rest w',
     Map10.geocoded_locations w' !! q = None ->
     transport_error (remote (length (Map10.requests w')) q) ->
     exists msg,
       retry_loop (attempt :: rest) q w' =
       retry_loop rest q (after_failure q msg [] w')) /\
  (forall elapse (w9 : Map9.World),
     transport_error (remote (length (Map9.requests w9)) q) ->
     let w9' := exec (Map9.geocode remote elapse q) w9 in
     eval (Map9.geocode remote elapse q) w9 = (None, None) /\
     Map9.requests w9' = Map9.requests w9 ++ [q] /\
     Map9.error_log w9' = Map9.error_log w9 ++ ["Error geocoding " +:+ q]) /\
  (forall nominatim (w8 : Map8.World),
     (forall i, i < 4 ->
        exists e, nominatim (length (Map8.calls w8) + i) q = Map8.ServiceError e) ->
     let w8' := exec (Map8.geocode nominatim q) w8 in
     eval (Map8.geocode nominatim q) w8 = inr (None, None) /\
     Map8.calls w8' = Map8.calls w8 ++ replicate 4 q /\
     Map8.error_waits w8' = Map8.error_waits w8 ++ [2; 2; 2]%Q /\
     Map8.error_log w8' = Map8.error_log w8) /\
  (forall nominatim (w8 : Map8.World) e,
     nominatim (length (Map8.calls w8)) q = Map8.OtherException e ->
     let w8' := exec (Map8.geocode nominatim q) w8 in
     eval (Map8.geocode nominatim q) w8 = inr (None, None) /\
     Map8.calls w8' = Map8.calls w8 ++ [q] /\
     Map8.error_waits w8' = Map8.error_waits w8 /\
     Map8.error_log w8' =
       Map8.error_log w8 ++ ["Error geocoding " +:+ q +:+ ": " +:+ e]) /\
  (forall nominatim (w8 : Map8.World),
     exists result k,
       eval (Map8.geocode nominatim q) w8 = inr result /\
       Map8.calls (exec (Map8.geocode nominatim q) w8) =
         Map8.calls w8 ++ replicate k q /\
       1 <= k <= 4).
Proof.
  intros Hq Herr.
  split; [|split; [intros attempt rest w'; apply retry_loop_transport_error|
                   split; [|split; [|split]]]].
  - destruct (retry_loop_transport_errors remote q (seq 0 retries) w Hq)
      as (w' & Hrun & Hr & Hs & Ht & Ho).
    { intros i Hi. rewrite length_seq in Hi. by apply Herr. }
    rewrite length_seq in *.
    unfold Map11.geocode_location_with_retry, eval, exec. rewrite Hrun. cbn.
    auto.
  - intros elapse w9 H9. cbn zeta.
    rewrite geocode_result, geocode_requests.
    unfold transport_error in H9.
    split; [|split; [done|]].
    + by destruct (fetch_json _) as [e|l].
    + unfold exec, Map9.geocode, Map9._rate_limit, bind; cbn.
      destruct (Map9.Qltb _ _); cbn; by destruct (fetch_json _) as [e|l].
  - intros nominatim w8 H8. cbn zeta.
    destruct (H8 0) as [e0 H0]; [lia|]. destruct (H8 1) as [e1 H1]; [lia|].
    destruct (H8 2) as [e2 H2]; [lia|]. destruct (H8 3) as [e3 H3]; [lia|].
    rewrite Nat.add_0_r in H0.
    unfold eval, exec, Map8.geocode, Map8.max_tries. simpl Map8.on_exception.
    unfold bind at 1 3 5 7, Map8.geocode_body, Map8.max_retries.
    simpl Map8.rate_limiter.
    unfold bind, Map8.call_nominatim, Map8.error_wait, ret; cbn.
    rewrite H0; cbn. rewrite length_app; cbn. rewrite H1; cbn.
    rewrite !length_app; cbn.
    replace (length (Map8.calls w8) + 1 + 1) with (length (Map8.calls w8) + 2)
      by lia.
    rewrite H2; cbn. rewrite !length_app; cbn.
    replace (length (Map8.calls w8) + 1 + 1 + 1)
      with (length (Map8.calls w8) + 3) by lia.
    rewrite H3; cbn. by rewrite <- !app_assoc.
  - intros nominatim w8 e H8. cbn zeta.
    unfold eval, exec, Map8.geocode, Map8.max_tries. simpl Map8.on_exception.
    unfold bind at 1 3 5 7, Map8.geocode_body, Map8.max_retries.
    simpl Map8.rate_limiter.
    unfold bind, Map8.call_nominatim, Map8.logging_error, ret; cbn.
    rewrite H8; cbn. done.
  - intros nominatim w8.
    destruct (rate_limiter_calls nominatim q Map8.max_retries w8)
      as (k & Hk & Hc).
    destruct (geocode_body_returns nominatim q w8) as (result & w8' & Hb & Hc').
    exists result, k. unfold eval, exec, Map8.geocode.
    rewrite (on_exception_inr _ _ _ _ _ Hb). cbn [fst snd].
    rewrite Hc', Hc. unfold Map8.max_retries in Hk. auto.
Qed.

End Retry_claims.

Lemma rate_limit_backoff_witness :
  eval (Map11.geocode_location_with_retry Sample.always_429 Sample.nowhere
          Map11.RETRY_LIMIT) (Sample.world10 ∅) = (None, None) /\
  Map10.sleeps
    (exec (Map11.geocode_location_with_retry Sample.always_429 Sample.nowhere
             Map11.RETRY_LIMIT) (Sample.world10 ∅)) =
  map Map11.wait_time [0; 1; 2; 3; 4].
Proof.
  destruct (rate_limit_backoff Sample.always_429 Sample.nowhere
              Map11.RETRY_LIMIT Map11.RETRY_LIMIT (Sample.world10 ∅))
    as [H _].
  - vm_compute. reflexivity.
  - lia.
  - intros i _. reflexivity.
  - destruct (H eq_refl) as (He & _ & Hs & _). split; [exact He | exact Hs].
Defined.

Lemma other_errors_are_retried_witness :
  Map10.requests
    (exec (Map11.geocode_location_with_retry Sample.always_500 Sample.nowhere 2)
       (Sample.world10 ∅)) = [Sample.nowhere; Sample.nowhere].
Proof.
  destruct (other_errors_are_retried Sample.always_500 Sample.nowhere 2
              (Sample.world10 ∅)) as [(_ & H & _) _].
  - vm_compute. reflexivity.
  - intros i _. unfold transport_error. simpl. discriminate.
  - exact H.
Defined.

(** C6, as stated, fails on map11: a service that answers 500 every time
    is asked [RETRY_LIMIT] times, not once. *)
Lemma error_500_is_sent_five_times :
  transport_error (Sample.always_500 0 Sample.nowhere) /\
  Map10.requests
    (exec (Map11.geocode_location_with_retry Sample.always_500 Sample.nowhere
             Map11.RETRY_LIMIT) (Sample.world10 ∅)) =
  replicate 5 Sample.nowhere /\
  replicate 5 Sample.nowhere ≠ [Sample.nowhere].
Proof.
  split; [|split].
  - unfold transport_error. simpl. discriminate.
  - vm_compute. reflexivity.
  - discriminate.
Qed.

(** In map8 a geocoder that times out every time is called four times,
    and the failure never reaches [logging.error]. *)
Example timeouts_are_swallowed :
  Map8.geocode Sample.timing_out Sample.nowhere Sample.world8 =
  (inr (None, None),
   {| Map8.calls := replicate 4 Sample.nowhere; Map8.error_log := [];
      Map8.error_waits := [2; 2; 2]%Q |}).
Proof. reflexivity. Qed.

(** ** The rate limit *)

Lemma Qltb_false a b : Map9.Qltb a b = false -> (b <= a)%Q.
Proof.
  unfold Map9.Qltb. intros H. apply negb_false_iff in H.
  by apply Qle_bool_iff.
Qed.

Section Gate.

Variable remote : nat -> string -> http_reply.
Variable elapse : nat -> Q.
Hypothesis elapse_nonneg : forall n, (0 <= elapse n)%Q.

Local Abbreviation _rate_limit := (Map9._rate_limit elapse).
Local Abbreviation run_workers := (Map9.run_workers remote elapse).











End Gate.




(** What the gate does not settle is when the requests themselves leave:
    the lock is released before [session.get]. Two workers that pass the
    gate a tenth of a second apart can send a hundredth apart. *)
Example requests_can_leave_together :
  let log := (Map9.run_workers Sample.offline Sample.steady
                Sample.two_workers (Sample.world9 ∅)).1 in
  Forall2 Qeq (stamps log) [11 # 100; 22 # 100]%Q /\
  Forall2 Qeq (map snd (sent log)) [23 # 100; 24 # 100]%Q /\
  ~ separated (1 # 10) (map snd (sent log)).
Proof.
  cbn zeta. split; [|split].
  - vm_compute. repeat constructor.
  - vm_compute. repeat constructor.
  - vm_compute. intros [H _]. by apply H.
Qed.


(** ** Building the query *)

(** C8, as the code has it. For a record whose three fields are all
    present and non-empty, the query map10 builds and the station-level
    query of map9 are the canonical one (station, district, state, joined
    with [", "], then [", India"]), and map9 also queries the district and
    the state on their own. An empty field is not left out. map10 always
    joins all three cells, [''] for a missing one, with the separators
    between them. map9 builds the query of a level exactly for the
    records in which every field of that level is present, from those
    fields as they are, and the set of locations it extracts is made of
    these queries and no others. *)
Theorem query_of_full_record (ps district state : string) :
  ps ≠ "" -> district ≠ "" -> state ≠ "" ->
  let row := {| Map9.State_UT_Name := Some state;
                Map9.District := Some district;
                Map9.Police_Station := Some ps |} in
  Map10.location_query row =
    canonical_query [Some ps; Some district; Some state] /\
  Map9.station_query row =
    Some (canonical_query [Some ps; Some district; Some state]) /\
  Map9.district_query row = Some (canonical_query [Some district; Some state]) /\
  Map9.state_query row = Some (canonical_query [Some state]) /\
  (forall r : Map9.CsvRow,
     Map10.location_query r =
       Map10.fillna (Map9.Police_Station r) +:+ ", " +:+
       Map10.fillna (Map9.District r) +:+ ", " +:+
       Map10.fillna (Map9.State_UT_Name r) +:+ ", India") /\
  (forall r : Map9.CsvRow,
     (is_Some (Map9.station_query r) <->
      is_Some (Map9.Police_Station r) /\ is_Some (Map9.District r) /\
      is_Some (Map9.State_UT_Name r)) /\
     (is_Some (Map9.district_query r) <->
      is_Some (Map9.District r) /\ is_Some (Map9.State_UT_Name r)) /\
     (is_Some (Map9.state_query r) <-> is_Some (Map9.State_UT_Name r))) /\
  (forall (r : Map9.CsvRow) a b c,
     Map9.Police_Station r = Some a -> Map9.District r = Some b ->
     Map9.State_UT_Name r = Some c ->
     Map9.station_query r = Some (a +:+ ", " +:+ b +:+ ", " +:+ c +:+ ", India") /\
     Map9.district_query r = Some (b +:+ ", " +:+ c +:+ ", India") /\
     Map9.state_query r = Some (c +:+ ", India")) /\
  (forall df q,
     q ∈ Map9.extract_locations df <->
     exists r, r ∈ df /\
       (Map9.state_query r = Some q \/ Map9.district_query r = Some q \/
        Map9.station_query r = Some q)).
Proof.
  intros Hps Hd Hs row.
  assert (Hc3 : canonical_query [Some ps; Some district; Some state] =
                ps +:+ ", " +:+ district +:+ ", " +:+ state +:+ ", India").
  { unfold canonical_query, non_empty_fields. simpl omap.
    rewrite !filter_cons_True, filter_nil by done. reflexivity. }
  assert (Hc2 : canonical_query [Some district; Some state] =
                district +:+ ", " +:+ state +:+ ", India").
  { unfold canonical_query, non_empty_fields. simpl omap.
    rewrite !filter_cons_True, filter_nil by done. reflexivity. }
  assert (Hc1 : canonical_query [Some state] = state +:+ ", India").
  { unfold canonical_query, non_empty_fields. simpl omap.
    rewrite !filter_cons_True, filter_nil by done. reflexivity. }
  rewrite Hc3, Hc2, Hc1.
  do 4 (split; [reflexivity|]).
  split; [reflexivity|]. split; [|split].
  - intros r.
    unfold Map9.station_query, Map9.district_query, Map9.state_query.
    destruct (Map9.Police_Station r), (Map9.District r), (Map9.State_UT_Name r);
      repeat split; intros; try done;
      repeat match goal with
             | H : _ /\ _ |- _ => destruct H
             | H : is_Some None |- _ => by destruct H
             end.
  - intros r a b c Ha Hb Hc.
    unfold Map9.station_query, Map9.district_query, Map9.state_query.
    by rewrite Ha, Hb, Hc.
  - intros df q. unfold Map9.extract_locations.
    rewrite !elem_of_union, !elem_of_list_to_set, !list_elem_of_omap.
    split.
    + intros [[(r & Hr & H)|(r & Hr & H)]|(r & Hr & H)]; exists r; auto.
    + intros (r & Hr & [H|[H|H]]); eauto 6.
Qed.

Lemma query_of_full_record_witness :
  Map10.location_query
    {| Map9.State_UT_Name := Some "Maharashtra"; Map9.District := Some "Mumbai";
       Map9.Police_Station := Some "Colaba" |} =
  canonical_query [Some "Colaba"; Some "Mumbai"; Some "Maharashtra"].
Proof.
  apply (query_of_full_record "Colaba" "Mumbai" "Maharashtra");
    discriminate.
Defined.

(** C8, as stated, fails on map10: a missing field is not left out of the
    query, it leaves an empty segment. *)
Lemma empty_field_is_joined :
  Map10.location_query Sample.pune_row = ", Pune, Maharashtra, India" /\
  canonical_query [None; Some "Pune"; Some "Maharashtra"] =
    "Pune, Maharashtra, India" /\
  Map10.location_query Sample.pune_row ≠
    canonical_query
      [Map9.Police_Station Sample.pune_row; Map9.District Sample.pune_row;
       Map9.State_UT_Name Sample.pune_row].
Proof.
  split; [reflexivity|]. split; [vm_compute; reflexivity|].
  vm_compute. discriminate.
Qed.

(** A record with no field at all still gives a query, and the query is
    sent. *)
Example all_empty_record_is_sent :
  Map10.location_query Sample.empty_row = ", , , India" /\
  Map10.requests
    (exec (Map10.preprocess_data Sample.no_results [Sample.empty_row])
       (Sample.world10 ∅)) = [", , , India"].
Proof. split; vm_compute; reflexivity. Qed.

(** ** map13: what the approximation touches *)

Section Frame_facts.

Variable mean : list Q -> Q.

Lemma same_fields_refl r : same_fields r r.
Proof. by repeat split. Qed.

Lemma same_fields_trans r1 r2 r3 :
  same_fields r1 r2 -> same_fields r2 r3 -> same_fields r1 r3.
Proof.
  intros (H1 & H2 & H3) (H4 & H5 & H6).
  repeat split; congruence.
Qed.

Lemma set_coordinates_length df i a b :
  length (Map13.set_coordinates df i a b) = length df.
Proof.
  unfold Map13.set_coordinates. destruct (df !! i); [|done].
  apply length_insert.
Qed.

Lemma set_coordinates_lookup_ne df i j a b :
  i ≠ j -> Map13.set_coordinates df i a b !! j = df !! j.
Proof.
  intros H. unfold Map13.set_coordinates. destruct (df !! i); [|done].
  by apply list_lookup_insert_ne.
Qed.

Lemma set_coordinates_lookup_eq df i r a b :
  df !! i = Some r ->
  Map13.set_coordinates df i a b !! i =
    Some {| Map13.State_UT_Name := Map13.State_UT_Name r;
            Map13.District := Map13.District r;
            Map13.Police_Station := Map13.Police_Station r;
            Map13.Latitude := Some a; Map13.Longitude := Some b |}.
Proof.
  intros H. unfold Map13.set_coordinates. rewrite H.
  apply list_lookup_insert_eq. by eapply lookup_lt_Some.
Qed.

(** The body of the loop either leaves the frame alone or writes the
    coordinates of the record at [index]; when the district has
    coordinates, they are the district's means. *)
Lemma approximate_row_cases df index row :
  Map13.approximate_row mean df index row = df \/
  (unresolved row /\
   exists a b,
     Map13.approximate_row mean df index row = Map13.set_coordinates df index a b /\
     let dc := Map13.district_coords df (Map13.str (Map13.State_UT_Name row))
                 (Map13.str (Map13.District row)) in
     (dc ≠ [] -> a = mean (map fst dc) /\ b = mean (map snd dc))).
Proof.
  unfold Map13.approximate_row, unresolved.
  destruct (Map13.isna _ || Map13.isna _); [|by left].
  destruct (Map13.district_coords df _ _) as [|c dc] eqn:Hd.
  - destruct (Map13.state_coords df _) as [|c sc]; [by left|].
    right. split; [done|]. eexists _, _. split; [reflexivity|]. done.
  - right. split; [done|]. eexists _, _. split; [reflexivity|]. done.
Qed.

Lemma approximate_row_length df index row :
  length (Map13.approximate_row mean df index row) = length df.
Proof.
  destruct (approximate_row_cases df index row) as [->|(_ & a & b & -> & _)];
    [done|apply set_coordinates_length].
Qed.

Lemma approximate_row_lookup_ne df index row j :
  index ≠ j -> Map13.approximate_row mean df index row !! j = df !! j.
Proof.
  intros H.
  destruct (approximate_row_cases df index row) as [->|(_ & a & b & -> & _)];
    [done|by apply set_coordinates_lookup_ne].
Qed.

Lemma approximate_row_fields df index row j r :
  df !! j = Some r ->
  exists r', Map13.approximate_row mean df index row !! j = Some r' /\ same_fields r r'.
Proof.
  intros Hj.
  destruct (approximate_row_cases df index row) as [->|(_ & a & b & -> & _)].
  - exists r. split; [done|apply same_fields_refl].
  - destruct (decide (index = j)) as [->|Hne].
    + erewrite set_coordinates_lookup_eq by eauto.
      eexists. split; [reflexivity|]. by repeat split.
    + rewrite set_coordinates_lookup_ne by done.
      exists r. split; [done|apply same_fields_refl].
Qed.

Lemma approximate_row_resolved df index row :
  ~ unresolved row -> Map13.approximate_row mean df index row = df.
Proof.
  unfold unresolved, Map13.approximate_row.
  by destruct (Map13.isna _ || Map13.isna _).
Qed.

(** The loop from [index] on does not touch the records before it. *)
Lemma approximate_from_lookup_lt rows : forall index df j,
  j < index -> Map13.approximate_from mean index rows df !! j = df !! j.
Proof.
  induction rows as [|row rest IH]; intros index df j Hj; [done|].
  simpl. rewrite IH by lia. apply approximate_row_lookup_ne. lia.
Qed.

Lemma approximate_from_length rows : forall index df,
  length (Map13.approximate_from mean index rows df) = length df.
Proof.
  induction rows as [|row rest IH]; intros index df; [done|].
  simpl. rewrite IH. apply approximate_row_length.
Qed.

Lemma approximate_from_fields rows : forall index df j r,
  df !! j = Some r ->
  exists r', Map13.approximate_from mean index rows df !! j = Some r' /\ same_fields r r'.
Proof.
  induction rows as [|row rest IH]; intros index df j r Hj.
  - exists r. split; [done|apply same_fields_refl].
  - simpl.
    destruct (approximate_row_fields df index row j r Hj) as (r1 & H1 & Hs1).
    destruct (IH (S index) _ j r1 H1) as (r2 & H2 & Hs2).
    exists r2. split; [done|]. by eapply same_fields_trans.
Qed.

(** A record that has its coordinates keeps them. *)
Lemma approximate_from_resolved rows : forall index df j,
  (forall row, index <= j -> rows !! (j - index) = Some row -> ~ unresolved row) ->
  Map13.approximate_from mean index rows df !! j = df !! j.
Proof.
  induction rows as [|row rest IH]; intros index df j H; [done|].
  simpl. destruct (decide (index = j)) as [->|Hne].
  - rewrite approximate_from_lookup_lt by lia.
    rewrite approximate_row_resolved; [done|].
    apply H; [lia|]. by rewrite Nat.sub_diag.
  - rewrite IH.
    + by apply approximate_row_lookup_ne.
    + intros row' Hle Hrow'. apply H; [lia|].
      replace (j - index) with (S (j - S index)) by lia. exact Hrow'.
Qed.

(** C9. The approximation hands back every other part of the process as
    it found it: for the world of map9 (the table [locations], the
    request log) and for the world of map10 and map11 (the table
    [geocoded_locations]), the world after is the world before, so no
    cache entry is written, changed or deleted and nothing is sent. What
    it changes is the frame it is given, and of that only the coordinates
    of records that lacked them: the frame keeps its length, every record
    keeps its state, district and police station, and a record that had
    both coordinates is left as it was. *)
Theorem approximation_leaves_the_cache
    (crime_data : list Map13.CrimeRow) (w9 : Map9.World) (w10 : Map10.World) :
  exec (Map13.approximate_missing_locations mean crime_data) w9 = w9 /\
  exec (Map13.approximate_missing_locations mean crime_data) w10 = w10 /\
  (forall i r,
     Map9.locations w9 !! i = Some r ->
     Map9.locations (exec (Map13.approximate_missing_locations mean crime_data) w9)
       !! i = Some r) /\
  let result := eval (Map13.approximate_missing_locations mean crime_data) w9 in
  eval (Map13.approximate_missing_locations mean crime_data) w10 = result /\
  length result = length crime_data /\
  (forall i row,
     crime_data !! i = Some row ->
     exists row',
       result !! i = Some row' /\ same_fields row row' /\
       (~ unresolved row -> row' = row)).
Proof.
  split; [reflexivity|]. split; [reflexivity|]. split; [done|].
  cbn zeta. split; [reflexivity|].
  unfold eval, Map13.approximate_missing_locations, ret; cbn.
  split; [apply approximate_from_length|].
  intros i row Hi.
  destruct (approximate_from_fields crime_data 0 crime_data i row Hi)
    as (row' & Hr & Hs).
  exists row'. split; [done|]. split; [done|].
  intros Hres.
  rewrite approximate_from_resolved in Hr.
  - congruence.
  - intros row0 _ H0. rewrite Nat.sub_0_r in H0. congruence.
Qed.

End Frame_facts.

(** ** map13: the district mean *)

Lemma Qsum_app l1 l2 :
  (Qsum (l1 ++ l2) == Qsum l1 + Qsum l2)%Q.
Proof.
  induction l1 as [|x l1 IH]; simpl; [ring|]. rewrite IH. ring.
Qed.

Lemma inject_nat_S n :
  (inject_Z (Z.of_nat (S n)) == inject_Z (Z.of_nat n) + 1)%Q.
Proof. rewrite Nat2Z.inj_succ. unfold Z.succ. by rewrite inject_Z_plus. Qed.

Lemma inject_nat_pos n : 0 < n -> (0 < inject_Z (Z.of_nat n))%Q.
Proof.
  intros H. change 0%Q with (inject_Z 0). rewrite <- Zlt_Qlt. lia.
Qed.

(** Adding its mean to a list of numbers does not move the mean. *)
Lemma mean_insert_mean (l1 l2 : list Q) :
  l1 ++ l2 ≠ [] ->
  (arithmetic_mean (l1 ++ arithmetic_mean (l1 ++ l2) :: l2) == arithmetic_mean (l1 ++ l2))%Q.
Proof.
  intros Hne. unfold arithmetic_mean.
  assert (Hlen : length (l1 ++ arithmetic_mean (l1 ++ l2) :: l2) = S (length (l1 ++ l2))).
  { rewrite !length_app. simpl. lia. }
  unfold arithmetic_mean in Hlen. rewrite Hlen.
  assert (Hpos : (0 < inject_Z (Z.of_nat (length (l1 ++ l2))))%Q).
  { apply inject_nat_pos. destruct (l1 ++ l2); [done|simpl; lia]. }
  rewrite inject_nat_S.
  rewrite (Qsum_app l1 (_ :: l2)). simpl Qsum.
  rewrite (Qsum_app l1 l2).
  set (n := inject_Z (Z.of_nat (length (l1 ++ l2)))) in *.
  set (s1 := Qsum l1). set (s2 := Qsum l2).
  field. split; lra.
Qed.

Lemma district_coords_cons r df s d :
  Map13.district_coords (r :: df) s d =
  (if Map13.cell_eq (Map13.State_UT_Name r) s &&
      Map13.cell_eq (Map13.District r) d
   then match Map13.Latitude r, Map13.Longitude r with
        | Some a, Some b => [(a, b)]
        | _, _ => []
        end
   else []) ++ Map13.district_coords df s d.
Proof.
  unfold Map13.district_coords, Map13.dropna.
  rewrite filter_cons.
  destruct (Map13.cell_eq _ s && Map13.cell_eq _ d); simpl; [|done].
  by destruct (Map13.Latitude r), (Map13.Longitude r).
Qed.

Lemma district_coords_app df1 df2 s d :
  Map13.district_coords (df1 ++ df2) s d =
  Map13.district_coords df1 s d ++ Map13.district_coords df2 s d.
Proof.
  unfold Map13.district_coords, Map13.dropna.
  by rewrite filter_app, omap_app.
Qed.

Lemma cell_eq_str cell s : Map13.cell_eq cell s = true -> Map13.str cell = s.
Proof.
  destruct cell as [c|]; simpl; [|done].
  intros H. by apply bool_decide_eq_true in H.
Qed.

(** What writing the coordinates of an unresolved record does to the
    coordinates of a district: it adds the pair when the record is of the
    district, and nothing otherwise. *)
Lemma district_coords_set df index row a b s d :
  df !! index = Some row -> unresolved row ->
  (Map13.str (Map13.State_UT_Name row) = s /\
   Map13.str (Map13.District row) = d /\
   exists l1 l2,
     Map13.district_coords df s d = l1 ++ l2 /\
     Map13.district_coords (Map13.set_coordinates df index a b) s d =
       l1 ++ (a, b) :: l2) \/
  Map13.district_coords (Map13.set_coordinates df index a b) s d =
    Map13.district_coords df s d.
Proof.
  intros Hi Hun. unfold Map13.set_coordinates. rewrite Hi.
  rewrite insert_take_drop by (by eapply lookup_lt_Some).
  assert (Hdf : Map13.district_coords df s d =
                Map13.district_coords
                  (take index df ++ row :: drop (S index) df) s d)
    by (by rewrite take_drop_middle).
  rewrite Hdf.
  rewrite !district_coords_app, !district_coords_cons. simpl.
  assert (Hrow : match Map13.Latitude row, Map13.Longitude row with
                 | Some a0, Some b0 => [(a0, b0)]
                 | _, _ => []
                 end = []).
  { unfold unresolved in Hun.
    by destruct (Map13.Latitude row), (Map13.Longitude row). }
  rewrite Hrow.
  destruct (Map13.cell_eq (Map13.State_UT_Name row) s) eqn:Hs;
    destruct (Map13.cell_eq (Map13.District row) d) eqn:Hd; simpl; auto.
  left. split; [by apply cell_eq_str|]. split; [by apply cell_eq_str|].
  eexists _, _. split; reflexivity.
Qed.

(** *** The frame when the loop reaches a record *)

Section Reached.

Variable mean : list Q -> Q.

Lemma approximate_from_split rows1 : forall rows2 index df,
  Map13.approximate_from mean index (rows1 ++ rows2) df =
  Map13.approximate_from mean (index + length rows1) rows2
    (Map13.approximate_from mean index rows1 df).
Proof.
  induction rows1 as [|row rows1 IH]; intros rows2 index df.
  - cbn. by rewrite Nat.add_0_r.
  - cbn. rewrite IH. f_equal. lia.
Qed.

Lemma approximate_from_lookup_ge rows : forall index df j,
  index + length rows <= j ->
  Map13.approximate_from mean index rows df !! j = df !! j.
Proof.
  induction rows as [|row rest IH]; intros index df j Hj; [done|].
  cbn in *. rewrite IH by lia. apply approximate_row_lookup_ne. lia.
Qed.

(** The record at [i] is as the loop body left it when it was its turn. *)
Lemma approximate_from_reached crime_data i row :
  crime_data !! i = Some row ->
  frame_at mean crime_data i !! i = Some row /\
  Map13.approximate_from mean 0 crime_data crime_data !! i =
    Map13.approximate_row mean (frame_at mean crime_data i) i row !! i.
Proof.
  intros Hi. pose proof (lookup_lt_Some _ _ _ Hi) as Hlt.
  unfold frame_at. split.
  - rewrite approximate_from_lookup_ge; [done|].
    rewrite length_take. lia.
  - rewrite <- (take_drop_middle crime_data i row Hi) at 1.
    rewrite approximate_from_split. cbn.
    rewrite length_take, Nat.min_l by lia.
    by rewrite approximate_from_lookup_lt by lia.
Qed.

(** The loop only ever adds to the coordinates of a district. *)
Lemma district_coords_grow rows s d : forall index df,
  (forall k row, rows !! k = Some row -> df !! (index + k) = Some row) ->
  Map13.district_coords df s d ≠ [] ->
  Map13.district_coords (Map13.approximate_from mean index rows df) s d ≠ [].
Proof.
  induction rows as [|row rest IH]; intros index df Hrows Hne; [done|].
  cbn [Map13.approximate_from]. apply IH.
  - intros k r Hk. rewrite approximate_row_lookup_ne by lia.
    replace (S index + k) with (index + S k) by lia. by apply Hrows.
  - assert (Hi : df !! index = Some row).
    { rewrite <- (Nat.add_0_r index). by apply Hrows. }
    destruct (approximate_row_cases mean df index row)
      as [->|(Hun & a & b & -> & _)]; [done|].
    destruct (district_coords_set df index row a b s d Hi Hun)
      as [(_ & _ & l1 & l2 & _ & ->)| ->]; [by destruct l1|done].
Qed.

(** And it adds nothing while no record of the district lacks
    coordinates. *)
Lemma district_coords_untouched rows s d : forall index df,
  (forall k row, rows !! k = Some row -> df !! (index + k) = Some row) ->
  (forall k row, rows !! k = Some row -> unresolved row ->
     Map13.str (Map13.State_UT_Name row) = s ->
     Map13.str (Map13.District row) = d -> False) ->
  Map13.district_coords (Map13.approximate_from mean index rows df) s d =
  Map13.district_coords df s d.
Proof.
  induction rows as [|row rest IH]; intros index df Hrows Hnone; [done|].
  cbn [Map13.approximate_from]. rewrite IH.
  - assert (Hi : df !! index = Some row).
    { rewrite <- (Nat.add_0_r index). by apply Hrows. }
    destruct (approximate_row_cases mean df index row)
      as [->|(Hun & a & b & -> & _)]; [done|].
    destruct (district_coords_set df index row a b s d Hi Hun)
      as [(Hs & Hd & _)| ->]; [|done].
    exfalso. by apply (Hnone 0 row).
  - intros k r Hk. rewrite approximate_row_lookup_ne by lia.
    replace (S index + k) with (index + S k) by lia. by apply Hrows.
  - intros k r Hk. by apply (Hnone (S k)).
Qed.

End Reached.

Lemma means_kept_refl crime_data : means_kept crime_data crime_data.
Proof. intros s d H. split; [done|]. split; reflexivity. Qed.

Lemma means_kept_step crime_data current index row :
  means_kept crime_data current ->
  current !! index = Some row ->
  means_kept crime_data (Map13.approximate_row arithmetic_mean current index row).
Proof.
  intros Hinv Hi.
  destruct (approximate_row_cases arithmetic_mean current index row)
    as [->|(Hun & a & b & -> & Hab)]; [done|].
  intros s d Hne. destruct (Hinv s d Hne) as (Hcur & Hf & Hs).
  destruct (district_coords_set current index row a b s d Hi Hun)
    as [(Es & Ed & l1 & l2 & E1 & E2)|E].
  - cbn zeta in Hab. rewrite Es, Ed in Hab.
    destruct (Hab Hcur) as [Ha Hb]. rewrite E1 in Ha, Hb, Hf, Hs, Hcur.
    rewrite E2. rewrite !map_app in *. simpl map.
    split; [by destruct l1|].
    assert (Hne1 : map fst l1 ++ map fst l2 ≠ []).
    { rewrite <- map_app. by destruct (l1 ++ l2). }
    assert (Hne2 : map snd l1 ++ map snd l2 ≠ []).
    { rewrite <- map_app. by destruct (l1 ++ l2). }
    split.
    + rewrite Ha. rewrite mean_insert_mean by done. exact Hf.
    + rewrite Hb. rewrite mean_insert_mean by done. exact Hs.
  - rewrite E. auto.
Qed.

(** The loop from [index] on, on a frame that kept the means: a record
    without coordinates whose district had some is given the district's
    means. *)
Lemma approximate_from_district crime_data rows : forall index current,
  drop index crime_data = rows ->
  means_kept crime_data current ->
  (forall j, index <= j -> current !! j = crime_data !! j) ->
  forall i row,
    index <= i -> crime_data !! i = Some row -> unresolved row ->
    let siblings :=
      Map13.district_coords crime_data (Map13.str (Map13.State_UT_Name row))
        (Map13.str (Map13.District row)) in
    siblings ≠ [] ->
    exists latitude longitude,
      Map13.approximate_from arithmetic_mean index rows current !! i =
        Some {| Map13.State_UT_Name := Map13.State_UT_Name row;
                Map13.District := Map13.District row;
                Map13.Police_Station := Map13.Police_Station row;
                Map13.Latitude := Some latitude;
                Map13.Longitude := Some longitude |} /\
      (latitude == arithmetic_mean (map fst siblings))%Q /\
      (longitude == arithmetic_mean (map snd siblings))%Q.
Proof.
  induction rows as [|r rest IH]; intros index current Hdrop Hinv Hsame
    i row Hle Hi Hun siblings Hsib.
  - apply drop_nil_inv in Hdrop.
    apply lookup_lt_Some in Hi. lia.
  - assert (Hr : crime_data !! index = Some r).
    { rewrite <- (Nat.add_0_r index), <- lookup_drop, Hdrop. done. }
    assert (Hrest : drop (S index) crime_data = rest).
    { rewrite (drop_S _ _ _ Hr) in Hdrop. by injection Hdrop. }
    assert (Hcur : current !! index = Some r) by (by rewrite Hsame).
    simpl Map13.approximate_from.
    destruct (decide (index = i)) as [->|Hne].
    + assert (r = row) by congruence. subst r.
      rewrite approximate_from_lookup_lt by lia.
      destruct (Hinv _ _ Hsib) as (Hne & Hf & Hs).
      destruct (approximate_row_cases arithmetic_mean current i row)
        as [Heq|(_ & a & b & Heq & Hab)].
      * exfalso. revert Heq Hne. unfold Map13.approximate_row.
        unfold unresolved in Hun. rewrite Hun.
        destruct (Map13.district_coords current _ _) as [|c dc]; [done|].
        intros Heq _.
        apply (f_equal (fun l => l !! i)) in Heq.
        erewrite set_coordinates_lookup_eq in Heq by eauto.
        rewrite Hcur in Heq. injection Heq as Heq.
        rewrite <- Heq in Hun. done.
      * rewrite Heq. erewrite set_coordinates_lookup_eq by eauto.
        destruct (Hab Hne) as [-> ->]. eauto.
    + apply IH; auto; [|intros j Hj|lia].
      * by apply means_kept_step.
      * rewrite approximate_row_lookup_ne by lia. apply Hsame. lia.
Qed.

(** The coordinates of a district are those of the records of that state
    and district that have both. *)
Lemma elem_of_district_coords df s d c :
  c ∈ Map13.district_coords df s d <->
  exists r, r ∈ df /\
    Map13.State_UT_Name r = Some s /\ Map13.District r = Some d /\
    Map13.Latitude r = Some c.1 /\ Map13.Longitude r = Some c.2.
Proof.
  unfold Map13.district_coords, Map13.dropna.
  rewrite list_elem_of_omap. split.
  - intros (r & Hin & Hc). apply list_elem_of_filter in Hin.
    destruct Hin as [HP Hin]. exists r. split; [done|].
    apply andb_prop_elim in HP. destruct HP as [H1 H2].
    unfold Map13.cell_eq in H1, H2.
    destruct (Map13.State_UT_Name r) as [s'|]; [|done].
    destruct (Map13.District r) as [d'|]; [|done].
    apply bool_decide_unpack in H1, H2. subst.
    destruct (Map13.Latitude r), (Map13.Longitude r); try done.
    by injection Hc as <-.
  - intros (r & Hin & Hs & Hd & Hla & Hlo). exists r. split.
    + apply list_elem_of_filter. split; [|done].
      rewrite Hs, Hd. simpl. rewrite !bool_decide_eq_true_2 by done. done.
    + rewrite Hla, Hlo. by destruct c.
Qed.

(** C4, as the code has it. A record left without coordinates by the
    exact matching, in a district where some record has both coordinates,
    is given the mean of the latitudes and the mean of the longitudes
    that the records of its (state, district) hold when the loop reaches
    it; its other fields stay. The loop writes the frame in place, so
    these are the coordinates of the siblings that were matched and of
    those the loop has approximated before. For the first record of the
    district without coordinates they are those of the matched siblings
    alone. In exact arithmetic an approximated record carries the mean
    and does not move it, so every such record gets the arithmetic mean
    of the matched siblings: its latitude times their number is the sum
    of their latitudes. The order of the fallback is that of the loop
    body: the district's mean whenever the district has coordinates, the
    state's mean only when the district has none and the state has some,
    and nothing when neither has. *)
Theorem district_mean_is_assigned {W : Type} (w : W) (mean : list Q -> Q)
    (crime_data : list Map13.CrimeRow) (i : nat) (row : Map13.CrimeRow) :
  crime_data !! i = Some row ->
  unresolved row ->
  let state := Map13.str (Map13.State_UT_Name row) in
  let district := Map13.str (Map13.District row) in
  let siblings := Map13.district_coords crime_data state district in
  siblings ≠ [] ->
  let held := Map13.district_coords (frame_at mean crime_data i) state district in
  (held ≠ [] /\
   eval (Map13.approximate_missing_locations mean crime_data) w !! i =
     Some {| Map13.State_UT_Name := Map13.State_UT_Name row;
             Map13.District := Map13.District row;
             Map13.Police_Station := Map13.Police_Station row;
             Map13.Latitude := Some (mean (map fst held));
             Map13.Longitude := Some (mean (map snd held)) |} /\
   (first_unresolved crime_data i state district -> held = siblings)) /\
  (exists latitude longitude,
     eval (Map13.approximate_missing_locations arithmetic_mean crime_data) w !! i =
       Some {| Map13.State_UT_Name := Map13.State_UT_Name row;
               Map13.District := Map13.District row;
               Map13.Police_Station := Map13.Police_Station row;
               Map13.Latitude := Some latitude;
               Map13.Longitude := Some longitude |} /\
     (latitude * inject_Z (Z.of_nat (length siblings)) ==
      Qsum (map fst siblings))%Q /\
     (longitude * inject_Z (Z.of_nat (length siblings)) ==
      Qsum (map snd siblings))%Q) /\
  (forall current index,
     let in_district := Map13.district_coords current state district in
     let in_state := Map13.state_coords current state in
     (in_district ≠ [] ->
      Map13.approximate_row mean current index row =
        Map13.set_coordinates current index
          (mean (map fst in_district)) (mean (map snd in_district))) /\
     (in_district = [] -> in_state ≠ [] ->
      Map13.approximate_row mean current index row =
        Map13.set_coordinates current index
          (mean (map fst in_state)) (mean (map snd in_state))) /\
     (in_district = [] -> in_state = [] ->
      Map13.approximate_row mean current index row = current)).
Proof.
  intros Hi Hun state district siblings Hsib held.
  assert (Hmatch : forall k r,
            take i crime_data !! k = Some r -> crime_data !! (0 + k) = Some r).
  { intros k r Hk. apply lookup_take_Some in Hk. by destruct Hk. }
  assert (Hheld : held ≠ []).
  { unfold held, frame_at. by apply district_coords_grow. }
  split; [|split].
  - split; [exact Hheld|]. split.
    + unfold eval, Map13.approximate_missing_locations, ret; cbn.
      destruct (approximate_from_reached mean crime_data i row Hi) as [Hcur ->].
      unfold Map13.approximate_row. unfold unresolved in Hun. rewrite Hun.
      fold state district. fold held.
      destruct held as [|c held'] eqn:Eh; [done|].
      by erewrite set_coordinates_lookup_eq by eauto.
    + intros Hfirst. unfold held, frame_at.
      apply district_coords_untouched; [exact Hmatch|].
      intros k r Hk. apply lookup_take_Some in Hk. destruct Hk as [Hk Hlt].
      by apply (Hfirst k r).
  - unfold eval, Map13.approximate_missing_locations, ret; cbn.
    destruct (approximate_from_district crime_data crime_data 0 crime_data
                eq_refl (means_kept_refl crime_data) (fun _ _ => eq_refl)
                i row (Nat.le_0_l i) Hi Hun Hsib)
      as (la & lo & Hr & Hla & Hlo).
    exists la, lo. split; [exact Hr|].
    assert (Hpos : (0 < inject_Z (Z.of_nat (length siblings)))%Q).
    { apply inject_nat_pos. fold siblings in Hsib.
      destruct siblings; [done|simpl; lia]. }
    fold state district siblings in Hla, Hlo.
    unfold arithmetic_mean in Hla, Hlo. rewrite !length_map in Hla, Hlo.
    split; [rewrite Hla|rewrite Hlo]; field; lra.
  - intros current index in_district in_state.
    unfold Map13.approximate_row. unfold unresolved in Hun. rewrite Hun.
    fold state district. fold in_district in_state.
    repeat split.
    + by destruct in_district.
    + intros -> H. by destruct in_state.
    + by intros -> ->.
Qed.

Lemma district_mean_is_assigned_witness :
  (exists latitude,
     option_map Map13.Latitude
       (eval (Map13.approximate_missing_locations arithmetic_mean
                (Sample.mumbai (97 # 4) (55 # 2))) tt !! 3) =
       Some (Some latitude) /\
     (latitude * 2 == (97 # 4) + (55 # 2))%Q /\ (latitude == 207 # 8)%Q) /\
  option_map Map13.Latitude
    (eval (Map13.approximate_missing_locations Float64.mean
             (Sample.mumbai (97 # 4) (55 # 2))) tt !! 2) =
    Some (Some (Float64.mean [97 # 4; 55 # 2]%Q)).
Proof.
  destruct (district_mean_is_assigned tt Float64.mean
              (Sample.mumbai (97 # 4) (55 # 2)) 2
              {| Map13.State_UT_Name := Some "MH"; Map13.District := Some "Mumbai";
                 Map13.Police_Station := Some "Unknown-1";
                 Map13.Latitude := None; Map13.Longitude := None |})
    as ((_ & H2 & Hfirst) & _).
  { reflexivity. }
  { reflexivity. }
  { vm_compute. discriminate. }
  destruct (district_mean_is_assigned tt arithmetic_mean
              (Sample.mumbai (97 # 4) (55 # 2)) 3
              {| Map13.State_UT_Name := Some "MH"; Map13.District := Some "Mumbai";
                 Map13.Police_Station := Some "Unknown-2";
                 Map13.Latitude := None; Map13.Longitude := None |})
    as (_ & (la & lo & Hr & Hla & _) & _).
  { reflexivity. }
  { reflexivity. }
  { vm_compute. discriminate. }
  split.
  - exists la. rewrite Hr. split; [reflexivity|].
    assert (Hsum : (la * 2 == (97 # 4) + (55 # 2))%Q).
    { rewrite <- Hla. vm_compute. reflexivity. }
    split; [exact Hsum|]. lra.
  - rewrite H2. cbn [option_map Map13.Latitude].
    rewrite Hfirst; [reflexivity|].
    intros j r Hj Hr' Hun' _ _.
    destruct j as [|[|j]]; [| |lia];
      cbn in Hr'; injection Hr' as <-; by vm_compute in Hun'.
Defined.

(** C4, as stated, fails in floating point. Two stations of a district
    were matched at the latitudes 24.3 and 27.4, two were not. The first
    of these gets the mean pandas computes of the two, 25.85; the second
    gets the mean of the two and of the first one's 25.85, which comes out
    as 25.850000000000005: neither the mean pandas computes of the matched
    siblings nor their arithmetic mean. *)
Lemma later_record_is_off_the_mean :
  let matched := [Float64.literal (243 # 10); Float64.literal (274 # 10)] in
  let frame :=
    Sample.mumbai (Float64.literal (243 # 10)) (Float64.literal (274 # 10)) in
  let result := eval (Map13.approximate_missing_locations Float64.mean frame) tt in
  exists first second,
    option_map Map13.Latitude (result !! 2) = Some (Some first) /\
    option_map Map13.Latitude (result !! 3) = Some (Some second) /\
    first = Float64.mean matched /\
    first = Float64.literal (2585 # 100) /\
    second = Float64.literal (25850000000000005 # 1000000000000000) /\
    ~ (second == Float64.mean matched)%Q /\
    ~ (second == arithmetic_mean matched)%Q.
Proof.
  cbn zeta. eexists _, _.
  split; [vm_compute; reflexivity|]. split; [vm_compute; reflexivity|].
  split; [vm_compute; reflexivity|]. split; [vm_compute; reflexivity|].
  split; [vm_compute; reflexivity|].
  split; vm_compute; discriminate.
Qed.

(** The arithmetic of [Float64], on known values: 0.1 + 0.2 and the mean
    of 0.1, 0.2 and 0.3 as Python prints them. *)
Example float64_known_values :
  Float64.literal (1 # 10) = (3602879701896397 # 36028797018963968)%Q /\
  Float64.add (Float64.literal (1 # 10)) (Float64.literal (2 # 10)) =
    Float64.literal (30000000000000004 # 100000000000000000) /\
  Float64.mean [Float64.literal (1 # 10); Float64.literal (2 # 10);
                Float64.literal (3 # 10)] =
    Float64.literal (20000000000000004 # 100000000000000000) /\
  Float64.round 90 = 90%Q /\ Float64.round (-180) = (-180)%Q.
Proof. repeat split; vm_compute; reflexivity. Qed.

(** The scenario of the design document, run: the unknown station of
    Mumbai gets the coordinates of Colaba, the one other record of Mumbai,
    and Camp, in Pune, plays no part. *)
Example scenario_runs :
  Forall2
    (fun r c =>
       exists la lo, Map13.Latitude r = Some la /\ Map13.Longitude r = Some lo /\
                     (la == c.1)%Q /\ (lo == c.2)%Q)
    (eval (Map13.approximate_missing_locations arithmetic_mean Sample.scenario) tt)
    [(189 # 10, 728 # 10); (189 # 10, 728 # 10); (185 # 10, 739 # 10)]%Q.
Proof.
  repeat constructor; eexists _, _;
    (split; [vm_compute; reflexivity|]); (split; [reflexivity|]);
    split; vm_compute; reflexivity.
Qed.

(** ** Reading the cache when drawing the map *)

Section Render_lookup.

Variable md5_hexdigest : string -> string.

Local Abbreviation get_cached_coordinates :=
  (Map8.get_cached_coordinates md5_hexdigest).
Local Abbreviation get_coordinates := (Map9.get_coordinates md5_hexdigest).

(** C10, on the code. On a database that has the table,
    [get_cached_coordinates] of map8 returns the coordinates of the row
    under the hash whatever its [success] (those of a failed row are its
    stored [NULL]s), and [(None, None)] when there is no row, while
    [get_coordinates] of map9 returns the coordinates of a successful row
    only. On a database without the table the [SELECT] raises: map8 has no
    handler and the exception leaves [get_cached_coordinates]; map9
    catches it, logs it and returns [(None, None)]. *)
Theorem get_cached_coordinates_lookup
    (location_string : string) (t : gmap string Map9.LocationRow)
    (r : Map9.LocationRow) :
  let h := md5_hexdigest location_string in
  get_cached_coordinates location_string (Some (<[h := r]> t)) =
    inr (Map9.latitude r, Map9.longitude r) /\
  get_cached_coordinates location_string (Some (delete h t)) =
    inr (None, None) /\
  get_coordinates location_string (Some (<[h := r]> t)) =
    ((if Map9.success r then (Map9.latitude r, Map9.longitude r)
      else (None, None)), []) /\
  get_coordinates location_string (Some (delete h t)) = ((None, None), []) /\
  get_cached_coordinates location_string None =
    inl (Map9.OperationalError "no such table: locations") /\
  get_coordinates location_string None =
    ((None, None),
     ["Database error while getting coordinates: no such table: locations"]).
Proof.
  cbn zeta.
  unfold Map8.get_cached_coordinates, Map9.get_coordinates,
    Map9.select_successful, Map9.get_location_hash; cbn.
  rewrite !lookup_insert_eq, !lookup_delete_eq.
  repeat split. by destruct (Map9.success r).
Qed.

End Render_lookup.

(** The failing input of C10, evaluated: the database file exists but
    [preprocess_locations.py] has not created the table. *)
Example lookup_without_table :
  Map8.get_cached_coordinates Hashlib.md5_hexdigest Sample.goa None =
    inl (Map9.OperationalError "no such table: locations") /\
  (Map9.get_coordinates Hashlib.md5_hexdigest Sample.goa None).1 = (None, None).
Proof. split; reflexivity. Qed.

(** A failed row is read back as its stored [NULL]s. *)
Example lookup_of_failed_row :
  Map8.get_cached_coordinates Hashlib.md5_hexdigest Sample.nowhere
    (Some {[ Hashlib.md5_hexdigest Sample.nowhere := Sample.failed_row ]}) =
  inr (None, None).
Proof. vm_compute. reflexivity. Qed.

(** * More of the code *)

(** ** map13: the states under the approximation *)

Section State_facts.

Variable mean : list Q -> Q.

Lemma state_coords_cons r df s :
  Map13.state_coords (r :: df) s =
  (if Map13.cell_eq (Map13.State_UT_Name r) s
   then match Map13.Latitude r, Map13.Longitude r with
        | Some a, Some b => [(a, b)]
        | _, _ => []
        end
   else []) ++ Map13.state_coords df s.
Proof.
  unfold Map13.state_coords, Map13.dropna.
  rewrite filter_cons.
  destruct (Map13.cell_eq _ s); simpl; [|done].
  by destruct (Map13.Latitude r), (Map13.Longitude r).
Qed.

Lemma state_coords_app df1 df2 s :
  Map13.state_coords (df1 ++ df2) s =
  Map13.state_coords df1 s ++ Map13.state_coords df2 s.
Proof.
  unfold Map13.state_coords, Map13.dropna.
  by rewrite filter_app, omap_app.
Qed.

(** A district that has coordinates is in a state that has some. *)
Lemma district_coords_state df s d :
  Map13.state_coords df s = [] -> Map13.district_coords df s d = [].
Proof.
  induction df as [|r df IH]; [done|].
  rewrite state_coords_cons, district_coords_cons.
  intros H. apply app_eq_nil in H. destruct H as [H1 H2].
  rewrite (IH H2), app_nil_r.
  destruct (Map13.cell_eq (Map13.State_UT_Name r) s); simpl; [|done].
  rewrite H1. by destruct (Map13.cell_eq (Map13.District r) d).
Qed.

Lemma state_coords_set df index row a b s :
  df !! index = Some row -> unresolved row ->
  (Map13.str (Map13.State_UT_Name row) = s /\
   exists l1 l2,
     Map13.state_coords df s = l1 ++ l2 /\
     Map13.state_coords (Map13.set_coordinates df index a b) s =
       l1 ++ (a, b) :: l2) \/
  Map13.state_coords (Map13.set_coordinates df index a b) s =
    Map13.state_coords df s.
Proof.
  intros Hi Hun. unfold Map13.set_coordinates. rewrite Hi.
  rewrite insert_take_drop by (by eapply lookup_lt_Some).
  assert (Hdf : Map13.state_coords df s =
                Map13.state_coords
                  (take index df ++ row :: drop (S index) df) s)
    by (by rewrite take_drop_middle).
  rewrite Hdf.
  rewrite !state_coords_app, !state_coords_cons. simpl.
  assert (Hrow : match Map13.Latitude row, Map13.Longitude row with
                 | Some a0, Some b0 => [(a0, b0)]
                 | _, _ => []
                 end = []).
  { unfold unresolved in Hun.
    by destruct (Map13.Latitude row), (Map13.Longitude row). }
  rewrite Hrow.
  destruct (Map13.cell_eq (Map13.State_UT_Name row) s) eqn:Hs; simpl; auto.
  left. split; [by apply cell_eq_str|].
  eexists _, _. split; reflexivity.
Qed.

(** The body of the loop on a record without coordinates: the branch it
    takes and the list whose means it writes. *)
Lemma approximate_row_written df index row :
  unresolved row ->
  let state := Map13.str (Map13.State_UT_Name row) in
  let in_district :=
    Map13.district_coords df state (Map13.str (Map13.District row)) in
  let in_state := Map13.state_coords df state in
  (in_state = [] /\ Map13.approximate_row mean df index row = df) \/
  (exists l,
     l ≠ [] /\ in_state ≠ [] /\
     (l = in_district \/ l = in_state) /\
     Map13.approximate_row mean df index row =
       Map13.set_coordinates df index
         (mean (map fst l)) (mean (map snd l))).
Proof.
  intros Hun state in_district in_state.
  unfold Map13.approximate_row. unfold unresolved in Hun. rewrite Hun.
  fold state. fold in_district in_state.
  destruct in_district as [|c dc] eqn:Hd.
  - destruct in_state as [|c sc] eqn:Hs; [by left|].
    right. exists (c :: sc). split; [done|]. split; [done|]. split; [by right|done].
  - right. exists (c :: dc). split; [done|]. split.
    + intros Hs. subst in_district in_state.
      by rewrite (district_coords_state _ _ _ Hs) in Hd.
    + split; [by left|done].
Qed.

Lemma states_kept_refl crime_data : states_kept crime_data crime_data.
Proof. by intros s. Qed.

Lemma states_kept_step crime_data current index row :
  states_kept crime_data current ->
  current !! index = Some row ->
  states_kept crime_data (Map13.approximate_row mean current index row).
Proof.
  intros Hinv Hi.
  destruct (decide (unresolved row)) as [Hun|Hres];
    [|by rewrite approximate_row_resolved].
  destruct (approximate_row_written current index row Hun)
    as [[_ ->]|(l & _ & Hne & _ & ->)]; [done|].
  intros s.
  destruct (state_coords_set current index row
              (mean (map fst l)) (mean (map snd l)) s Hi Hun)
    as [(Es & l1 & l2 & E1 & E2)|E].
  - rewrite E2. rewrite Es in Hne. split.
    + intros H. by destruct l1.
    + intros H. apply Hinv in H. done.
  - rewrite E. apply Hinv.
Qed.

Lemma states_kept_from crime_data rows : forall index current,
  drop index crime_data = rows ->
  states_kept crime_data current ->
  (forall j, index <= j -> current !! j = crime_data !! j) ->
  states_kept crime_data (Map13.approximate_from mean index rows current).
Proof.
  induction rows as [|r rest IH]; intros index current Hdrop Hinv Hsame;
    [done|].
  assert (Hr : crime_data !! index = Some r).
  { rewrite <- (Nat.add_0_r index), <- lookup_drop, Hdrop. done. }
  assert (Hrest : drop (S index) crime_data = rest).
  { rewrite (drop_S _ _ _ Hr) in Hdrop. by injection Hdrop. }
  simpl. apply IH; [done| |].
  - apply states_kept_step; [done|]. by rewrite Hsame.
  - intros j Hj. rewrite approximate_row_lookup_ne by lia. apply Hsame. lia.
Qed.

(** The loop from [index] on: what becomes of a record without
    coordinates, by whether its state had any. *)
Lemma approximate_from_state crime_data rows : forall index current,
  drop index crime_data = rows ->
  states_kept crime_data current ->
  (forall j, index <= j -> current !! j = crime_data !! j) ->
  forall i row,
    index <= i -> crime_data !! i = Some row -> unresolved row ->
    let in_state :=
      Map13.state_coords crime_data (Map13.str (Map13.State_UT_Name row)) in
    (in_state = [] ->
     Map13.approximate_from mean index rows current !! i = Some row) /\
    (in_state ≠ [] ->
     exists row',
       Map13.approximate_from mean index rows current !! i = Some row' /\
       ~ unresolved row').
Proof.
  induction rows as [|r rest IH]; intros index current Hdrop Hinv Hsame
    i row Hle Hi Hun in_state.
  - apply drop_nil_inv in Hdrop. apply lookup_lt_Some in Hi. lia.
  - assert (Hr : crime_data !! index = Some r).
    { rewrite <- (Nat.add_0_r index), <- lookup_drop, Hdrop. done. }
    assert (Hrest : drop (S index) crime_data = rest).
    { rewrite (drop_S _ _ _ Hr) in Hdrop. by injection Hdrop. }
    assert (Hcur : current !! index = Some r) by (by rewrite Hsame).
    simpl Map13.approximate_from.
    destruct (decide (index = i)) as [->|Hne].
    + assert (r = row) by congruence. subst r.
      rewrite approximate_from_lookup_lt by lia.
      destruct (approximate_row_written current i row Hun)
        as [[He ->]|(l & _ & Hne & _ & ->)].
      * split; [done|]. intros H. apply Hinv in He. done.
      * split.
        -- intros H. apply Hinv in H. done.
        -- intros _. erewrite set_coordinates_lookup_eq by eauto.
           eexists. split; [reflexivity|]. unfold unresolved. simpl. done.
    + apply IH; auto; [|intros j Hj|lia].
      * by apply states_kept_step.
      * rewrite approximate_row_lookup_ne by lia. apply Hsame. lia.
Qed.

(** X1. After the approximation a record is still without coordinates
    exactly when no record of its state had both coordinates when the
    approximation began; such a record is left as it was. *)
Theorem unresolved_iff_state_empty {W : Type} (w : W)
    (crime_data : list Map13.CrimeRow) (i : nat) (row : Map13.CrimeRow) :
  crime_data !! i = Some row ->
  unresolved row ->
  let in_state :=
    Map13.state_coords crime_data (Map13.str (Map13.State_UT_Name row)) in
  exists row',
    eval (Map13.approximate_missing_locations mean crime_data) w !! i = Some row' /\
    (unresolved row' <-> in_state = []) /\
    (in_state = [] -> row' = row).
Proof.
  intros Hi Hun in_state.
  unfold eval, Map13.approximate_missing_locations, ret; cbn.
  destruct (approximate_from_state crime_data crime_data 0 crime_data)
    with (i := i) (row := row) as [Hempty Hsome];
    auto using states_kept_refl; [lia|].
  fold in_state in Hempty, Hsome.
  destruct (decide (in_state = [])) as [He|Hne].
  - exists row. split; [by apply Hempty|]. split; [done|done].
  - destruct (Hsome Hne) as (row' & Hr & Hres).
    exists row'. split; [done|]. split; [|done]. split; [done|done].
Qed.

End State_facts.

Lemma unresolved_iff_state_empty_witness :
  exists row',
    eval (Map13.approximate_missing_locations Float64.mean
            (Sample.scenario ++
             [{| Map13.State_UT_Name := Some "GA"; Map13.District := Some "Panaji";
                 Map13.Police_Station := Some "Unknown";
                 Map13.Latitude := None; Map13.Longitude := None |}])) tt !! 3
      = Some row' /\
    unresolved row'.
Proof.
  destruct (unresolved_iff_state_empty Float64.mean tt
              (Sample.scenario ++
               [{| Map13.State_UT_Name := Some "GA"; Map13.District := Some "Panaji";
                   Map13.Police_Station := Some "Unknown";
                   Map13.Latitude := None; Map13.Longitude := None |}]) 3
              {| Map13.State_UT_Name := Some "GA"; Map13.District := Some "Panaji";
                 Map13.Police_Station := Some "Unknown";
                 Map13.Latitude := None; Map13.Longitude := None |})
    as (row' & Hr & Hiff & _).
  - reflexivity.
  - reflexivity.
  - exists row'. split; [exact Hr|]. apply Hiff. vm_compute. reflexivity.
Defined.

(** ** map13: running the approximation again *)

Section Again.

Variable mean : list Q -> Q.

Lemma approximate_from_fixed frame rows : forall index,
  (forall idx row, row ∈ rows -> Map13.approximate_row mean frame idx row = frame) ->
  Map13.approximate_from mean index rows frame = frame.
Proof.
  induction rows as [|r rest IH]; intros index H; [done|].
  simpl. rewrite H by left. apply IH. intros idx row Hin. apply H. by right.
Qed.

(** X2. The approximation is idempotent: run on its own result, it
    changes nothing. *)
Theorem approximation_idempotent {W : Type} (w : W)
    (crime_data : list Map13.CrimeRow) :
  let once := eval (Map13.approximate_missing_locations mean crime_data) w in
  eval (Map13.approximate_missing_locations mean once) w = once.
Proof.
  unfold eval, Map13.approximate_missing_locations, ret; cbn.
  set (once := Map13.approximate_from mean 0 crime_data crime_data).
  assert (Hkept : states_kept crime_data once).
  { apply states_kept_from; auto using states_kept_refl. }
  apply approximate_from_fixed. intros idx row' Hin.
  destruct (decide (unresolved row')) as [Hun|Hres];
    [|by apply approximate_row_resolved].
  apply list_elem_of_lookup in Hin. destruct Hin as [i Hi].
  assert (Hlen : i < length crime_data).
  { apply lookup_lt_Some in Hi. unfold once in Hi.
    by rewrite approximate_from_length in Hi. }
  destruct (lookup_lt_is_Some_2 crime_data i Hlen) as [row Hrow].
  destruct (approximate_from_fields mean crime_data 0 crime_data i row Hrow)
    as (r2 & Hr2 & Hsame).
  fold once in Hr2. assert (r2 = row') by congruence. subst r2.
  assert (Hun0 : unresolved row).
  { destruct (decide (unresolved row)) as [H|H]; [done|]. exfalso.
    assert (once !! i = crime_data !! i) as Heq.
    { apply approximate_from_resolved. intros row0 _ H0.
      rewrite Nat.sub_0_r in H0. congruence. }
    rewrite Hi, Hrow in Heq. injection Heq as ->. done. }
  destruct (approximate_from_state mean crime_data crime_data 0 crime_data)
    with (i := i) (row := row) as [_ Hsome];
    auto using states_kept_refl; [lia|].
  fold once in Hsome.
  assert (Hempty : Map13.state_coords crime_data
                     (Map13.str (Map13.State_UT_Name row)) = []).
  { destruct (Map13.state_coords crime_data _) as [|c l] eqn:E; [done|].
    exfalso. destruct Hsome as (r3 & Hr3 & Hres3); [done|].
    assert (r3 = row') by congruence. subst r3. done. }
  destruct Hsame as (Hs & _ & _). rewrite Hs in Hempty.
  apply Hkept in Hempty.
  destruct (approximate_row_written mean once idx row' Hun)
    as [[_ ->]|(l & _ & Hne & _)]; [done|]. done.
Qed.

End Again.

(** ** map13: the approximation and the valid ranges *)

Lemma Qsum_bounds (l : list Q) (lo hi : Q) :
  Forall (fun x => lo <= x /\ x <= hi)%Q l ->
  (inject_Z (Z.of_nat (length l)) * lo <= Qsum l /\
   Qsum l <= inject_Z (Z.of_nat (length l)) * hi)%Q.
Proof.
  induction 1 as [|x l [Hlo Hhi] _ [IH1 IH2]]; simpl Qsum.
  - change (inject_Z (Z.of_nat (length (@nil Q)))) with 0%Q. split; lra.
  - change (length (x :: l)) with (S (length l)). rewrite inject_nat_S.
    set (n := inject_Z (Z.of_nat (length l))) in *.
    split; nra.
Qed.

(** The mean of numbers in an interval is in the interval. *)
Lemma mean_in_range (l : list Q) (lo hi : Q) :
  l ≠ [] ->
  Forall (fun x => lo <= x /\ x <= hi)%Q l ->
  (lo <= arithmetic_mean l /\ arithmetic_mean l <= hi)%Q.
Proof.
  intros Hne Hall. destruct (Qsum_bounds l lo hi Hall) as [H1 H2].
  assert (Hpos : (0 < inject_Z (Z.of_nat (length l)))%Q).
  { apply inject_nat_pos. destruct l; [done|simpl; lia]. }
  unfold arithmetic_mean. split.
  - apply Qle_shift_div_l; [done|]. by rewrite Qmult_comm.
  - apply Qle_shift_div_r; [done|]. by rewrite Qmult_comm.
Qed.

Lemma arithmetic_mean_stays_within lo hi n : stays_within arithmetic_mean lo hi n.
Proof. intros l Hne _ Hall. by apply mean_in_range. Qed.

(** A pair among the coordinates of a part of the frame belongs to a
    record of the frame. *)
Lemma elem_of_dropna_filter (P : Map13.CrimeRow -> Prop)
    `{forall r, Decision (P r)} (df : list Map13.CrimeRow) c :
  c ∈ Map13.dropna (filter P df) ->
  exists r, r ∈ df /\
    Map13.Latitude r = Some c.1 /\ Map13.Longitude r = Some c.2.
Proof.
  unfold Map13.dropna. rewrite list_elem_of_omap.
  intros (r & Hin & Hc). apply list_elem_of_filter in Hin.
  destruct Hin as [_ Hin]. exists r. split; [done|].
  destruct (Map13.Latitude r), (Map13.Longitude r); try done.
  by injection Hc as <-.
Qed.

Lemma length_dropna_filter (P : Map13.CrimeRow -> Prop)
    `{forall r, Decision (P r)} (df : list Map13.CrimeRow) :
  length (Map13.dropna (filter P df)) <= length df.
Proof.
  unfold Map13.dropna. etrans; [|apply (length_filter P)].
  generalize (filter P df). intros l.
  induction l as [|r l IH]; [done|]. cbn.
  destruct (Map13.Latitude r), (Map13.Longitude r); cbn; lia.
Qed.

Section Ranges.

Variable mean : list Q -> Q.
Variable n : nat.
Hypothesis latitude_within : stays_within mean (-90) 90 n.
Hypothesis longitude_within : stays_within mean (-180) 180 n.

Lemma means_in_range (P : Map13.CrimeRow -> Prop)
    `{forall r, Decision (P r)} (df : list Map13.CrimeRow) :
  length df <= n ->
  frame_in_range df ->
  Map13.dropna (filter P df) ≠ [] ->
  in_valid_range (mean (map fst (Map13.dropna (filter P df))))
    (mean (map snd (Map13.dropna (filter P df)))).
Proof using latitude_within longitude_within.
  intros Hlen Hdf Hne.
  assert (Hall : forall c, c ∈ Map13.dropna (filter P df) ->
                           in_valid_range c.1 c.2).
  { intros c Hc. apply elem_of_dropna_filter in Hc.
    destruct Hc as (r & Hr & Hla & Hlo). eapply Hdf; eauto. }
  pose proof (length_dropna_filter P df) as Hle.
  split; [apply latitude_within|apply longitude_within];
    try (by destruct (Map13.dropna _));
    try (rewrite length_map; lia);
    apply Forall_forall; intros x Hx; apply list_elem_of_fmap in Hx;
    destruct Hx as (c & -> & Hc); apply Hall in Hc; apply Hc.
Qed.

Lemma frame_in_range_step df index row :
  length df <= n ->
  frame_in_range df -> frame_in_range (Map13.approximate_row mean df index row).
Proof using latitude_within longitude_within.
  intros Hlen Hdf.
  destruct (decide (unresolved row)) as [Hun|Hres];
    [|by rewrite approximate_row_resolved].
  destruct (approximate_row_written mean df index row Hun)
    as [[_ ->]|(l & Hne & _ & Hl & ->)]; [done|].
  assert (Hr : in_valid_range (mean (map fst l)) (mean (map snd l))).
  { destruct Hl as [-> | ->]; by apply means_in_range. }
  intros r la lo Hin Hla Hlo.
  apply list_elem_of_lookup in Hin. destruct Hin as [j Hj].
  destruct (decide (index = j)) as [->|Hne'].
  - assert (Hlt : j < length df).
    { apply lookup_lt_Some in Hj. by rewrite set_coordinates_length in Hj. }
    destruct (lookup_lt_is_Some_2 df j Hlt) as [r0 Hr0].
    erewrite set_coordinates_lookup_eq in Hj by eauto.
    injection Hj as <-. simpl in *. by injection Hla as <-; injection Hlo as <-.
  - rewrite set_coordinates_lookup_ne in Hj by done.
    eapply Hdf; eauto. apply list_elem_of_lookup. eauto.
Qed.

Lemma frame_in_range_from rows : forall index df,
  length df <= n ->
  frame_in_range df ->
  frame_in_range (Map13.approximate_from mean index rows df).
Proof using latitude_within longitude_within.
  induction rows as [|r rest IH]; intros index df Hlen H; [done|].
  simpl. apply IH.
  - by rewrite approximate_row_length.
  - by apply frame_in_range_step.
Qed.

End Ranges.

(** X3. The approximation keeps coordinates in range, for every mean
    that keeps the latitudes of a frame within [-90, 90] and its
    longitudes within [-180, 180], as the arithmetic mean does: on a
    frame whose coordinates are all within [-90, 90] x [-180, 180], every
    coordinate pair of the result is. So after [match_coordinates] and
    [approximate_missing_locations], as [main] runs them, every record
    that has coordinates has them in range. *)
Theorem pipeline_in_range {W : Type} (w : W) (mean : list Q -> Q)
    (crime_data : list Map13.CrimeRow) (features : list Map13.Feature) :
  stays_within mean (-90) 90 (length crime_data) ->
  stays_within mean (-180) 180 (length crime_data) ->
  ((frame_in_range crime_data ->
    frame_in_range (eval (Map13.approximate_missing_locations mean crime_data) w)) /\
   frame_in_range
     (eval (Map13.approximate_missing_locations mean
              (Map13.match_coordinates crime_data features)) w)) /\
  (forall lo hi n, stays_within arithmetic_mean lo hi n).
Proof.
  intros Hla Hlo. split; [split|].
  - by apply (frame_in_range_from mean (length crime_data)).
  - apply (frame_in_range_from mean (length crime_data)); auto.
    + unfold Map13.match_coordinates. by rewrite length_map.
    + intros row la lo Hin. by eapply match_coordinates_in_range.
  - apply arithmetic_mean_stays_within.
Qed.

Lemma pipeline_in_range_witness :
  frame_in_range
    (eval (Map13.approximate_missing_locations arithmetic_mean
             (Map13.match_coordinates Sample.scenario
                [Sample.colaba_feature (728 # 10) (189 # 10)])) tt).
Proof.
  apply (pipeline_in_range tt arithmetic_mean Sample.scenario
           [Sample.colaba_feature (728 # 10) (189 # 10)]);
    apply arithmetic_mean_stays_within.
Defined.

(** ** map13: [match_coordinates] *)

Lemma match_row_fields d row : same_fields row (Map13.match_row d row).
Proof. unfold Map13.match_row. by destruct (d !! _) as [[la lo]|]. Qed.

(** The row [match_row] makes depends on the key of the record alone. *)
Lemma match_row_same_fields d r1 r2 :
  same_fields r1 r2 -> Map13.match_row d r1 = Map13.match_row d r2.
Proof.
  intros (Hs & Hd & Hp). unfold Map13.match_row. by rewrite Hs, Hd, Hp.
Qed.

Lemma match_row_coordinates d row :
  (Map13.Latitude (Map13.match_row d row),
   Map13.Longitude (Map13.match_row d row)) =
  match d !! (Map13.str (Map13.State_UT_Name row),
              Map13.str (Map13.District row),
              Map13.str (Map13.Police_Station row)) with
  | Some (la, lo) => (Some la, Some lo)
  | None => (None, None)
  end.
Proof. unfold Map13.match_row. by destruct (d !! _) as [[la lo]|]. Qed.

Lemma length_omap_cons {A B} (f : A -> option B) (x : A) (l : list A) :
  length (omap f (x :: l)) =
  match f x with Some _ => 1 | None => 0 end + length (omap f l).
Proof. simpl. by destruct (f x). Qed.

Lemma match_coordinates_count crime_data features :
  length (Map13.unmatched_entries crime_data features) +
  length (Map13.dropna (Map13.match_coordinates crime_data features)) =
  length crime_data.
Proof.
  unfold Map13.unmatched_entries, Map13.match_coordinates, Map13.dropna.
  induction crime_data as [|row rest IH]; [done|].
  pose proof (match_row_coordinates
                (Map13.police_station_coords features) row) as Hc.
  rewrite map_cons, !length_omap_cons.
  destruct (Map13.police_station_coords features !! _) as [[la lo]|];
    injection Hc as Hla Hlo; rewrite Hla, ?Hlo; simpl length; lia.
Qed.

Lemma omap_Forall2_ext {A B} (R : A -> A -> Prop) (f : A -> option B) l1 l2 :
  (forall x y, R x y -> f x = f y) ->
  Forall2 R l1 l2 -> omap f l1 = omap f l2.
Proof.
  intros Hf. induction 1 as [|x y l1 l2 Hxy _ IH]; [done|].
  simpl. rewrite (Hf x y Hxy). destruct (f y); [f_equal|]; exact IH.
Qed.

(** X4. [match_coordinates] gives every record either the coordinates of
    its (state, district, police station) key or one line in
    [unmatched_entries], never both, so the two counts add up to the number
    of records; it keeps the order and the three key fields; and whatever
    coordinates the frame came with play no part, since two frames that
    agree on the keys get the same result. *)
Theorem every_record_matched_or_reported
    (crime_data other : list Map13.CrimeRow) (features : list Map13.Feature) :
  Forall2 same_fields crime_data other ->
  Map13.match_coordinates crime_data features =
    Map13.match_coordinates other features /\
  Map13.unmatched_entries crime_data features =
    Map13.unmatched_entries other features /\
  length (Map13.unmatched_entries crime_data features) +
  length (Map13.dropna (Map13.match_coordinates crime_data features)) =
    length crime_data /\
  Forall2 same_fields crime_data
    (Map13.match_coordinates crime_data features) /\
  (forall row,
     row ∈ Map13.match_coordinates crime_data features ->
     is_Some (Map13.Latitude row) <-> is_Some (Map13.Longitude row)).
Proof.
  intros Hsame. split; [|split; [|split; [|split]]].
  - unfold Map13.match_coordinates.
    induction Hsame as [|r1 r2 l1 l2 Hr _ IH]; [done|].
    simpl. by rewrite IH, (match_row_same_fields _ _ _ Hr).
  - unfold Map13.unmatched_entries.
    apply (omap_Forall2_ext same_fields); [|done].
    intros x y (Hs & Hd & Hp). by rewrite Hs, Hd, Hp.
  - apply match_coordinates_count.
  - unfold Map13.match_coordinates. clear Hsame.
    induction crime_data as [|r l IH]; constructor; [apply match_row_fields|done].
  - intros row Hin. unfold Map13.match_coordinates in Hin.
    apply list_elem_of_fmap in Hin. destruct Hin as (r0 & -> & _).
    unfold Map13.match_row.
    destruct (Map13.police_station_coords features !! _) as [[la lo]|]; simpl.
    + split; eauto.
    + split; intros [? ?]; discriminate.
Qed.

Lemma every_record_matched_or_reported_witness :
  Map13.match_coordinates Sample.scenario [] =
  Map13.match_coordinates
    (eval (Map13.approximate_missing_locations arithmetic_mean Sample.scenario) tt) [].
Proof.
  apply (every_record_matched_or_reported Sample.scenario
           (eval (Map13.approximate_missing_locations arithmetic_mean Sample.scenario) tt) []).
  repeat constructor.
Defined.

(** A list of features none of which is valid for the key does not touch
    the key, whatever the table was. *)
Lemma fold_features_other (features : list Map13.Feature)
    (key : string * string * string) :
  (forall feature value,
     feature ∈ features -> Map13.feature_entry feature ≠ Some (key, value)) ->
  forall d : gmap (string * string * string) (Q * Q),
  fold_left
    (fun d feature =>
       match Map13.feature_entry feature with
       | Some (key, value) => <[key := value]> d
       | None => d
       end) features d !! key = d !! key.
Proof.
  induction features as [|f fs IH]; intros H d; [done|].
  simpl. rewrite IH.
  - destruct (Map13.feature_entry f) as [[k v]|] eqn:Hf; [|done].
    apply lookup_insert_ne. intros ->. by apply (H f v); [left|].
  - intros f' v' Hin. apply H. by right.
Qed.

Lemma fold_features_origin (features : list Map13.Feature)
    (key : string * string * string) :
  forall d : gmap (string * string * string) (Q * Q),
  is_Some
    (fold_left
       (fun d feature =>
          match Map13.feature_entry feature with
          | Some (key, value) => <[key := value]> d
          | None => d
          end) features d !! key) ->
  is_Some (d !! key) \/
  exists f value, f ∈ features /\ Map13.feature_entry f = Some (key, value).
Proof.
  induction features as [|f fs IH]; intros d H; [by left|].
  simpl in H. apply IH in H. destruct H as [H|(f' & v & Hin & Hv)].
  - destruct (Map13.feature_entry f) as [[k v]|] eqn:Hf; [|by left].
    destruct (decide (k = key)) as [->|Hne].
    + right. exists f, v. split; [left|done].
    + left. by rewrite lookup_insert_ne in H.
  - right. exists f', v. split; [by right|done].
Qed.

(** X5. In [police_station_coords] the last valid feature of a key
    decides: a feature that passes the checks gives its key its
    coordinates, replacing what earlier features of the same key gave, and
    is kept unless a later valid feature has the same key; features that
    are skipped (missing properties, fewer than two coordinates, a
    coordinate that is not a number or out of range) change nothing, so a
    key is in the table only if some feature is valid for it. *)
Theorem last_valid_feature_wins
    (before after : list Map13.Feature) (feature : Map13.Feature)
    (key : string * string * string) (value : Q * Q) :
  Map13.feature_entry feature = Some (key, value) ->
  (forall later value',
     later ∈ after -> Map13.feature_entry later ≠ Some (key, value')) ->
  Map13.police_station_coords (before ++ feature :: after) !! key = Some value /\
  (forall features key',
     is_Some (Map13.police_station_coords features !! key') ->
     exists f value',
       f ∈ features /\ Map13.feature_entry f = Some (key', value')).
Proof.
  intros Hf Hafter. split.
  - unfold Map13.police_station_coords.
    rewrite fold_left_app. simpl. rewrite Hf.
    rewrite fold_features_other by done. apply lookup_insert_eq.
  - intros features key' Hsome.
    apply fold_features_origin in Hsome. destruct Hsome as [H|H]; [|done].
    rewrite lookup_empty in H. by destruct H.
Qed.

Lemma last_valid_feature_wins_witness :
  Map13.police_station_coords
    [Sample.colaba_feature (700 # 10) (180 # 10);
     Sample.colaba_feature (728 # 10) (189 # 10);
     Sample.colaba_feature (728 # 10) 95] !! Sample.colaba_key =
  Some (189 # 10, 728 # 10)%Q.
Proof.
  apply (last_valid_feature_wins
           [Sample.colaba_feature (700 # 10) (180 # 10)]
           [Sample.colaba_feature (728 # 10) 95]
           (Sample.colaba_feature (728 # 10) (189 # 10))
           Sample.colaba_key (189 # 10, 728 # 10)%Q).
  - reflexivity.
  - intros later value' Hin. apply list_elem_of_singleton in Hin. subst later.
    vm_compute. discriminate.
Defined.

(** ** map9: what a run leaves in the cache *)

Section Run_facts.

Variable remote : nat -> string -> http_reply.
Variable elapse : nat -> Q.
Variable md5_hexdigest : string -> string.

Local Abbreviation process_location := (Map9.process_location remote elapse md5_hexdigest).
Local Abbreviation process_batch := (Map9.process_batch remote elapse md5_hexdigest).
Local Abbreviation get_location_hash := (Map9.get_location_hash md5_hexdigest).

(** One call: the table after is the table before, or the table before
    with the row of the query written anew after one request. *)
Lemma process_location_step q w :
  (Map9.select_successful (get_location_hash q) (Map9.locations w) ≠ None /\
   exec (process_location q) w = w) \/
  (Map9.select_successful (get_location_hash q) (Map9.locations w) = None /\
   Map9.requests (exec (process_location q) w) = Map9.requests w ++ [q] /\
   exists r,
     Map9.locations (exec (process_location q) w) =
       <[get_location_hash q := r]> (Map9.locations w) /\
     Map9.attempts r =
       Some (Map9.next_attempts (get_location_hash q) (Map9.locations w))).
Proof.
  destruct (Map9.select_successful (get_location_hash q) (Map9.locations w))
    as [c|] eqn:Hsel.
  - left. split; [done|]. unfold exec.
    by erewrite process_location_hit by eauto.
  - right. split; [done|].
    destruct (process_location_row remote elapse md5_hexdigest q w Hsel)
      as (r & Hl & _ & _ & _ & _ & Ha & _).
    split; [|eauto].
    unfold exec, Map9.process_location, bind, get. rewrite Hsel.
    pose proof (geocode_requests remote elapse q w) as Hr. unfold exec in Hr.
    destruct (Map9.geocode remote elapse q w) as [[lat lon] w1]; cbn in *.
    by rewrite Hr.
Qed.

Lemma select_successful_None_inv h t r :
  Map9.select_successful h t = None -> t !! h = Some r ->
  Map9.success r = false.
Proof.
  unfold Map9.select_successful. intros H Hr. rewrite Hr in H.
  by destruct (Map9.success r).
Qed.

Lemma process_location_keeps_rows q w h :
  is_Some (Map9.locations w !! h) ->
  is_Some (Map9.locations (exec (process_location q) w) !! h).
Proof.
  intros Hh.
  destruct (process_location_step q w) as [[_ ->]|(_ & _ & r & -> & _)];
    [done|].
  destruct (decide (get_location_hash q = h)) as [->|Hne].
  - rewrite lookup_insert_eq. eauto.
  - by rewrite lookup_insert_ne.
Qed.

Lemma process_batch_keeps_rows qs : forall w h,
  is_Some (Map9.locations w !! h) ->
  is_Some (Map9.locations (exec (process_batch qs) w) !! h).
Proof.
  induction qs as [|q qs IH]; intros w h Hh; [done|].
  rewrite process_batch_cons. by apply IH, process_location_keeps_rows.
Qed.

Lemma process_location_writes_row q w :
  is_Some (Map9.locations (exec (process_location q) w) !! get_location_hash q).
Proof.
  destruct (process_location_step q w) as [[Hsel ->]|(_ & _ & r & -> & _)].
  - unfold Map9.select_successful in Hsel.
    destruct (Map9.locations w !! get_location_hash q); [eauto|done].
  - rewrite lookup_insert_eq. eauto.
Qed.

(** X6. After [process_batch] every location of the batch has a row in
    the table, and every hash that had a row before still has one: the
    run adds and rewrites rows, it never removes one. *)
Theorem every_location_gets_a_row (qs : list string) (w : Map9.World) :
  (forall q, q ∈ qs ->
     is_Some (Map9.locations (exec (process_batch qs) w) !! get_location_hash q)) /\
  (forall h,
     is_Some (Map9.locations w !! h) ->
     is_Some (Map9.locations (exec (process_batch qs) w) !! h)).
Proof.
  split; [|apply process_batch_keeps_rows].
  revert w. induction qs as [|q qs IH]; intros w q' Hin; [by inversion Hin|].
  rewrite process_batch_cons.
  apply elem_of_cons in Hin. destruct Hin as [->|Hin]; [|by apply IH].
  apply process_batch_keeps_rows, process_location_writes_row.
Qed.

(** X8. A successful row is never touched again: whatever the batch and
    whatever the service answers, a row with [success = 1] is the same
    row after the run. *)
Theorem successful_row_is_kept (qs : list string) (w : Map9.World)
    (h : string) (r : Map9.LocationRow) :
  Map9.locations w !! h = Some r ->
  Map9.success r = true ->
  Map9.locations (exec (process_batch qs) w) !! h = Some r.
Proof.
  revert w. induction qs as [|q qs IH]; intros w Hr Hs; [done|].
  rewrite process_batch_cons. apply IH; [|done].
  destruct (process_location_step q w) as [[_ ->]|(Hsel & _ & r' & -> & _)];
    [done|].
  rewrite lookup_insert_ne; [done|].
  intros Heq. rewrite Heq in Hsel.
  pose proof (select_successful_None_inv _ _ _ Hsel Hr). congruence.
Qed.

Lemma requests_for_app h l1 l2 :
  requests_for md5_hexdigest h (l1 ++ l2) =
  requests_for md5_hexdigest h l1 + requests_for md5_hexdigest h l2.
Proof. unfold requests_for. by rewrite filter_app, length_app. Qed.

Lemma attempts_counted_step q w :
  attempts_counted md5_hexdigest w ->
  attempts_counted md5_hexdigest (exec (process_location q) w).
Proof.
  intros Hinv.
  destruct (process_location_step q w) as [[_ ->]|(_ & Hreq & r & Hl & Ha)];
    [done|].
  intros h. rewrite Hl, Hreq, requests_for_app.
  specialize (Hinv h).
  destruct (decide (get_location_hash q = h)) as [<-|Hne].
  - rewrite lookup_insert_eq, Ha. unfold Map9.next_attempts.
    assert (H1 : requests_for md5_hexdigest (get_location_hash q) [q] = 1).
    { unfold requests_for. rewrite filter_cons_True by done. done. }
    rewrite H1.
    destruct (Map9.locations w !! get_location_hash q) as [old|].
    + rewrite Hinv. f_equal. lia.
    + rewrite Hinv. done.
  - rewrite lookup_insert_ne by done.
    assert (H0 : requests_for md5_hexdigest h [q] = 0).
    { unfold requests_for. rewrite filter_cons_False by done. done. }
    rewrite H0, Nat.add_0_r. exact Hinv.
Qed.

(** X7. [attempts] counts the requests sent: if in every row [attempts]
    is the number of requests made so far for the row's hash, and hashes
    without a row have had none (as on a fresh database), the same holds
    after any run, so a cache hit never counts as an attempt and every
    request does. *)
Theorem attempts_count_requests (qs : list string) (w : Map9.World) :
  attempts_counted md5_hexdigest w ->
  attempts_counted md5_hexdigest (exec (process_batch qs) w).
Proof.
  revert w. induction qs as [|q qs IH]; intros w H; [done|].
  rewrite process_batch_cons. by apply IH, attempts_counted_step.
Qed.

End Run_facts.

Lemma successful_row_is_kept_witness :
  Map9.locations
    (exec (Map9.process_batch Sample.beyond_the_pole Sample.steady
             Hashlib.md5_hexdigest [Sample.goa; Sample.nowhere]) Sample.warm9)
    !! Hashlib.md5_hexdigest Sample.goa = Some Sample.goa_row.
Proof.
  apply (successful_row_is_kept Sample.beyond_the_pole Sample.steady
           Hashlib.md5_hexdigest [Sample.goa; Sample.nowhere] Sample.warm9
           (Hashlib.md5_hexdigest Sample.goa) Sample.goa_row).
  - vm_compute. reflexivity.
  - reflexivity.
Defined.

Lemma attempts_count_requests_witness :
  attempts_counted Hashlib.md5_hexdigest
    (exec (Map9.process_batch Sample.no_results Sample.steady
             Hashlib.md5_hexdigest [Sample.nowhere; Sample.nowhere])
          (Sample.world9 ∅)).
Proof.
  apply (attempts_count_requests Sample.no_results Sample.steady
           Hashlib.md5_hexdigest [Sample.nowhere; Sample.nowhere]
           (Sample.world9 ∅)).
  intros h. simpl. rewrite lookup_empty. reflexivity.
Defined.

(** After two runs on a place the service does not know, its row says two
    attempts, and two requests were sent. *)
Example two_failures_two_attempts :
  let w := exec (Map9.process_batch Sample.no_results Sample.steady
                   Hashlib.md5_hexdigest [Sample.nowhere; Sample.nowhere])
                (Sample.world9 ∅) in
  (Map9.attempts <$>
     Map9.locations w !! Hashlib.md5_hexdigest Sample.nowhere) =
    Some (Some 2%Z) /\
  Map9.requests w = [Sample.nowhere; Sample.nowhere].
Proof. split; vm_compute; reflexivity. Qed.

(** ** map9: how long the gate holds a caller *)

Section Gate_delay.

Variable elapse : nat -> Q.

(** X9. A passage of the gate costs a caller at most
    [min_request_interval] beyond the time that passes anyway, and nothing
    beyond it when the last passage is at least [min_request_interval]
    back; after it [last_request_time] is the time on the clock. (The
    clock does not run backwards and has reached [last_request_time], as
    after every earlier passage.) *)
Theorem gate_delay_is_bounded (w : Map9.World) :
  (forall n, 0 <= elapse n)%Q ->
  (Map9.last_request_time (Map9.geocoder w) <= Map9.clock w)%Q ->
  (0 <= Map9.min_request_interval (Map9.geocoder w))%Q ->
  let w' := exec (Map9._rate_limit elapse) w in
  let passing := (elapse (Map9.reads w) + elapse (S (Map9.reads w)))%Q in
  (Map9.clock w + passing <= Map9.clock w')%Q /\
  (Map9.clock w' <=
   Map9.clock w + passing + Map9.min_request_interval (Map9.geocoder w))%Q /\
  (Map9.last_request_time (Map9.geocoder w) +
   Map9.min_request_interval (Map9.geocoder w) <=
   Map9.clock w + elapse (Map9.reads w) ->
   Map9.clock w' == Map9.clock w + passing)%Q /\
  Map9.last_request_time (Map9.geocoder w') = Map9.clock w'.
Proof.
  intros Hnn Hlast Hmin w' passing. subst w' passing.
  unfold exec, Map9._rate_limit, bind, get, Map9.time_time; cbn.
  pose proof (Hnn (Map9.reads w)) as H0.
  pose proof (Hnn (S (Map9.reads w))) as H1.
  destruct (Map9.Qltb _ _) eqn:Hlt; cbn.
  - unfold Map9.Qltb in Hlt. apply negb_true_iff in Hlt.
    assert (Hlt' : ~ (Map9.min_request_interval (Map9.geocoder w) <=
                      Map9.clock w + elapse (Map9.reads w) -
                      Map9.last_request_time (Map9.geocoder w))%Q).
    { intros H. apply Qle_bool_iff in H. congruence. }
    repeat split; try lra.
  - apply Qltb_false in Hlt. repeat split; lra.
Qed.

End Gate_delay.

Lemma gate_delay_is_bounded_witness :
  (Map9.clock (exec (Map9._rate_limit Sample.steady) (Sample.world9 ∅)) <=
   0 + ((1 # 100) + (1 # 100)) + (1 # 10))%Q.
Proof.
  apply (gate_delay_is_bounded Sample.steady (Sample.world9 ∅)).
  - intros n. unfold Sample.steady, Qle. simpl. lia.
  - unfold Qle. simpl. lia.
  - unfold Qle. simpl. lia.
Defined.

(** ** map9: the batches *)

Lemma range_up_slices {A} (locations : list A) (b : nat) :
  0 < b ->
  forall fuel i,
    length locations - i <= fuel ->
    let bs := map (fun i => take b (drop i locations))
                (Map9.range_up fuel i (length locations) b) in
    concat bs = drop i locations /\
    Forall (fun batch => 0 < length batch /\ length batch <= b) bs.
Proof.
  intros Hb. induction fuel as [|fuel IH]; intros i Hfuel; simpl.
  - split; [|constructor]. symmetry. apply drop_ge. lia.
  - destruct (i <? length locations)%nat eqn:Hi.
    + apply Nat.ltb_lt in Hi.
      destruct (IH (i + b)) as [Hc Hf]; [lia|].
      simpl. split.
      * rewrite Hc, <- (drop_drop locations b i). apply take_drop.
      * constructor; [|exact Hf].
        rewrite length_take, length_drop. lia.
    + apply Nat.ltb_ge in Hi. split; [|constructor].
      symmetry. apply drop_ge. lia.
Qed.

(** X16. Cutting the locations into batches loses and repeats nothing:
    for a positive [batch_size] the batches, in order, concatenate to the
    list of locations, none is empty and none is longer than
    [batch_size]. A [batch_size] of zero raises [ValueError], and a
    negative one gives no batch at all. *)
Theorem batches_cover {A} (locations : list A) (batch_size : Z) :
  (0 < batch_size)%Z ->
  (exists bs,
     Map9.batches locations batch_size = Some bs /\
     concat bs = locations /\
     Forall (fun batch =>
               0 < length batch /\ (Z.of_nat (length batch) <= batch_size)%Z)
       bs) /\
  Map9.batches locations 0 = None /\
  (forall negative, (negative < 0)%Z ->
     Map9.batches locations negative = Some []).
Proof.
  intros Hpos. split; [|split].
  - unfold Map9.batches.
    destruct (batch_size =? 0)%Z eqn:H0; [apply Z.eqb_eq in H0; lia|].
    destruct (batch_size <? 0)%Z eqn:H1; [apply Z.ltb_lt in H1; lia|].
    eexists. split; [reflexivity|].
    destruct (range_up_slices locations (Z.to_nat batch_size))
      with (fuel := length locations) (i := 0) as [Hc Hf]; [lia|lia|].
    split; [exact Hc|].
    eapply Forall_impl; [exact Hf|]. simpl. intros batch [H2 H3]. lia.
  - reflexivity.
  - intros negative Hneg. unfold Map9.batches.
    destruct (negative =? 0)%Z eqn:H0; [apply Z.eqb_eq in H0; lia|].
    destruct (negative <? 0)%Z eqn:H1; [done|apply Z.ltb_ge in H1; lia].
Qed.

Lemma batches_cover_witness :
  exists bs,
    Map9.batches ["a"; "b"; "c"; "d"; "e"] 2 = Some bs /\
    concat bs = ["a"; "b"; "c"; "d"; "e"].
Proof.
  destruct (batches_cover ["a"; "b"; "c"; "d"; "e"] 2) as [(bs & Hb & Hc & _) _].
  - lia.
  - exists bs. split; [exact Hb | exact Hc].
Defined.

(** ** map9: the final report *)

Lemma count_success_total (t : gmap string Map9.LocationRow) :
  Map9.count_success true t + Map9.count_success false t = size t.
Proof.
  unfold Map9.count_success.
  assert (Hfalse :
    filter (fun kr : string * Map9.LocationRow => Map9.success kr.2 = false) t =
    filter (fun kr => ~ Map9.success kr.2 = true) t).
  { apply map_filter_ext. intros i x _. simpl.
    destruct (Map9.success x); split; congruence. }
  rewrite Hfalse, <- map_size_disj_union
    by apply map_disjoint_filter_complement.
  by rewrite map_filter_union_complement.
Qed.

Section Report.

Variable remote : nat -> string -> http_reply.
Variable elapse : nat -> Q.
Variable md5_hexdigest : string -> string.

(** X15. In the final report of [preprocess_locations] the two counts
    add up to the number of rows of the table. The success rate divides by
    their sum: it raises [ZeroDivisionError] exactly when the table is
    empty, and is between 0 and 100 otherwise. After a run over at least
    one location the table is not empty, so the report does not raise. *)
Theorem report_adds_up (t : gmap string Map9.LocationRow) :
  let '(successful, failed, rate) := Map9.statistics t in
  successful + failed = size t /\
  (rate = None <-> t = ∅) /\
  (forall x, rate = Some x -> 0 <= x /\ x <= 100)%Q /\
  (forall q qs w,
     (Map9.statistics
        (Map9.locations
           (exec (Map9.process_batch remote elapse md5_hexdigest (q :: qs)) w))).2
     ≠ None).
Proof.
  assert (Hrate : forall t : gmap string Map9.LocationRow,
    (Map9.statistics t).2 = None <-> t = ∅).
  { intros t0. unfold Map9.statistics, Map9.success_rate. simpl.
    rewrite count_success_total.
    destruct (size t0 =? 0)%nat eqn:Hs.
    - apply Nat.eqb_eq in Hs. split; [intros _; by apply map_size_empty_inv|done].
    - apply Nat.eqb_neq in Hs. split; [done|]. intros ->.
      by rewrite map_size_empty in Hs. }
  pose proof (Hrate t) as Ht.
  pose proof (count_success_total t) as Hsum.
  unfold Map9.statistics in *. simpl in Ht.
  split; [exact Hsum|]. split; [exact Ht|]. split.
  - unfold Map9.success_rate. rewrite Hsum.
    destruct (size t =? 0)%nat eqn:Hs; [done|].
    apply Nat.eqb_neq in Hs. intros x Hx. injection Hx as <-.
    assert (Hpos : (0 < inject_Z (Z.of_nat (size t)))%Q)
      by (apply inject_nat_pos; lia).
    assert (Hle : (inject_Z (Z.of_nat (Map9.count_success true t)) <=
                   inject_Z (Z.of_nat (size t)))%Q)
      by (rewrite <- Zle_Qle; lia).
    assert (H0 : (0 <= inject_Z (Z.of_nat (Map9.count_success true t)))%Q)
      by (change 0%Q with (inject_Z 0); rewrite <- Zle_Qle; lia).
    set (s := inject_Z (Z.of_nat (Map9.count_success true t))) in *.
    set (n := inject_Z (Z.of_nat (size t))) in *.
    assert (Hd0 : (0 <= s / n)%Q).
    { apply Qle_shift_div_l; [done|]. lra. }
    assert (Hd1 : (s / n <= 1)%Q).
    { apply Qle_shift_div_r; [done|]. lra. }
    split; lra.
  - intros q qs w Hnone. apply Hrate in Hnone.
    rewrite process_batch_cons in Hnone.
    pose proof (process_batch_keeps_rows remote elapse md5_hexdigest qs _ _
                  (process_location_writes_row remote elapse md5_hexdigest q w))
      as [r Hr].
    rewrite Hnone, lookup_empty in Hr. done.
Qed.

End Report.

(** ** map10: the cache *)

Section Map10_more.

Variable remote : nat -> string -> http_reply.

Local Abbreviation geocode_location := (Map10.geocode_location remote).

Lemma cache_lat_long_lookup q query latitude longitude w :
  Map10.geocoded_locations
    (exec (Map10.cache_lat_long query latitude longitude) w) !! q =
  match Map10.geocoded_locations w !! q with
  | Some row => Some row
  | None => written_numbers q (query, latitude, longitude)
  end.
Proof.
  unfold exec, Map10.cache_lat_long, written_numbers; cbn.
  destruct (decide (query = q)) as [->|Hne].
  - rewrite bool_decide_eq_true_2 by done.
    destruct (Map10.geocoded_locations w !! q) as [row|] eqn:Hq.
    + by rewrite Hq.
    + destruct latitude as [[la|]|], longitude as [[lo|]|]; cbn;
        rewrite ?Hq; try done.
      by rewrite lookup_insert_eq.
  - rewrite bool_decide_eq_false_2 by done.
    assert (Hsame :
      match Map10.geocoded_locations w !! query,
            bind_real latitude, bind_real longitude with
      | None, Some la, Some lo =>
          <[query := (la, lo)]> (Map10.geocoded_locations w)
      | _, _, _ => Map10.geocoded_locations w
      end !! q = Map10.geocoded_locations w !! q).
    { destruct (Map10.geocoded_locations w !! query),
        (bind_real latitude), (bind_real longitude); try done.
      by rewrite lookup_insert_ne. }
    rewrite Hsame. by destruct (Map10.geocoded_locations w !! q).
Qed.

Lemma first_numbers_cons q write writes :
  first_numbers q (write :: writes) =
  match written_numbers q write with
  | Some row => Some row
  | None => first_numbers q writes
  end.
Proof.
  unfold first_numbers. cbn. by destruct (written_numbers q write).
Qed.

Lemma cache_all_cons query latitude longitude writes w :
  exec (cache_all ((query, latitude, longitude) :: writes)) w =
  exec (cache_all writes)
    (exec (Map10.cache_lat_long query latitude longitude) w).
Proof. reflexivity. Qed.

(** X10. The cache of map10 keeps the first pair of numbers written for
    a query. After any sequence of [cache_lat_long] calls, the row of a
    query is the row it had before, if it had one; otherwise it is the
    first pair in the sequence that was written for this query with both
    coordinates numbers: writes with a [None] or a NaN in them, writes for
    other queries and all later writes for the query leave no trace. What
    [get_cached_lat_long] then returns is that row, or [(None, None)]
    when there is none. *)
Theorem first_write_wins
    (writes : list (string * option float * option float))
    (q : string) (w : Map10.World) :
  let w' := exec (cache_all writes) w in
  Map10.geocoded_locations w' !! q =
    match Map10.geocoded_locations w !! q with
    | Some row => Some row
    | None => first_numbers q writes
    end /\
  eval (Map10.get_cached_lat_long q) w' =
    match Map10.geocoded_locations w' !! q with
    | Some (la, lo) => (Some (Num la), Some (Num lo))
    | None => (None, None)
    end.
Proof.
  cbn zeta. split; [|reflexivity].
  revert w. induction writes as [|[[query latitude] longitude] writes IH];
    intros w.
  - cbn. by destruct (Map10.geocoded_locations w !! q).
  - rewrite cache_all_cons, IH, cache_lat_long_lookup, first_numbers_cons.
    by destruct (Map10.geocoded_locations w !! q),
      (written_numbers q (query, latitude, longitude)).
Qed.

(** One call of [geocode_location], taken apart. *)
Lemma geocode_location_cases (rem : nat -> string -> http_reply) q w :
  (exists la lo,
     Map10.geocoded_locations w !! q = Some (la, lo) /\
     eval (Map10.geocode_location rem q) w = (Some (Num la), Some (Num lo)) /\
     Map10.requests (exec (Map10.geocode_location rem q) w) = Map10.requests w /\
     Map10.geocoded_locations (exec (Map10.geocode_location rem q) w) =
       Map10.geocoded_locations w /\
     Map10.sleeps (exec (Map10.geocode_location rem q) w) = Map10.sleeps w) \/
  (Map10.geocoded_locations w !! q = None /\
   Map10.requests (exec (Map10.geocode_location rem q) w) = Map10.requests w ++ [q] /\
   Map10.sleeps (exec (Map10.geocode_location rem q) w) = Map10.sleeps w /\
   Map10.geocoded_locations (exec (Map10.geocode_location rem q) w) =
     match eval (Map10.geocode_location rem q) w with
     | (Some (Num la), Some (Num lo)) =>
         <[q := (la, lo)]> (Map10.geocoded_locations w)
     | _ => Map10.geocoded_locations w
     end).
Proof.
  pose proof (geocode_location_table rem q w) as Ht.
  destruct (Map10.geocoded_locations w !! q) as [[la lo]|] eqn:Hq.
  - left. exists la, lo. split; [done|].
    unfold eval, exec. by erewrite geocode_location_hit by eauto.
  - right. split; [done|]. split; [|split; [|exact Ht]].
    + unfold exec, Map10.geocode_location, bind, Map10.get_cached_lat_long.
      rewrite Hq. cbn.
      unfold Map10.requests_get, Map10.cache_lat_long, Map10.say, ret; cbn.
      by destruct (fetch_json _) as [e|[|p l]].
    + unfold exec, Map10.geocode_location, bind, Map10.get_cached_lat_long.
      rewrite Hq. cbn.
      unfold Map10.requests_get, Map10.cache_lat_long, Map10.say, ret; cbn.
      by destruct (fetch_json _) as [e|[|p l]].
Qed.

(** X12. A query is asked until it is once answered with two numbers,
    and never again after: when [geocode_location] has returned a pair of
    numbers, every later call returns that pair and sends nothing,
    whatever the service would say; when it has returned anything else (a
    [None] or a NaN in the pair), nothing was cached and the next call
    sends the query again. *)
Theorem asked_until_found (remote' : nat -> string -> http_reply)
    (q : string) (w : Map10.World) :
  let w1 := exec (geocode_location q) w in
  match eval (geocode_location q) w with
  | (Some (Num la), Some (Num lo)) =>
      eval (Map10.geocode_location remote' q) w1 = (Some (Num la), Some (Num lo)) /\
      Map10.requests (exec (Map10.geocode_location remote' q) w1) =
        Map10.requests w1
  | _ =>
      Map10.geocoded_locations w1 = Map10.geocoded_locations w /\
      Map10.requests (exec (Map10.geocode_location remote' q) w1) =
        Map10.requests w1 ++ [q]
  end.
Proof.
  cbn zeta.
  assert (Hhit : forall la lo,
    Map10.geocoded_locations (exec (geocode_location q) w) !! q = Some (la, lo) ->
    eval (Map10.geocode_location remote' q) (exec (geocode_location q) w) =
      (Some (Num la), Some (Num lo)) /\
    Map10.requests
      (exec (Map10.geocode_location remote' q) (exec (geocode_location q) w)) =
      Map10.requests (exec (geocode_location q) w)).
  { intros la lo Hq1. unfold eval at 1, exec at 2.
    by rewrite (geocode_location_hit remote' _ _ _ _ Hq1). }
  assert (Hmiss :
    Map10.geocoded_locations w !! q = None ->
    Map10.geocoded_locations (exec (geocode_location q) w) =
      Map10.geocoded_locations w ->
    Map10.geocoded_locations (exec (geocode_location q) w) =
      Map10.geocoded_locations w /\
    Map10.requests
      (exec (Map10.geocode_location remote' q) (exec (geocode_location q) w)) =
      Map10.requests (exec (geocode_location q) w) ++ [q]).
  { intros Hq Ht. split; [done|].
    destruct (geocode_location_cases remote' q (exec (geocode_location q) w))
      as [(la' & lo' & Hq' & _)|(_ & Hr' & _)]; [|done].
    rewrite Ht, Hq in Hq'. done. }
  destruct (geocode_location_cases remote q w)
    as [(la & lo & Hq & -> & Hr & Ht & _)|(Hq & Hr & _ & Ht)].
  - apply Hhit. by rewrite Ht.
  - destruct (eval (geocode_location q) w) as [[[la|]|] [[lo|]|]] eqn:He;
      try by apply Hmiss.
    apply Hhit. by rewrite Ht, lookup_insert_eq.
Qed.

(** The NaN case on a sample: the pair is returned, nothing is cached,
    and the next call asks again. *)
Example nan_pair_is_not_cached :
  let w1 := exec (Map10.geocode_location Sample.not_a_number Sample.nowhere)
              (Sample.world10 ∅) in
  eval (Map10.geocode_location Sample.not_a_number Sample.nowhere)
    (Sample.world10 ∅) = (Some NaN, Some (Num (741 # 10))) /\
  Map10.geocoded_locations w1 = ∅ /\
  Map10.requests
    (exec (Map10.geocode_location Sample.not_a_number Sample.nowhere) w1) =
  [Sample.nowhere; Sample.nowhere].
Proof. cbn zeta. split; [|split]; vm_compute; reflexivity. Qed.

End Map10_more.

(** ** map10: the loop of [preprocess_data] *)

Section Map10_loop.

Variable remote : nat -> string -> http_reply.

Lemma geocode_all_cons q qs w :
  Map10.geocode_all remote (q :: qs) w =
    let w0 := exec (Map10.say ("Processing " +:+ q)) w in
    let r := eval (Map10.geocode_location remote q) w0 in
    let w1 := exec (Map10.geocode_location remote q) w0 in
    let w2 := exec (Map10.time_sleep Map10.RATE_LIMIT) w1 in
    (r :: eval (Map10.geocode_all remote qs) w2,
     exec (Map10.geocode_all remote qs) w2).
Proof.
  cbn zeta. unfold eval, exec. simpl Map10.geocode_all. unfold bind at 1 2 3 4.
  cbn [Map10.say fst snd].
  destruct (Map10.geocode_location remote q _) as [r w1]. cbn [fst snd].
  unfold Map10.time_sleep at 1. cbn [fst snd].
  by destruct (Map10.geocode_all remote qs _) as [rs w2].
Qed.

Lemma geocode_all_paced qs : forall w,
  length (eval (Map10.geocode_all remote qs) w) = length qs /\
  Map10.sleeps (exec (Map10.geocode_all remote qs) w) =
    Map10.sleeps w ++ replicate (length qs) Map10.RATE_LIMIT /\
  (length (Map10.requests w) <=
     length (Map10.requests (exec (Map10.geocode_all remote qs) w)) <=
     length (Map10.requests w) + length qs)%nat.
Proof.
  induction qs as [|q qs IH]; intros w.
  - cbn. rewrite app_nil_r. split; [done|]. split; [done|]. lia.
  - unfold eval, exec. rewrite geocode_all_cons. cbn zeta. cbn [fst snd].
    set (w0 := exec (Map10.say ("Processing " +:+ q)) w).
    set (w1 := exec (Map10.geocode_location remote q) w0).
    set (w2 := exec (Map10.time_sleep Map10.RATE_LIMIT) w1).
    destruct (IH w2) as (Hl & Hs & Hr).
    split; [by rewrite length_cons, Hl|].
    assert (Hs0 : Map10.sleeps w0 = Map10.sleeps w) by done.
    assert (Hr0 : Map10.requests w0 = Map10.requests w) by done.
    assert (Hs2 : Map10.sleeps w2 = Map10.sleeps w1 ++ [Map10.RATE_LIMIT])
      by done.
    assert (Hr2 : Map10.requests w2 = Map10.requests w1) by done.
    assert (Hs1 : Map10.sleeps w1 = Map10.sleeps w0).
    { subst w1. by destruct (geocode_location_cases remote q w0)
        as [(la & lo & _ & _ & _ & _ & H)|(_ & _ & H & _)]. }
    assert (Hr1 : (length (Map10.requests w0) <= length (Map10.requests w1)
                   <= length (Map10.requests w0) + 1)%nat).
    { subst w1. destruct (geocode_location_cases remote q w0)
        as [(la & lo & _ & _ & H & _)|(_ & H & _)]; rewrite H.
      - lia.
      - rewrite length_app. cbn. lia. }
    split.
    + rewrite Hs, Hs2, Hs1, Hs0, <- app_assoc. done.
    + rewrite Hr2 in Hr. rewrite Hr0 in Hr1. cbn [length]. lia.
Qed.

Lemma total_sleep_app l1 l2 :
  (total_sleep (l1 ++ l2) == total_sleep l1 + total_sleep l2)%Q.
Proof.
  unfold total_sleep.
  induction l1 as [|x l1 IH]; simpl; [ring|]. rewrite IH. ring.
Qed.

Lemma total_sleep_replicate n (d : Q) :
  (total_sleep (replicate n d) == inject_Z (Z.of_nat n) * d)%Q.
Proof.
  unfold total_sleep.
  induction n as [|n IH].
  - simpl. ring.
  - rewrite Nat2Z.inj_succ, <- Z.add_1_r, inject_Z_plus.
    cbn [replicate fold_right]. rewrite IH. ring.
Qed.

(** X11. [preprocess_data] of map10/preprocessing.py returns one pair
    for every row of the CSV, sleeps [RATE_LIMIT] after every row, cached
    or not, so that a run over n rows sleeps 1.5 * n seconds even when
    every query is in the cache, and sends at most one request for each
    row. *)
Theorem every_row_is_paced (data : list Map9.CsvRow) (w : Map10.World) :
  let rs := eval (Map10.preprocess_data remote data) w in
  let w' := exec (Map10.preprocess_data remote data) w in
  length rs = length data /\
  Map10.sleeps w' =
    Map10.sleeps w ++ replicate (length data) Map10.RATE_LIMIT /\
  (total_sleep (Map10.sleeps w') ==
     total_sleep (Map10.sleeps w) + inject_Z (Z.of_nat (length data)) * (3 # 2))%Q /\
  (length (Map10.requests w) <= length (Map10.requests w') <=
     length (Map10.requests w) + length data)%nat.
Proof.
  cbn zeta. unfold Map10.preprocess_data.
  destruct (geocode_all_paced (map Map10.location_query data) w)
    as (Hl & Hs & Hr).
  rewrite length_map in Hl, Hs, Hr.
  split; [done|]. split; [done|]. split; [|done].
  rewrite Hs, total_sleep_app, total_sleep_replicate. reflexivity.
Qed.

End Map10_loop.

(** ** map11: the retry loop *)

Section Map11_more.

Variable remote : nat -> string -> http_reply.

Lemma wait_time_nonneg attempt : (0 <= Map11.wait_time attempt)%Q.
Proof.
  unfold Map11.wait_time, Map11.RATE_LIMIT.
  assert (0 <= inject_Z (2 ^ Z.of_nat attempt))%Q.
  { change 0%Q with (inject_Z 0). rewrite <- Zle_Qle. lia. }
  nra.
Qed.

Lemma total_wait_nonneg attempts :
  (0 <= total_sleep (map Map11.wait_time attempts))%Q.
Proof.
  induction attempts as [|a l IH]; cbn.
  - lra.
  - pose proof (wait_time_nonneg a). unfold total_sleep in IH. lra.
Qed.

Lemma total_wait_closed n :
  (total_sleep (map Map11.wait_time (seq 0 n)) ==
   Map11.RATE_LIMIT * inject_Z (2 ^ Z.of_nat n - 1))%Q.
Proof.
  induction n as [|n IH].
  - cbn. unfold Map11.RATE_LIMIT. reflexivity.
  - rewrite seq_S, map_app, total_sleep_app, IH. cbn [map total_sleep fold_right plus].
    unfold Map11.wait_time.
    rewrite Nat2Z.inj_succ, Z.pow_succ_r by lia.
    replace (2 * 2 ^ Z.of_nat n - 1)%Z
      with ((2 ^ Z.of_nat n - 1) + 2 ^ Z.of_nat n)%Z by lia.
    rewrite inject_Z_plus. ring.
Qed.

Ltac retry_step E :=
  cbn [Map11.retry_loop] in E;
  unfold bind at 1, Map11.get_cached_lat_long, Map10.get_cached_lat_long in E;
  cbn [fst snd] in E.

Ltac retry_next E :=
  unfold bind, Map10.say, Map10.time_sleep, Map11.cache_lat_long,
    Map10.cache_lat_long, ret in E;
  cbn [fst snd] in E.

Lemma retry_loop_bounds q attempts : forall w res w',
  Map11.retry_loop remote attempts q w = (res, w') ->
  (length (Map10.requests w') <=
     length (Map10.requests w) + length attempts)%nat /\
  exists waits,
    Map10.sleeps w' = Map10.sleeps w ++ waits /\
    (0 <= total_sleep waits)%Q /\
    (total_sleep waits <= total_sleep (map Map11.wait_time attempts))%Q.
Proof.
  induction attempts as [|a rest IH]; intros w res w' E.
  - cbn in E. injection E as <- <-. split; [cbn; lia|]. exists [].
    rewrite app_nil_r. split; [done|].
    unfold total_sleep. cbn [map fold_right]. split; lra.
  - pose proof (total_wait_nonneg rest) as Hrest.
    pose proof (wait_time_nonneg a) as Ha.
    assert (Hkeep : forall w1,
      Map10.requests w1 = Map10.requests w ++ [q] ->
      Map10.sleeps w1 = Map10.sleeps w ->
      Map11.retry_loop remote rest q w1 = (res, w') ->
      (length (Map10.requests w') <=
         length (Map10.requests w) + length (a :: rest))%nat /\
      exists waits,
        Map10.sleeps w' = Map10.sleeps w ++ waits /\
        (0 <= total_sleep waits)%Q /\
        (total_sleep waits <=
           total_sleep (map Map11.wait_time (a :: rest)))%Q).
    { intros w1 Hr1 Hs1 E1.
      destruct (IH _ _ _ E1) as (Hr & waits & Hs & H0 & Hle).
      rewrite Hr1, length_app in Hr. cbn [length] in *.
      split; [lia|]. exists waits. rewrite Hs, Hs1. split; [done|].
      split; [done|]. unfold total_sleep in *. cbn [map fold_right]. lra. }
    retry_step E.
    destruct (Map10.geocoded_locations w !! q) as [[la lo]|] eqn:Hq.
    + cbn in E. injection E as <- <-. cbn [Map10.requests Map10.sleeps].
      split; [lia|]. exists []. rewrite app_nil_r. split; [done|].
      unfold total_sleep in *. cbn [map fold_right]. split; lra.
    + cbn [is_not_None andb] in E. unfold bind at 1, Map10.requests_get in E.
      cbn [fst snd] in E.
      destruct (fetch_json _) as [[code|]|[|p l]].
      * destruct (code =? 429)%Z.
        -- retry_next E.
           destruct (IH _ _ _ E) as (Hr & waits & Hs & H0 & Hle).
           cbn [Map10.requests Map10.sleeps] in Hr, Hs.
           rewrite length_app in Hr. cbn [length] in *.
           split; [lia|]. exists (Map11.wait_time a :: waits).
           split; [by rewrite Hs, <- app_assoc|].
           unfold total_sleep in *. cbn [map fold_right]. split; lra.
        -- retry_next E. by apply Hkeep in E.
      * retry_next E. by apply Hkeep in E.
      * by apply Hkeep in E.
      * destruct (p_lat p) as [la|], (p_lng p) as [lo|].
        -- retry_next E. injection E as <- <-.
           cbn [Map10.requests Map10.sleeps].
           rewrite length_app. cbn [length]. split; [lia|].
           exists []. rewrite app_nil_r. split; [done|].
           unfold total_sleep in *. cbn [map fold_right]. split; lra.
        -- retry_next E. by apply Hkeep in E.
        -- retry_next E. by apply Hkeep in E.
        -- retry_next E. by apply Hkeep in E.
Qed.

(** X13. One call of [geocode_location_with_retry] sends at most
    [retries] requests, and the back-off sleeps it adds sum to at most
    [RATE_LIMIT * (2 ^ retries - 1)] seconds; with the default of five
    attempts that is at most 46.5 seconds for a query. *)
Theorem retry_cost_is_bounded (q : string) (retries : nat) (w : Map10.World) :
  let w' := exec (Map11.geocode_location_with_retry remote q retries) w in
  (length (Map10.requests w') <= length (Map10.requests w) + retries)%nat /\
  exists waits,
    Map10.sleeps w' = Map10.sleeps w ++ waits /\
    (0 <= total_sleep waits)%Q /\
    (total_sleep waits <=
       Map11.RATE_LIMIT * inject_Z (2 ^ Z.of_nat retries - 1))%Q /\
    (retries = Map11.RETRY_LIMIT -> total_sleep waits <= 93 # 2)%Q.
Proof.
  cbn zeta. unfold Map11.geocode_location_with_retry, exec.
  destruct (Map11.retry_loop remote (seq 0 retries) q w) as [res w'] eqn:E.
  destruct (retry_loop_bounds _ _ _ _ _ E) as (Hr & waits & Hs & H0 & Hle).
  cbn [snd].
  rewrite length_seq in Hr. split; [done|].
  exists waits. split; [done|]. split; [done|].
  rewrite total_wait_closed in Hle. split; [done|].
  intros ->. revert Hle. unfold Map11.RETRY_LIMIT, Map11.RATE_LIMIT.
  change (inject_Z (2 ^ Z.of_nat 5 - 1)) with (31 # 1)%Q. lra.
Qed.

Lemma retry_loop_answer q attempts : forall w res w',
  Map11.retry_loop remote attempts q w = (res, w') ->
  nothing_found w w' q res (attempts ≠ []) \/
  numbers_cached w' q res \/
  nan_returned w w' q res.
Proof.
  induction attempts as [|a rest IH]; intros w res w' E.
  - left. cbn in E. by injection E as <- <-.
  - assert (Hkeep : forall w1,
      Map10.geocoded_locations w1 = Map10.geocoded_locations w ->
      Map10.geocoded_locations w !! q = None ->
      Map11.retry_loop remote rest q w1 = (res, w') ->
      nothing_found w w' q res (a :: rest ≠ []) \/
      numbers_cached w' q res \/
      nan_returned w w' q res).
    { intros w1 Ht Hq E1.
      destruct (IH _ _ _ E1)
        as [(He & Hg & _)|[Hc|(x & y & He & Hn & Hg & _)]].
      - left. split; [done|]. by rewrite Hg, Ht.
      - right. by left.
      - right. right. exists x, y. by rewrite Hg, Ht. }
    retry_step E.
    destruct (Map10.geocoded_locations w !! q) as [[la lo]|] eqn:Hq.
    + right. left. exists la, lo. cbn in E. by injection E as <- <-.
    + cbn [is_not_None andb] in E. unfold bind at 1, Map10.requests_get in E.
      cbn [fst snd] in E.
      destruct (fetch_json _) as [[code|]|[|p l]].
      * destruct (code =? 429)%Z; retry_next E; by apply Hkeep in E.
      * retry_next E. by apply Hkeep in E.
      * by apply Hkeep in E.
      * destruct (p_lat p) as [[la|]|], (p_lng p) as [[lo|]|];
          try (retry_next E; by apply Hkeep in E);
          retry_next E; unfold bind_real in E; cbn in E; rewrite ?Hq in E;
          injection E as <- <-; cbn [Map10.geocoded_locations].
        -- right. left. exists la, lo. cbn. by rewrite lookup_insert_eq.
        -- right. right. exists (Num la), NaN. cbn. auto.
        -- right. right. exists NaN, (Num lo). cbn. auto.
        -- right. right. exists NaN, NaN. cbn. auto.
Qed.

(** X14. What [geocode_location_with_retry] returns is never half a
    pair, and a call ends in one of three ways. It returns [(None, None)]:
    then the table is as it was and, if at least one attempt was allowed,
    the query was not in the table. It returns a pair of numbers: then
    the table holds exactly that pair for the query when the call ends.
    Or it returns a pair with a NaN in it ([float('nan')] does not raise):
    then the query was not in the table and still is not, the pair was
    not cached. With [retries = 0] the answer is [(None, None)] whatever
    the table holds. *)
Theorem answer_is_the_cached_pair (q : string) (retries : nat)
    (w : Map10.World) :
  let res := eval (Map11.geocode_location_with_retry remote q retries) w in
  let w' := exec (Map11.geocode_location_with_retry remote q retries) w in
  (nothing_found w w' q res (retries ≠ 0) \/
   numbers_cached w' q res \/
   nan_returned w w' q res) /\
  (is_Some res.1 <-> is_Some res.2) /\
  (retries = 0 -> res = (None, None) /\ w' = w).
Proof.
  cbn zeta. unfold Map11.geocode_location_with_retry.
  assert (H : nothing_found w (exec (Map11.retry_loop remote (seq 0 retries) q) w)
                q (eval (Map11.retry_loop remote (seq 0 retries) q) w)
                (retries ≠ 0) \/
              numbers_cached (exec (Map11.retry_loop remote (seq 0 retries) q) w)
                q (eval (Map11.retry_loop remote (seq 0 retries) q) w) \/
              nan_returned w (exec (Map11.retry_loop remote (seq 0 retries) q) w)
                q (eval (Map11.retry_loop remote (seq 0 retries) q) w)).
  { unfold eval, exec.
    destruct (Map11.retry_loop remote (seq 0 retries) q w) as [res w'] eqn:E.
    cbn [fst snd].
    destruct (retry_loop_answer _ _ _ _ _ E)
      as [(He & Hg & Hq)|[Hc|Hn]]; [|by right; left|by right; right].
    left. split; [done|]. split; [done|]. intros Hr. apply Hq.
    destruct retries; [done|]. cbn. done. }
  split; [exact H|]. split.
  - destruct H as [(-> & _)|[(la & lo & -> & _)|(x & y & -> & _)]]; cbn;
      split; first [by intros [? [=]] | eauto].
  - intros ->. cbn. done.
Qed.

(** The NaN case on a sample: one request, the pair returned, the table
    still empty. *)
Example nan_pair_ends_the_retries :
  let w' := exec (Map11.geocode_location_with_retry Sample.not_a_number
                    Sample.nowhere Map11.RETRY_LIMIT) (Sample.world10 ∅) in
  eval (Map11.geocode_location_with_retry Sample.not_a_number
          Sample.nowhere Map11.RETRY_LIMIT) (Sample.world10 ∅)
    = (Some NaN, Some (Num (741 # 10))) /\
  Map10.requests w' = [Sample.nowhere] /\
  Map10.geocoded_locations w' = ∅.
Proof. cbn zeta. split; [|split]; vm_compute; reflexivity. Qed.

End Map11_more.

(** ** The colour of a marker *)

Lemma Qltb_true a b : Map9.Qltb a b = true -> (a < b)%Q.
Proof.
  unfold Map9.Qltb. intros H. apply negb_true_iff in H.
  apply Qnot_le_lt. intros Hle. apply Qle_bool_iff in Hle. congruence.
Qed.

Lemma Qeq_bool_false a b : Qeq_bool a b = false -> ~ (a == b)%Q.
Proof. intros H He. apply Qeq_bool_iff in He. congruence. Qed.

Ltac color_facts :=
  repeat match goal with
  | H : Map9.Qltb _ _ = true |- _ => apply Qltb_true in H
  | H : Map9.Qltb _ _ = false |- _ => apply Qltb_false in H
  | H : Qeq_bool _ _ = true |- _ => apply Qeq_bool_iff in H
  | H : Qeq_bool _ _ = false |- _ => apply Qeq_bool_false in H
  end.

(** X17. The two [get_color] functions, of map8 and of map9, give a
    marker the same colour for every amount but four: at 0 map8 says
    gray where map9 says green, and at each of the thresholds 10000,
    100000 and 1000000 map8 gives the colour above the threshold and
    map9 the colour below it. *)
Theorem colors_differ_at_thresholds (amount : Q) :
  (Map8.get_color amount = Map9.get_color amount <->
   ~ (amount == 0 \/ amount == 10000 \/ amount == 100000 \/
      amount == 1000000)%Q) /\
  ((amount == 0)%Q ->
     Map8.get_color amount = "gray" /\ Map9.get_color amount = "green") /\
  ((amount == 10000)%Q ->
     Map8.get_color amount = "yellow" /\ Map9.get_color amount = "green") /\
  ((amount == 100000)%Q ->
     Map8.get_color amount = "orange" /\ Map9.get_color amount = "yellow") /\
  ((amount == 1000000)%Q ->
     Map8.get_color amount = "red" /\ Map9.get_color amount = "orange").
Proof.
  unfold Map8.get_color, Map9.get_color.
  destruct (Qeq_bool amount 0) eqn:H0;
  destruct (Map9.Qltb amount 10000) eqn:H1;
  destruct (Map9.Qltb amount 100000) eqn:H2;
  destruct (Map9.Qltb amount 1000000) eqn:H3;
  destruct (Map9.Qltb 1000000 amount) eqn:H4;
  destruct (Map9.Qltb 100000 amount) eqn:H5;
  destruct (Map9.Qltb 10000 amount) eqn:H6;
  color_facts; try (exfalso; lra);
  (split; [split; [intros He; try discriminate He;
                   intros [E|[E|[E|E]]]; lra
                  |intros Hn; try reflexivity; exfalso; apply Hn;
                   first [left; lra | right; left; lra
                         | right; right; left; lra | right; right; right; lra]]
          |repeat split; intros; try reflexivity; exfalso; lra]).
Qed.
